(* ===================================================================== *)
(* tdw: remote build launcher (tdw_utils.py) and platform tables         *)
(* (backend/platforms.py).                                               *)
(*                                                                       *)
(* The launcher talks to the launch_binaries daemon over a zmq REQ       *)
(* socket.  Its functions are embedded as programs over the library      *)
(* calls they make (socket creation, connect, send_json, recv_json,      *)
(* time.sleep, Thread.start) and over their reads of the dict objects    *)
(* they are given; what the daemon and the network answer is the         *)
(* environment's choice and appears as the events of a trace.  The dict  *)
(* objects live in a store that the threads of a process share.          *)
(* ===================================================================== *)

From Stdlib Require Import SpecFloat Ascii.
From stdpp Require Import gmap strings list fin_maps pretty sorting.

Open Scope string_scope.
Open Scope Z_scope.
Open Scope list_scope.

(* --------------------------------------------------------------------- *)
(* backend/platforms.py                                                  *)
(* --------------------------------------------------------------------- *)

Module Platforms.

(* Convert platform.system() to S3 URL infixes. *)
Definition SYSTEM_TO_S3 : gmap string string :=
  {[ "Windows" := "windows";
     "Darwin" := "osx";
     "Linux" := "linux" ]}.

(* Convert S3 URL infixes to Unity build targets. *)
Definition S3_TO_UNITY : gmap string string :=
  {[ "windows" := "StandaloneWindows64";
     "osx" := "StandaloneOSX";
     "linux" := "StandaloneLinux64" ]}.

(* Convert platform.system() to Unity build targets. *)
Definition SYSTEM_TO_UNITY : gmap string string :=
  {[ "Windows" := "StandaloneWindows64";
     "Darwin" := "StandaloneOSX";
     "Linux" := "StandaloneLinux64" ]}.

(* Convert Unity build targets to platform.system() *)
Definition UNITY_TO_SYSTEM : gmap string string :=
  {[ "StandaloneWindows64" := "Windows";
     "StandaloneOSX" := "Darwin";
     "StandaloneLinux64" := "Linux" ]}.

(* The three values platform.system() takes on the supported hosts. *)
Definition systems : list string := ["Windows"; "Darwin"; "Linux"].

(* The three Unity build targets. *)
Definition unity_targets : list string :=
  ["StandaloneWindows64"; "StandaloneOSX"; "StandaloneLinux64"].

End Platforms.

(* --------------------------------------------------------------------- *)
(* JSON messages                                                         *)
(* --------------------------------------------------------------------- *)

(* The values of the fields of a message, as json.loads builds them:
   None, bool, int, float, str, list and dict.  An object nested in a
   message keeps its fields as the list of its items.  The launcher only
   ever reads build_info["build_port"] and copies it into later requests. *)
#[warnings="-register-all"] Inductive json :=
| JNull
| JBool (b : bool)
| JInt (n : Z)
| JFloat (f : spec_float)
| JStr (s : string)
| JList (items : list json)
| JObject (fields : list (string * json)).

#[global] Instance spec_float_eq_dec : EqDecision spec_float.
Proof. solve_decision. Defined.

Fixpoint json_eq_dec (x y : json) : {x = y} + {x ≠ y}.
Proof.
  refine (
    match x, y with
    | JNull, JNull => left eq_refl
    | JBool a, JBool b => cast_if (decide (a = b))
    | JInt a, JInt b => cast_if (decide (a = b))
    | JFloat a, JFloat b => cast_if (decide (a = b))
    | JStr a, JStr b => cast_if (decide (a = b))
    | JList a, JList b => cast_if (List.list_eq_dec json_eq_dec a b)
    | JObject a, JObject b =>
        cast_if (List.list_eq_dec
                   (fun p q : string * json =>
                      match decide (p.1 = q.1), json_eq_dec p.2 q.2 with
                      | left _, left _ => left _
                      | _, _ => right _
                      end) a b)
    | _, _ => right _
    end); try congruence.
  all: destruct p as [k1 v1], q as [k2 v2]; simpl in *; congruence.
Defined.

#[global] Instance json_eqdec : EqDecision json := json_eq_dec.

(* The content of a Python dict with string keys, as send_json takes it
   and recv_json gives it. *)
Abbreviation dict := (gmap string json).

(* A dict object: what a variable or an argument holds is the object, not
   its content, so two holders of the same object see each other's
   changes. *)
Definition pyref := nat.

(* Exceptions the code can meet. *)
Inductive exn :=
| KeyError (key : string)      (* d[key] on a dict without key *)
| ZMQError (errno : Z)         (* raised by a pyzmq call *)
| ValueError.                  (* recv_json on a body that is not JSON *)

#[global] Instance exn_eq_dec : EqDecision exn.
Proof. solve_decision. Defined.

(* Handle of a zmq socket. *)
Definition zmq_socket := nat.

(* --------------------------------------------------------------------- *)
(* Programs over the library calls                                       *)
(* --------------------------------------------------------------------- *)

(* A piece of Python code, as the tree of the library calls it makes.
   [WhileTrue body] is `while True: body`; it ends only when the body
   raises. *)
Inductive prog (A : Type) : Type :=
| Ret (a : A)
| Raise (e : exn)
| ZmqSocket (k : zmq_socket -> prog A)
| Connect (s : zmq_socket) (addr : string) (k : prog A)
| SendJson (s : zmq_socket) (msg : dict) (k : prog A)
| RecvJson (s : zmq_socket) (k : pyref -> prog A)
| GetItem (d : pyref) (key : string) (k : json -> prog A)
| SetItem (d : pyref) (key : string) (v : json) (k : prog A)
| Sleep (secs : Z) (k : prog A)
| WhileTrue (body : prog unit)
| ThreadStart (target : prog unit) (k : prog A).

Arguments Ret {A} a.
Arguments Raise {A} e.
Arguments ZmqSocket {A} k.
Arguments Connect {A} s addr k.
Arguments SendJson {A} s msg k.
Arguments RecvJson {A} s k.
Arguments GetItem {A} d key k.
Arguments SetItem {A} d key v k.
Arguments Sleep {A} secs k.
Arguments WhileTrue {A} body.
Arguments ThreadStart {A} target k.

(* Sequencing: an exception skips the rest, a `while True` never falls
   through to what follows it. *)
Fixpoint bind {A B : Type} (p : prog A) (f : A -> prog B) : prog B :=
  match p with
  | Ret a => f a
  | Raise e => Raise e
  | ZmqSocket k => ZmqSocket (fun s => bind (k s) f)
  | Connect s addr k => Connect s addr (bind k f)
  | SendJson s msg k => SendJson s msg (bind k f)
  | RecvJson s k => RecvJson s (fun d => bind (k d) f)
  | GetItem d key k => GetItem d key (fun v => bind (k v) f)
  | SetItem d key v k => SetItem d key v (bind k f)
  | Sleep secs k => Sleep secs (bind k f)
  | WhileTrue body => WhileTrue body
  | ThreadStart target k => ThreadStart target (bind k f)
  end.

#[global] Instance prog_ret : MRet prog := @Ret.
#[global] Instance prog_bind : MBind prog := fun A B f p => bind p f.

(* The library calls, one by one. *)

(* context = zmq.Context(); socket = context.socket(zmq.REQ) *)
Definition zmq_req_socket : prog zmq_socket := ZmqSocket Ret.

(* socket.connect(addr) *)
Definition connect (socket : zmq_socket) (addr : string) : prog unit :=
  Connect socket addr (Ret tt).

(* socket.send_json(obj): obj is serialised at once; the requests of the
   launcher are dicts built on the spot, given here by their content. *)
Definition send_json (socket : zmq_socket) (obj : dict) : prog unit :=
  SendJson socket obj (Ret tt).

(* socket.recv_json(): a new dict object *)
Definition recv_json (socket : zmq_socket) : prog pyref :=
  RecvJson socket Ret.

(* time.sleep(secs) *)
Definition time_sleep (secs : Z) : prog unit := Sleep secs (Ret tt).

(* thread = Thread(target=...); thread.setDaemon(True); thread.start() *)
Definition thread_start (target : prog unit) : prog unit :=
  ThreadStart target (Ret tt).

(* d[key] *)
Definition getitem (d : pyref) (key : string) : prog json :=
  GetItem d key Ret.

(* d[key] = v *)
Definition setitem (d : pyref) (key : string) (v : json) : prog unit :=
  SetItem d key v (Ret tt).

(* --------------------------------------------------------------------- *)
(* Python built-ins used by the utility functions                        *)
(* --------------------------------------------------------------------- *)

(* What the utility functions raise. *)
Inductive pyerror :=
| PyKeyError (key : string)        (* d[key] on a dict without key *)
| PyIndexError                     (* arr[i] past the end *)
| PyTypeError                      (* len() of a value that has no length *)
| PyValueError                     (* float() of a string that is no number *)
| PyOverflowError                  (* float() of an int that is too large *)
| PyAssertionError (msg : string)  (* a failed assert *)
| PyOSError (errno : Z).           (* a failed system call *)

#[global] Instance pyerror_eq_dec : EqDecision pyerror.
Proof. solve_decision. Defined.

(* A Python expression is evaluated to a value or raises. *)
Inductive outcome (A : Type) : Type :=
| Ok (a : A)
| Err (e : pyerror).

Arguments Ok {A} a.
Arguments Err {A} e.

#[global] Instance outcome_ret : MRet outcome := @Ok.
#[global] Instance outcome_bind : MBind outcome := fun A B f o =>
  match o with
  | Ok a => f a
  | Err e => Err e
  end.

(* d[key], on a dict that is only read *)
Definition item {V : Type} (d : gmap string V) (key : string) : outcome V :=
  match d !! key with
  | Some v => Ok v
  | None => Err (PyKeyError key)
  end.

(* arr[i], on a one-dimensional array and an index that is not negative *)
Definition index {V : Type} (arr : list V) (i : nat) : outcome V :=
  match arr !! i with
  | Some v => Ok v
  | None => Err PyIndexError
  end.

(* range(n): empty when n <= 0 *)
Definition range (n : Z) : list Z := seqZ 0 n.

(* str(n), for an int *)
Definition str_int (n : Z) : string := pretty n.

(* k characters "0" *)
Fixpoint zeros (k : nat) : string :=
  match k with
  | O => ""
  | S k' => String "0"%char (zeros k')
  end.

(* s.zfill(width): zeros are put on the left until the string is width
   characters long, after the sign if s starts with "+" or "-"; a string
   that is long enough is returned as it is. *)
Definition zfill (s : string) (width : Z) : string :=
  let fill := (Z.to_nat width - String.length s)%nat in
  match s with
  | String c rest =>
      if decide (c = "+"%char ∨ c = "-"%char)
      then String c (zeros fill +:+ rest)
      else zeros fill +:+ s
  | EmptyString => zeros fill
  end.

(* bool(v), as `if v:` takes it: None, False, zero, the empty string, the
   empty list and the empty dict are false, all else is true. *)
Definition truthy (v : json) : bool :=
  match v with
  | JNull => false
  | JBool b => b
  | JInt n => bool_decide (n ≠ 0)
  | JFloat f => match f with S754_zero _ => false | _ => true end
  | JStr s => bool_decide (s ≠ "")
  | JList items => bool_decide (items ≠ [])
  | JObject fields => bool_decide (fields ≠ [])
  end.

(* --------------------------------------------------------------------- *)
(* tdw_utils.py: TDWUtils, the remote build launcher                     *)
(* --------------------------------------------------------------------- *)

Module TDWUtils.

(* The four conversions between Vector3/Vector4 dicts and arrays work on
   whatever values they are handed: VECTOR3_ZERO and the examples of the
   docstrings hold ints, an array holds numpy scalars.  They are written
   over a type V of Python values; a one-dimensional array is given by the
   list of its elements, np_array is np.array called on a list and float
   is float(), and each of the two may raise. *)

(* Convert a Vector3 object to a numpy array. *)
Definition vector3_to_array {V : Type} (np_array : list V → outcome (list V))
    (vector3 : gmap string V) : outcome (list V) :=
  x ← item vector3 "x" ;
  y ← item vector3 "y" ;
  z ← item vector3 "z" ;
  np_array [x; y; z].

(* Convert a numpy array to a Vector3. *)
Definition array_to_vector3 {V : Type} (float : V → outcome V)
    (arr : list V) : outcome (gmap string V) :=
  a0 ← index arr 0 ;
  x ← float a0 ;
  a1 ← index arr 1 ;
  y ← float a1 ;
  a2 ← index arr 2 ;
  z ← float a2 ;
  mret {[ "x" := x; "y" := y; "z" := z ]}.

(* Convert a Vector4 to a numpy array. *)
Definition vector4_to_array {V : Type} (np_array : list V → outcome (list V))
    (vector4 : gmap string V) : outcome (list V) :=
  x ← item vector4 "x" ;
  y ← item vector4 "y" ;
  z ← item vector4 "z" ;
  w ← item vector4 "w" ;
  np_array [x; y; z; w].

(* Convert a numpy array to a Vector4.  (The elements are taken as they
   are: there is no float() here.) *)
Definition array_to_vector4 {V : Type} (arr : list V) : outcome (gmap string V) :=
  a0 ← index arr 0 ;
  a1 ← index arr 1 ;
  a2 ← index arr 2 ;
  a3 ← index arr 3 ;
  mret {[ "x" := a0; "y" := a1; "z" := a2; "w" := a3 ]}.

(* Convert a numpy array to a RGBA Color.  If no A value is supplied it
   will default to 1. *)
Definition array_to_color (arr : list spec_float) : outcome dict :=
  r ← index arr 0 ;
  g ← index arr 1 ;
  b ← index arr 2 ;
  a ← (if decide (length arr = 3%nat) then mret (JInt 1)
       else a3 ← index arr 3 ; mret (JFloat a3)) ;
  mret {[ "r" := JFloat r; "g" := JFloat g; "b" := JFloat b; "a" := a ]}.

(* Returns a list of x,y positions that can be used to create a box with
   the create_exterior_walls command. *)
Definition get_box (width length : Z) : list json :=
  foldl (fun box x =>
    foldl (fun box y =>
      if decide (x = 0 ∨ x = width - 1 ∨ y = 0 ∨ y = length - 1)
      then box ++ [JObject [("x", JInt x); ("y", JInt y)]]
      else box)
    box (range length))
  [] (range width).

(* A Vector3: {"x": x, "y": y, "z": z} *)
Definition get_vector3 (x y z : json) : json :=
  JObject [("x", x); ("y", y); ("z", z)].

(* A create_exterior_walls command that creates a box with dimensions
   (width, length). *)
Definition create_empty_room (width length : Z) : json :=
  JObject [("$type", JStr "create_exterior_walls");
           ("walls", JList (get_box width length))].

(* A string representation of an integer padded with zeroes, e.g.
   converts 3 to "0003". *)
Definition zero_padding (integer : Z) (width : Z) : string :=
  zfill (str_int integer) width.

(* This is a wrapper for create_avatar and, optionally, teleport_avatar_to
   and look_at_position.  position and look_at are None (JNull) by
   default. *)
Definition create_avatar (avatar_type avatar_id : string) (position look_at : json)
  : list json :=
  (* Create the avatar. *)
  let commands := [JObject [("$type", JStr "create_avatar");
                            ("type", JStr avatar_type);
                            ("id", JStr avatar_id)]] in
  (* Teleport the avatar. *)
  let commands :=
    if truthy position
    then commands ++ [JObject [("$type", JStr "teleport_avatar_to");
                               ("avatar_id", JStr avatar_id);
                               ("position", position)]]
    else commands in
  let commands :=
    if truthy look_at
    then commands ++ [JObject [("$type", JStr "look_at_position");
                               ("avatar_id", JStr avatar_id);
                               ("position", look_at)]]
    else commands in
  commands.

(* This sends a command to the launch_binaries daemon running on a remote
   node to start a binary connected to the given controller address.
   Returns the build info dictionary containing build port. *)
Definition _send_start_build (socket : zmq_socket) (controller_address : string)
  : prog pyref :=
  let request : dict :=
    {[ "type" := JStr "start_build";
       "controller_address" := JStr controller_address ]} in
  send_json socket request ;;
  build_info ← recv_json socket ;
  mret build_info.

(* This sends a command to the launch_binaries daemon running on a remote
   node to mark a given binary as still alive, preventing garbage
   collection.  Returns a heartbeat indicating build is still alive. *)
Definition _send_keep_alive (socket : zmq_socket) (build_info : pyref)
  : prog pyref :=
  build_port ← getitem build_info "build_port" ;
  let request : dict :=
    {[ "type" := JStr "keep_alive"; "build_port" := build_port ]} in
  send_json socket request ;;
  heartbeat ← recv_json socket ;
  mret heartbeat.

(* This sends a command to the launch_binaries daemon running on a remote
   node to terminate a given binary.  Returns a kill_status indicating
   build has been successfully terminated. *)
Definition _send_kill_build (socket : zmq_socket) (build_info : pyref)
  : prog pyref :=
  build_port ← getitem build_info "build_port" ;
  let request : dict :=
    {[ "type" := JStr "kill_build"; "build_port" := build_port ]} in
  send_json socket request ;;
  kill_status ← recv_json socket ;
  mret kill_status.

(* This is a wrapper around the keep alive command to be executed in a
   separate thread. *)
Definition _keep_alive_thread (socket : zmq_socket) (build_info : pyref)
  : prog unit :=
  WhileTrue (_send_keep_alive socket build_info ;; time_sleep 60).

(* Connect to a remote binary_manager daemon and launch an instance of a
   TDW build.  Returns the build_info dictionary containing build_port. *)
Definition launch_build (listener_port : Z)
    (build_address controller_address : string) : prog pyref :=
  socket ← zmq_req_socket ;
  connect socket ("tcp://" +:+ build_address +:+ ":" +:+ pretty listener_port) ;;
  build_info ← _send_start_build socket controller_address ;
  thread_start (_keep_alive_thread socket build_info) ;;
  mret build_info.

End TDWUtils.

(* --------------------------------------------------------------------- *)
(* tdw_utils.py: AudioUtils, recording audio with fmedia                 *)
(* --------------------------------------------------------------------- *)

(* Strings are taken byte by byte, as UTF-8 has them; the patterns the
   code looks for are ASCII, so a match on bytes is a match on
   characters. *)

Definition newline : ascii := "010"%char.

(* s[n:] *)
Fixpoint string_drop (n : nat) (s : string) : string :=
  match n, s with
  | O, _ => s
  | S n', String _ s' => string_drop n' s'
  | S _, EmptyString => EmptyString
  end.

(* The text before and the text after the first occurrence of sep in s. *)
Fixpoint partition (sep s : string) : option (string * string) :=
  if String.prefix sep s then Some ("", string_drop (String.length sep) s)
  else
    match s with
    | EmptyString => None
    | String c s' =>
        match partition sep s' with
        | Some (before, after) => Some (String c before, after)
        | None => None
        end
    end.

(* s.split(sep)[1]: the text between the first and the second occurrence
   of sep, or up to the end when there is no second one; IndexError when
   sep does not occur. *)
Definition split_second (sep s : string) : outcome string :=
  match partition sep s with
  | None => Err PyIndexError
  | Some (_, rest) =>
      match partition sep rest with
      | None => Ok rest
      | Some (between, _) => Ok between
      end
  end.

(* The text up to the first newline. *)
Fixpoint line_of (s : string) : string :=
  match s with
  | EmptyString => EmptyString
  | String c s' => if decide (c = newline) then EmptyString else String c (line_of s')
  end.

(* The text before the last occurrence of sep in s. *)
Fixpoint before_last (sep s : string) : option string :=
  match s with
  | EmptyString => if String.prefix sep s then Some "" else None
  | String c s' =>
      match before_last sep s' with
      | Some before => Some (String c before)
      | None => if String.prefix sep s then Some "" else None
      end
  end.

(* re.search on the pattern made of the text left, a group of any
   characters and the text right; gives the group, None when there is no
   match.  The match starts at the first place where left is found with
   right later on the same line (the dot does not match a newline), and
   the group, being greedy, runs up to the last right on that line. *)
Fixpoint re_search_group (left right s : string) : option string :=
  let here :=
    if String.prefix left s
    then before_last right (line_of (string_drop (String.length left) s))
    else None in
  match here with
  | Some group => Some group
  | None =>
      match s with
      | EmptyString => None
      | String _ s' => re_search_group left right s'
      end
  end.

(* A piece of Python code over the system calls it makes; each call hands
   its value, or the exception it raised, to the code that follows. *)
Inductive script (A : Type) : Type :=
| Done (a : A)
  (* check_output(args).decode("utf-8") *)
| CheckOutput (args : list string) (k : outcome string -> script A)
  (* str(Path(path).resolve()) *)
| PathResolve (path : string) (k : outcome string -> script A)
  (* Path(path).parent.exists() *)
| ParentExists (path : string) (k : outcome bool -> script A)
  (* Path(path).parent.mkdir(parents=True) *)
| ParentMkdir (path : string) (k : outcome unit -> script A)
  (* with open(os.devnull, "w+") as f: Popen(args, stderr=f).pid *)
| Popen (args : list string) (k : outcome Z -> script A)
  (* with open(os.devnull, "w+") as f: call(args, stderr=f, stdout=f) *)
| Call (args : list string) (k : outcome Z -> script A)
  (* pid_exists(pid) *)
| PidExists (pid : Z) (k : outcome bool -> script A).

Arguments Done {A} a.
Arguments CheckOutput {A} args k.
Arguments PathResolve {A} path k.
Arguments ParentExists {A} path k.
Arguments ParentMkdir {A} path k.
Arguments Popen {A} args k.
Arguments Call {A} args k.
Arguments PidExists {A} pid k.

Fixpoint script_bind {A B : Type} (p : script A) (f : A -> script B) : script B :=
  match p with
  | Done a => f a
  | CheckOutput args k => CheckOutput args (fun r => script_bind (k r) f)
  | PathResolve path k => PathResolve path (fun r => script_bind (k r) f)
  | ParentExists path k => ParentExists path (fun r => script_bind (k r) f)
  | ParentMkdir path k => ParentMkdir path (fun r => script_bind (k r) f)
  | Popen args k => Popen args (fun r => script_bind (k r) f)
  | Call args k => Call args (fun r => script_bind (k r) f)
  | PidExists pid k => PidExists pid (fun r => script_bind (k r) f)
  end.

(* The class attributes of AudioUtils. *)
Record audio_utils := AudioState {
  RECORDER_PID : option Z;      (* The process ID of the audio recorder. *)
  DEVICE : option string        (* The audio capture device. *)
}.

(* Code that reads and writes the class attributes, makes system calls
   and may raise: from the attributes as they are to a value or an
   exception, and the attributes as they are left. *)
Definition audio (A : Type) : Type := audio_utils -> script (outcome A * audio_utils).

#[global] Instance audio_ret : MRet audio := fun A a st => Done (Ok a, st).
#[global] Instance audio_bind : MBind audio := fun A B f m st =>
  script_bind (m st) (fun r =>
    match r with
    | (Ok a, st') => f a st'
    | (Err e, st') => Done (Err e, st')
    end).

Definition audio_raise {A : Type} (e : pyerror) : audio A :=
  fun st => Done (Err e, st).

(* a pure expression *)
Definition audio_eval {A : Type} (o : outcome A) : audio A :=
  fun st => Done (o, st).

Definition get_RECORDER_PID : audio (option Z) := fun st => Done (Ok (RECORDER_PID st), st).
Definition set_RECORDER_PID (v : option Z) : audio unit :=
  fun st => Done (Ok tt, AudioState v (DEVICE st)).
Definition get_DEVICE : audio (option string) := fun st => Done (Ok (DEVICE st), st).
Definition set_DEVICE (v : option string) : audio unit :=
  fun st => Done (Ok tt, AudioState (RECORDER_PID st) v).

Definition check_output (args : list string) : audio string :=
  fun st => CheckOutput args (fun r => Done (r, st)).
Definition path_resolve (path : string) : audio string :=
  fun st => PathResolve path (fun r => Done (r, st)).
Definition parent_exists (path : string) : audio bool :=
  fun st => ParentExists path (fun r => Done (r, st)).
Definition parent_mkdir (path : string) : audio unit :=
  fun st => ParentMkdir path (fun r => Done (r, st)).
Definition popen_pid (args : list string) : audio Z :=
  fun st => Popen args (fun r => Done (r, st)).
Definition subprocess_call (args : list string) : audio Z :=
  fun st => Call args (fun r => Done (r, st)).
Definition pid_exists (pid : Z) : audio bool :=
  fun st => PidExists pid (fun r => Done (r, st)).

(* output_path: Union[str, Path] *)
Inductive path_arg :=
| PathStr (s : string)      (* a str *)
| PathObj (p : string).     (* a Path *)

(* str(x) inside an f-string, for DEVICE *)
Definition str_optional (x : option string) : string :=
  match x with
  | Some s => s
  | None => "None"
  end.

Module AudioUtils.

(* The audio device that can be used to capture system audio. *)
Definition get_system_audio_device : audio string :=
  listing ← check_output ["fmedia"; "--list-dev"] ;
  devices ← audio_eval (split_second "Capture:" listing) ;
  let dev_search := re_search_group "device #" ": Stereo Mix" devices in
  match dev_search with
  | None =>
      audio_raise (PyAssertionError
        ("No suitable audio capture device found:" +:+ String newline devices))
  | Some group1 => mret group1
  end.

(* Start recording audio. *)
Definition start (output_path : path_arg) (until : option (Z * Z)) : audio unit :=
  p ← (match output_path with
       | PathStr s => path_resolve s
       | PathObj p => mret p
       end : audio string) ;
  (* Create the directory. *)
  there ← parent_exists p ;
  ((if there : bool then mret tt else parent_mkdir p) : audio unit) ;;
  (* Set the capture device. *)
  device ← get_DEVICE ;
  (match device : option string with
   | None => found ← get_system_audio_device ; set_DEVICE (Some found)
   | Some _ => mret tt
   end : audio unit) ;;
  device ← get_DEVICE ;
  out ← path_resolve p ;
  let fmedia_call := ["fmedia";
                      "--record";
                      "--dev-capture=" +:+ str_optional device;
                      "--out=" +:+ out;
                      "--globcmd=listen"] in
  (* Automatically stop recording. *)
  let fmedia_call :=
    match until with
    | Some (minutes, seconds) =>
        fmedia_call ++ ["--until=" +:+ TDWUtils.zero_padding minutes 2 +:+ ":"
                                   +:+ TDWUtils.zero_padding seconds 2]
    | None => fmedia_call
    end in
  pid ← popen_pid fmedia_call ;
  set_RECORDER_PID (Some pid).

(* Stop recording audio (if any fmedia process is running). *)
Definition stop : audio unit :=
  pid ← get_RECORDER_PID ;
  match pid with
  | Some _ =>
      subprocess_call ["fmedia"; "--globcmd=quit"] ;;
      set_RECORDER_PID None
  | None => mret tt
  end.

(* True if the fmedia recording process still exists. *)
Definition is_recording : audio bool :=
  pid ← get_RECORDER_PID ;
  match pid with
  | Some pid => pid_exists pid
  | None => mret false
  end.

End AudioUtils.

(* One system call of a script, with what it gave. *)
Inductive os_event :=
| OsCheckOutput (args : list string) (r : outcome string)
| OsPathResolve (path : string) (r : outcome string)
| OsParentExists (path : string) (r : outcome bool)
| OsParentMkdir (path : string) (r : outcome unit)
| OsPopen (args : list string) (r : outcome Z)
| OsCall (args : list string) (r : outcome Z)
| OsPidExists (pid : Z) (r : outcome bool).

(* [script_step p ev] is what is left of p once it has made the call ev,
   None when ev is not the call p makes next. *)
Definition script_step {A : Type} (p : script A) (ev : os_event) : option (script A) :=
  match p, ev with
  | CheckOutput args k, OsCheckOutput args' r =>
      if decide (args = args') then Some (k r) else None
  | PathResolve path k, OsPathResolve path' r =>
      if decide (path = path') then Some (k r) else None
  | ParentExists path k, OsParentExists path' r =>
      if decide (path = path') then Some (k r) else None
  | ParentMkdir path k, OsParentMkdir path' r =>
      if decide (path = path') then Some (k r) else None
  | Popen args k, OsPopen args' r =>
      if decide (args = args') then Some (k r) else None
  | Call args k, OsCall args' r =>
      if decide (args = args') then Some (k r) else None
  | PidExists pid k, OsPidExists pid' r =>
      if decide (pid = pid') then Some (k r) else None
  | _, _ => None
  end.

Fixpoint script_run {A : Type} (p : script A) (t : list os_event) : option (script A) :=
  match t with
  | [] => Some p
  | ev :: t' =>
      match script_step p ev with
      | Some p' => script_run p' t'
      | None => None
      end
  end.

(* --------------------------------------------------------------------- *)
(* Semantics: what a thread does, one step at a time                     *)
(* --------------------------------------------------------------------- *)

(* One step of a thread, as seen from outside.  The values the
   environment chooses (the handle of a new socket, the reply the daemon
   sends, the exception a call raises) are part of the event, and so is
   what a dict object holds when it is read: the other holders of the
   object may have changed it. *)
Inductive event :=
| EvSocket (s : zmq_socket)                (* a REQ socket was created *)
| EvConnect (s : zmq_socket) (addr : string)
| EvSend (s : zmq_socket) (msg : dict)     (* send_json returned *)
| EvRecv (s : zmq_socket) (d : pyref) (reply : dict)
                                           (* recv_json returned the new dict
                                              d, which holds reply *)
| EvGetItem (d : pyref) (key : string) (v : json)   (* d[key] gave v *)
| EvSetItem (d : pyref) (key : string) (v : json)   (* d[key] = v was done *)
| EvSleep (secs : Z)                       (* time.sleep(secs) returned *)
| EvLoop                                   (* `while True:` entered its body *)
| EvThreadStart                            (* Thread.start() returned *)
| EvRaise (e : exn)                        (* the pending zmq call raised e,
                                              or the pending d[key] raised
                                              KeyError(key) *)
| EvExit.                                  (* the interpreter exits *)

#[global] Instance event_eq_dec : EqDecision event.
Proof. solve_decision. Defined.

(* [step p ev] is what is left of p once it has done ev, None when p
   cannot do ev.  A recv_json with no reply has no step: it blocks. *)
Definition step {A : Type} (p : prog A) (ev : event) : option (prog A) :=
  match p, ev with
  | ZmqSocket k, EvSocket s => Some (k s)
  | Connect s addr k, EvConnect s' addr' =>
      if decide (s = s' ∧ addr = addr') then Some k else None
  | SendJson s msg k, EvSend s' msg' =>
      if decide (s = s' ∧ msg = msg') then Some k else None
  | RecvJson s k, EvRecv s' d _ =>
      if decide (s = s') then Some (k d) else None
  | GetItem d key k, EvGetItem d' key' v =>
      if decide (d = d' ∧ key = key') then Some (k v) else None
  | SetItem d key v k, EvSetItem d' key' v' =>
      if decide (d = d' ∧ key = key' ∧ v = v') then Some k else None
  | Sleep secs k, EvSleep secs' =>
      if decide (secs = secs') then Some k else None
  | WhileTrue body, EvLoop => Some (bind body (fun _ => WhileTrue body))
  | ThreadStart _ k, EvThreadStart => Some k
  | ZmqSocket _, EvRaise e => Some (Raise e)
  | Connect _ _ _, EvRaise e => Some (Raise e)
  | SendJson _ _ _, EvRaise e => Some (Raise e)
  | RecvJson _ _, EvRaise e => Some (Raise e)
  | GetItem _ key _, EvRaise e =>
      if decide (e = KeyError key) then Some (Raise e) else None
  | _, _ => None
  end.

(* A thread doing a whole trace. *)
Fixpoint run {A : Type} (p : prog A) (t : list event) : option (prog A) :=
  match t with
  | [] => Some p
  | ev :: t' =>
      match step p ev with
      | Some p' => run p' t'
      | None => None
      end
  end.

(* The messages a trace puts on the wire, oldest first. *)
Definition sent (t : list event) : list (zmq_socket * dict) :=
  omap (fun ev => match ev with EvSend s msg => Some (s, msg) | _ => None end) t.

(* The thread is over: it returned or died of an exception. *)
Definition finished {A : Type} (p : prog A) : bool :=
  match p with
  | Ret _ | Raise _ => true
  | _ => false
  end.

(* --------------------------------------------------------------------- *)
(* Semantics: a process, its threads and its dict objects                *)
(* --------------------------------------------------------------------- *)

Inductive tid :=
| Main
| Worker (i : nat).

#[global] Instance tid_eq_dec : EqDecision tid.
Proof. solve_decision. Defined.

Record process (A : Type) : Type := Process {
  main : prog A;                 (* what the main thread still has to do *)
  threads : list (prog unit);    (* the daemon threads, in start order *)
  heap : gmap pyref dict;        (* the dict objects and what they hold *)
  exited : bool                  (* the interpreter has exited *)
}.

Arguments Process {A} main threads heap exited.
Arguments main {A} p.
Arguments threads {A} p.
Arguments heap {A} p.
Arguments exited {A} p.

(* The thread a step starts, if any. *)
Definition spawned {A : Type} (p : prog A) (ev : event) : list (prog unit) :=
  match p, ev with
  | ThreadStart target _, EvThreadStart => [target]
  | _, _ => []
  end.

(* What a step of a thread with program p needs of the dict objects, and
   what it leaves of them.  recv_json makes a new object; d[key] gives
   what d holds under key at this moment, and raises KeyError when d holds
   nothing under key; d[key] = v changes d for all its holders. *)
Definition heap_step {A : Type} (h : gmap pyref dict) (p : prog A) (ev : event)
  : option (gmap pyref dict) :=
  match ev with
  | EvRecv _ d reply =>
      if decide (h !! d = None) then Some (<[d := reply]> h) else None
  | EvGetItem d key v =>
      if decide (h !! d ≫= (.!! key) = Some v) then Some h else None
  | EvSetItem d key v =>
      content ← h !! d ; Some (<[d := <[key := v]> content]> h)
  | EvRaise _ =>
      match p with
      | GetItem d key _ =>
          content ← h !! d ;
          if decide (content !! key = None) then Some h else None
      | _ => Some h
      end
  | _ => Some h
  end.

(* The same along a whole trace of one thread, when no other thread
   steps in between. *)
Fixpoint heap_run {A : Type} (h : gmap pyref dict) (p : prog A) (t : list event)
  : option (gmap pyref dict) :=
  match t with
  | [] => Some h
  | ev :: t' =>
      h' ← heap_step h p ev ;
      p' ← step p ev ;
      heap_run h' p' t'
  end.

(* One step of one thread of the process.  The threads share the sockets
   and the dict objects they were given.  The interpreter exits once the
   main thread is over; daemon threads then stop where they are. *)
Definition pstep {A : Type} (P : process A) (who : tid) (ev : event)
  : option (process A) :=
  if exited P then None else
  match who with
  | Main =>
      if decide (ev = EvExit) then
        if finished (main P)
        then Some (Process (main P) (threads P) (heap P) true) else None
      else
        p' ← step (main P) ev ;
        h' ← heap_step (heap P) (main P) ev ;
        Some (Process p' (threads P ++ spawned (main P) ev) h' false)
  | Worker i =>
      q ← threads P !! i ;
      q' ← step q ev ;
      h' ← heap_step (heap P) q ev ;
      Some (Process (main P) (<[i := q']> (threads P) ++ spawned q ev) h' false)
  end.

(* A schedule: which thread does what, in order. *)
Fixpoint prun {A : Type} (P : process A) (sched : list (tid * event))
  : option (process A) :=
  match sched with
  | [] => Some P
  | (who, ev) :: sched' =>
      match pstep P who ev with
      | Some P' => prun P' sched'
      | None => None
      end
  end.

(* A fresh process about to run p in its main thread. *)
Definition start {A : Type} (p : prog A) : process A := Process p [] ∅ false.

(* The events of one thread in a schedule. *)
Definition events_of (who : tid) (sched : list (tid * event)) : list event :=
  omap (fun x => if decide (x.1 = who) then Some x.2 else None) sched.

(* The event writes to the dict object d. *)
Definition writes_to (d : pyref) (ev : event) : bool :=
  match ev with
  | EvSetItem d' _ _ => bool_decide (d' = d)
  | _ => false
  end.

(* --------------------------------------------------------------------- *)
(* Time                                                                  *)
(* --------------------------------------------------------------------- *)

(* The clock counts nanoseconds. *)
Definition ticks_per_second : Z := 1000000000.

(* An event with the clock when the call was entered and the time the
   call took. *)
Record timed := Timed {
  entered : Z;
  what : event;
  took : Z
}.

(* time.sleep(secs) suspends the thread for at least secs seconds; every
   other call may return at once. *)
Definition min_duration (ev : event) : Z :=
  match ev with
  | EvSleep secs => secs * ticks_per_second
  | _ => 0
  end.

(* The events of one thread follow each other on the clock: a call is
   entered when the one before it has returned, or later. *)
Fixpoint well_timed (now : Z) (tt : list timed) : Prop :=
  match tt with
  | [] => True
  | te :: rest =>
      now ≤ entered te ∧ 0 ≤ took te ∧ min_duration (what te) ≤ took te ∧
      well_timed (entered te + took te) rest
  end.

Definition is_send (ev : event) : bool :=
  match ev with
  | EvSend _ _ => true
  | _ => false
  end.

(* --------------------------------------------------------------------- *)
(* The messages of the protocol and the traces of the launcher           *)
(* --------------------------------------------------------------------- *)

Definition start_build_request (controller_address : string) : dict :=
  {[ "type" := JStr "start_build";
     "controller_address" := JStr controller_address ]}.

Definition keep_alive_request (build_port : json) : dict :=
  {[ "type" := JStr "keep_alive"; "build_port" := build_port ]}.

Definition kill_build_request (build_port : json) : dict :=
  {[ "type" := JStr "kill_build"; "build_port" := build_port ]}.

(* The address launch_build connects to. *)
Definition daemon_address (build_address : string) (listener_port : Z) : string :=
  "tcp://" +:+ build_address +:+ ":" +:+ pretty listener_port.

(* A launch that goes well: socket, connect, request, the reply as the
   new dict build_info, thread. *)
Definition launch_trace (s : zmq_socket) (listener_port : Z)
    (build_address controller_address : string)
    (build_info : pyref) (reply : dict) : list event :=
  [ EvSocket s;
    EvConnect s (daemon_address build_address listener_port);
    EvSend s (start_build_request controller_address);
    EvRecv s build_info reply;
    EvThreadStart ].

(* A stop that goes well: the port is read, the request goes out, the
   reply comes as the new dict kill_status. *)
Definition kill_trace (s : zmq_socket) (build_info : pyref) (build_port : json)
    (kill_status : pyref) (reply : dict) : list event :=
  [ EvGetItem build_info "build_port" build_port;
    EvSend s (kill_build_request build_port);
    EvRecv s kill_status reply ].

(* One round of the heartbeat loop that goes well: build_info is read and
   gives build_port, the request goes out, the reply comes as the new
   dict heartbeat, the thread sleeps. *)
Definition tick (s : zmq_socket) (build_info : pyref) (build_port : json)
    (heartbeat : pyref) (reply : dict) : list event :=
  [ EvLoop;
    EvGetItem build_info "build_port" build_port;
    EvSend s (keep_alive_request build_port);
    EvRecv s heartbeat reply;
    EvSleep 60 ].

(* Round after round; each round has the port it read and the heartbeat
   it received. *)
Definition ticks (s : zmq_socket) (build_info : pyref)
    (rounds : list (json * pyref * dict)) : list event :=
  rounds ≫= fun r => tick s build_info r.1.1 r.1.2 r.2.

(* --------------------------------------------------------------------- *)
(* The heartbeat loop as a machine with six states                       *)
(* --------------------------------------------------------------------- *)

Inductive phase :=
| AtLoop               (* at `while True:` *)
| AtRead               (* in _send_keep_alive, about to read build_port *)
| AtSend (port : json) (* build_port read, about to send_json *)
| AtRecv               (* request sent, in recv_json *)
| AtSleep              (* heartbeat received, in time.sleep(60) *)
| Dead (e : exn).      (* the thread died of e *)

(* The program left to run in each state. *)
Definition ka_state (s : zmq_socket) (build_info : pyref) (ph : phase) : prog unit :=
  let loop := TDWUtils._keep_alive_thread s build_info in
  match ph with
  | AtLoop => loop
  | AtRead =>
      GetItem build_info "build_port" (fun port =>
        SendJson s (keep_alive_request port)
          (RecvJson s (fun _ => Sleep 60 loop)))
  | AtSend port =>
      SendJson s (keep_alive_request port)
        (RecvJson s (fun _ => Sleep 60 loop))
  | AtRecv => RecvJson s (fun _ => Sleep 60 loop)
  | AtSleep => Sleep 60 loop
  | Dead e => Raise e
  end.

Definition ka_next (s : zmq_socket) (build_info : pyref) (ph : phase) (ev : event)
  : option phase :=
  match ph, ev with
  | AtLoop, EvLoop => Some AtRead
  | AtRead, EvGetItem d key port =>
      if decide (build_info = d ∧ "build_port" = key) then Some (AtSend port) else None
  | AtRead, EvRaise e =>
      if decide (e = KeyError "build_port") then Some (Dead e) else None
  | AtSend port, EvSend s' msg =>
      if decide (s = s' ∧ keep_alive_request port = msg) then Some AtRecv else None
  | AtSend _, EvRaise e => Some (Dead e)
  | AtRecv, EvRecv s' _ _ => if decide (s = s') then Some AtSleep else None
  | AtRecv, EvRaise e => Some (Dead e)
  | AtSleep, EvSleep secs => if decide (60 = secs) then Some AtLoop else None
  | _, _ => None
  end.

Fixpoint ka_run (s : zmq_socket) (build_info : pyref) (ph : phase) (t : list event)
  : option phase :=
  match t with
  | [] => Some ph
  | ev :: t' =>
      match ka_next s build_info ph ev with
      | Some ph' => ka_run s build_info ph' t'
      | None => None
      end
  end.

(* Where the loop stands after the first n events of a round that read
   port. *)
Definition phase_after (port : json) (n : nat) : phase :=
  match n with
  | 0%nat => AtLoop
  | 1%nat => AtRead
  | 2%nat => AtSend port
  | 3%nat => AtRecv
  | _ => AtSleep
  end.

(* Counted from the clock [now] in state ph, no keep_alive is sent before
   this time: a round that has sent its request still has its sleep ahead.
   (A dead loop sends nothing; any time will do for it.) *)
Definition next_send_after (ph : phase) (now : Z) : Z :=
  match ph with
  | AtLoop | AtRead | AtSend _ => now
  | AtRecv | AtSleep | Dead _ => now + 60 * ticks_per_second
  end.

(* --------------------------------------------------------------------- *)
(* Callers of the launcher                                               *)
(* --------------------------------------------------------------------- *)

(* A controller that launches a build and later stops it, over a socket
   of its own to the same daemon (launch_build keeps its socket to
   itself), and then goes on for two more minutes. *)
Definition launch_then_kill (listener_port : Z)
    (build_address controller_address : string) : prog unit :=
  build_info ← TDWUtils.launch_build listener_port build_address controller_address ;
  socket ← zmq_req_socket ;
  connect socket ("tcp://" +:+ build_address +:+ ":" +:+ pretty listener_port) ;;
  TDWUtils._send_kill_build socket build_info ;;
  time_sleep 120.

(* A controller that launches a build, later writes another port into the
   build_info it was given, and then goes on for two more minutes. *)
Definition launch_then_change_port (listener_port : Z)
    (build_address controller_address : string) (build_port : json) : prog unit :=
  build_info ← TDWUtils.launch_build listener_port build_address controller_address ;
  setitem build_info "build_port" build_port ;;
  time_sleep 120.

(* The messages a schedule puts on the wire, oldest first. *)
Definition wire (sched : list (tid * event)) : list (zmq_socket * dict) :=
  sent (sched.*2).

(* TDWUtils._send_kill_build(socket, build_info), two times in a row. *)
Definition kill_build_twice (socket : zmq_socket) (build_info : pyref) : prog pyref :=
  TDWUtils._send_kill_build socket build_info ;;
  TDWUtils._send_kill_build socket build_info.

(* Two rounds of the heartbeat loop of the session on port 5557, on the
   clock: the request takes a microsecond, the reply comes after 5 ms, the
   sleep overshoots by 200 ns. *)
Definition two_rounds_on_the_clock : list timed :=
  [ Timed 0 EvLoop 0;
    Timed 0 (EvGetItem 0%nat "build_port" (JInt 5557)) 0;
    Timed 0 (EvSend 0%nat (keep_alive_request (JInt 5557))) 1000;
    Timed 1000 (EvRecv 0%nat 1%nat ∅) 5000000;
    Timed 5001000 (EvSleep 60) (60 * ticks_per_second + 200);
    Timed 60005001200 EvLoop 0;
    Timed 60005001200 (EvGetItem 0%nat "build_port" (JInt 5557)) 0;
    Timed 60005001200 (EvSend 0%nat (keep_alive_request (JInt 5557))) 1000 ].

(* A run of launch_then_kill against the daemon at 127.0.0.1:5556, which
   answers start_build with {build_port: 5557}: the first heartbeat is
   exchanged, the controller stops the build over its own socket 1 while
   the heartbeat thread sleeps, the thread wakes up and starts its second
   round.  The dict objects are numbered as they come: 0 is build_info. *)
Definition stop_then_heartbeat : list (tid * event) :=
  ((Main,.) <$> launch_trace 0%nat 5556 "127.0.0.1" "10.0.0.2"
                  0%nat {[ "build_port" := JInt 5557 ]}) ++
  ((Worker 0,.) <$> take 4 (tick 0%nat 0%nat (JInt 5557) 1%nat ∅)) ++
  [ (Main, EvSocket 1%nat);
    (Main, EvConnect 1%nat "tcp://127.0.0.1:5556") ] ++
  ((Main,.) <$> kill_trace 1%nat 0%nat (JInt 5557) 2%nat ∅) ++
  [ (Worker 0, EvSleep 60) ] ++
  ((Worker 0,.) <$> take 3 (tick 0%nat 0%nat (JInt 5557) 3%nat ∅)).

(* A run of launch_then_change_port with the new port 9999 against the
   same daemon: the first heartbeat is exchanged, the controller writes
   9999 into build_info while the heartbeat thread sleeps, the thread
   wakes up and starts its second round. *)
Definition change_port_then_heartbeat : list (tid * event) :=
  ((Main,.) <$> launch_trace 0%nat 5556 "127.0.0.1" "10.0.0.2"
                  0%nat {[ "build_port" := JInt 5557 ]}) ++
  ((Worker 0,.) <$> take 4 (tick 0%nat 0%nat (JInt 5557) 1%nat ∅)) ++
  [ (Main, EvSetItem 0%nat "build_port" (JInt 9999));
    (Worker 0, EvSleep 60) ] ++
  ((Worker 0,.) <$> take 3 (tick 0%nat 0%nat (JInt 9999) 2%nat ∅)).

(* A controller that launches two builds, one after the other. *)
Definition launch_twice (listener_port : Z)
    (build_address controller_address : string) : prog (pyref * pyref) :=
  build_info_1 ← TDWUtils.launch_build listener_port build_address controller_address ;
  build_info_2 ← TDWUtils.launch_build listener_port build_address controller_address ;
  mret (build_info_1, build_info_2).

(* A run of AudioUtils.start(Path("out/a.wav"), until=(0, 10)) on a
   machine whose listing has a Stereo Mix device, with no capture device
   looked up before: the directory is there, the device is found, fmedia
   starts as process 4242. *)
Definition start_until_ten_seconds : list os_event :=
  [ OsParentExists "out/a.wav" (Ok true);
    OsCheckOutput ["fmedia"; "--list-dev"]
      (Ok "Playback: device #1: Speakers Capture: device #2: Stereo Mix (Realtek)");
    OsPathResolve "out/a.wav" (Ok "/home/tdw/out/a.wav");
    OsPopen ["fmedia"; "--record"; "--dev-capture=2"; "--out=/home/tdw/out/a.wav";
             "--globcmd=listen"; "--until=00:10"] (Ok 4242) ].

(* The same, then AudioUtils.stop() and AudioUtils.start(Path("out/b.wav")). *)
Definition start_stop_start_run : list os_event :=
  start_until_ten_seconds ++
  [ OsCall ["fmedia"; "--globcmd=quit"] (Ok 0) ] ++
  [ OsParentExists "out/b.wav" (Ok true);
    OsPathResolve "out/b.wav" (Ok "/home/tdw/out/b.wav");
    OsPopen ["fmedia"; "--record"; "--dev-capture=2"; "--out=/home/tdw/out/b.wav";
             "--globcmd=listen"] (Ok 4243) ].

(* ===================================================================== *)
(* Theorems                                                              *)
(* ===================================================================== *)

Import TDWUtils.

Section Traces.

Context {A : Type}.

Lemma run_app (p : prog A) (t1 t2 : list event) :
  run p (t1 ++ t2) = run p t1 ≫= fun q => run q t2.
Proof.
  revert p. induction t1 as [|ev t1 IH]; intros p; simpl; [done|].
  destruct (step p ev); simpl; [apply IH | done].
Qed.

Lemma step_finished (p : prog A) (ev : event) :
  finished p = true → step p ev = None.
Proof. destruct p; simpl; try discriminate; intros _; by destruct ev. Qed.

Lemma run_finished (p q : prog A) (t : list event) :
  finished p = true → run p t = Some q → t = [] ∧ q = p.
Proof.
  intros Hp. destruct t as [|ev t]; simpl.
  - intros [= <-]. done.
  - by rewrite step_finished.
Qed.

End Traces.

(* The loop and the six-state machine take the same steps. *)
Lemma ka_step_sim (s : zmq_socket) (build_info : pyref) (ph : phase) (ev : event) :
  step (ka_state s build_info ph) ev = ka_state s build_info <$> ka_next s build_info ph ev.
Proof.
  unfold ka_state, ka_next, _keep_alive_thread, _send_keep_alive, getitem.
  destruct ph, ev; simpl; try reflexivity;
    repeat case_decide; try reflexivity; naive_solver.
Qed.

Lemma ka_run_sim (s : zmq_socket) (build_info : pyref) (t : list event) (ph : phase) :
  run (ka_state s build_info ph) t = ka_state s build_info <$> ka_run s build_info ph t.
Proof.
  revert ph. induction t as [|ev t IH]; intros ph; simpl; [done|].
  rewrite ka_step_sim. destruct (ka_next s build_info ph ev); simpl; [apply IH | done].
Qed.

Section Steps.

Context {A : Type}.

Lemma step_socket (s : zmq_socket) (k : zmq_socket → prog A) :
  step (ZmqSocket k) (EvSocket s) = Some (k s).
Proof. reflexivity. Qed.

Lemma step_thread_start (target : prog unit) (k : prog A) :
  step (ThreadStart target k) EvThreadStart = Some k.
Proof. reflexivity. Qed.

Lemma step_loop (body : prog unit) :
  step (WhileTrue body : prog A) EvLoop = Some (bind body (fun _ => WhileTrue body)).
Proof. reflexivity. Qed.

Lemma step_connect (s : zmq_socket) (addr : string) (k : prog A) :
  step (Connect s addr k) (EvConnect s addr) = Some k.
Proof. simpl. by rewrite decide_True. Qed.

Lemma step_send (s : zmq_socket) (msg : dict) (k : prog A) :
  step (SendJson s msg k) (EvSend s msg) = Some k.
Proof. simpl. by rewrite decide_True. Qed.

Lemma step_recv (s : zmq_socket) (d : pyref) (reply : dict) (k : pyref → prog A) :
  step (RecvJson s k) (EvRecv s d reply) = Some (k d).
Proof. simpl. by rewrite decide_True. Qed.

Lemma step_getitem (d : pyref) (key : string) (v : json) (k : json → prog A) :
  step (GetItem d key k) (EvGetItem d key v) = Some (k v).
Proof. simpl. by rewrite decide_True. Qed.

Lemma step_setitem (d : pyref) (key : string) (v : json) (k : prog A) :
  step (SetItem d key v k) (EvSetItem d key v) = Some k.
Proof. simpl. by rewrite decide_True. Qed.

Lemma step_sleep (secs : Z) (k : prog A) :
  step (Sleep secs k) (EvSleep secs) = Some k.
Proof. simpl. by rewrite decide_True. Qed.

End Steps.

(* Runs a program along a given trace. *)
Ltac run_ok :=
  repeat (cbn [run];
          rewrite ?step_socket, ?step_connect, ?step_send, ?step_recv, ?step_sleep,
                  ?step_getitem, ?step_setitem, ?step_thread_start, ?step_loop);
  try reflexivity.

(* Splits a run on its first event: either the trace is empty, or the
   program at hand can do the event. *)
Ltac run_head H :=
  match type of H with
  | run _ ?t = Some _ =>
      let ev := fresh "ev" in
      destruct t as [|ev t]; simpl in H;
      [ apply (inj Some) in H
      | destruct ev; simpl in H; try discriminate H;
        repeat (case_decide; [|discriminate H]); destruct_and? ]
  end.

(* The functions as trees of calls. *)

Lemma launch_build_unfold (listener_port : Z) (build_address controller_address : string) :
  launch_build listener_port build_address controller_address =
  ZmqSocket (fun s =>
    Connect s (daemon_address build_address listener_port)
      (SendJson s (start_build_request controller_address)
         (RecvJson s (fun build_info =>
            ThreadStart (_keep_alive_thread s build_info) (Ret build_info))))).
Proof. reflexivity. Qed.

Lemma send_kill_build_unfold (s : zmq_socket) (build_info : pyref) :
  _send_kill_build s build_info =
  GetItem build_info "build_port" (fun port =>
    SendJson s (kill_build_request port) (RecvJson s Ret)).
Proof. reflexivity. Qed.

Lemma kill_build_twice_unfold (s : zmq_socket) (build_info : pyref) :
  kill_build_twice s build_info =
  GetItem build_info "build_port" (fun port =>
    SendJson s (kill_build_request port)
      (RecvJson s (fun _ =>
         GetItem build_info "build_port" (fun port' =>
           SendJson s (kill_build_request port') (RecvJson s Ret))))).
Proof. reflexivity. Qed.

(* --------------------------------------------------------------------- *)
(* Threads of a process                                                  *)
(* --------------------------------------------------------------------- *)

Section Threads.

Context {A : Type}.
Implicit Types (P : process A) (sched : list (tid * event)).

Lemma events_of_cons_same (who : tid) (ev : event) sched :
  events_of who ((who, ev) :: sched) = ev :: events_of who sched.
Proof. unfold events_of. simpl. by rewrite decide_True. Qed.

Lemma events_of_cons_other (who who' : tid) (ev : event) sched :
  who' ≠ who → events_of who ((who', ev) :: sched) = events_of who sched.
Proof. intros. unfold events_of. simpl. by rewrite decide_False. Qed.

Lemma events_of_alone (who : tid) (t : list event) :
  events_of who ((who,.) <$> t) = t.
Proof.
  induction t as [|ev t IH]; [done|].
  cbn [fmap list_fmap]. rewrite events_of_cons_same. by f_equal.
Qed.

Lemma events_of_elem (who : tid) (ev : event) sched :
  ev ∈ events_of who sched ↔ (who, ev) ∈ sched.
Proof.
  unfold events_of. rewrite list_elem_of_omap. split.
  - intros ([who' ev'] & Hin & Hx). simpl in Hx.
    case_decide; [|discriminate]. by simplify_eq.
  - intros Hin. exists (who, ev). split; [done|]. simpl. by rewrite decide_True.
Qed.

Lemma wire_alone (who : tid) (t : list event) :
  wire ((who,.) <$> t) = sent t.
Proof.
  unfold wire. f_equal. induction t as [|ev t IH]; [done|].
  cbn [fmap list_fmap]. by f_equal.
Qed.

(* An exception leaves the thread dead. *)
Lemma step_raise {B : Type} (p q : prog B) (e : exn) :
  step p (EvRaise e) = Some q → q = Raise e.
Proof. destruct p; simpl; try congruence. case_decide; congruence. Qed.

Lemma run_raise_last {B : Type} (p q : prog B) (t : list event) (e : exn) :
  run p (t ++ [EvRaise e]) = Some q → q = Raise e.
Proof.
  rewrite run_app. destruct (run p t) as [p'|]; simpl; [|discriminate].
  destruct (step p' (EvRaise e)) as [q'|] eqn:Hs; [|discriminate].
  intros [= <-]. by eapply step_raise.
Qed.

(* After the interpreter has exited nothing happens. *)
Lemma prun_exited P P' sched :
  exited P = true → prun P sched = Some P' → sched = [].
Proof.
  intros Hex. destruct sched as [|[who ev] sched]; [done|].
  simpl. unfold pstep. by rewrite Hex.
Qed.

Lemma prun_app P sched1 sched2 :
  prun P (sched1 ++ sched2) = prun P sched1 ≫= fun P1 => prun P1 sched2.
Proof.
  revert P. induction sched1 as [|[who ev] sched1 IH]; intros P; simpl; [done|].
  destruct (pstep P who ev); simpl; [apply IH | done].
Qed.

(* One step of the process, taken apart. *)
Lemma pstep_main P P' (ev : event) :
  pstep P Main ev = Some P' → ev ≠ EvExit →
  ∃ p' h',
    step (main P) ev = Some p' ∧ heap_step (heap P) (main P) ev = Some h' ∧
    P' = Process p' (threads P ++ spawned (main P) ev) h' false.
Proof.
  unfold pstep. destruct (exited P); [discriminate|]. intros H Hev.
  rewrite decide_False in H by done.
  destruct (step (main P) ev) as [p'|] eqn:Hs; [|discriminate].
  cbn [mbind option_bind] in H.
  destruct (heap_step (heap P) (main P) ev) as [h'|] eqn:Hh; [|discriminate].
  injection H as <-. by exists p', h'.
Qed.

Lemma pstep_exit P P' :
  pstep P Main EvExit = Some P' →
  finished (main P) = true ∧ P' = Process (main P) (threads P) (heap P) true.
Proof.
  unfold pstep. destruct (exited P); [discriminate|].
  rewrite decide_True by done.
  destruct (finished (main P)); [|discriminate]. by intros [= <-].
Qed.

Lemma pstep_worker P P' (i : nat) (ev : event) :
  pstep P (Worker i) ev = Some P' →
  ∃ q q' h',
    threads P !! i = Some q ∧ step q ev = Some q' ∧
    heap_step (heap P) q ev = Some h' ∧
    P' = Process (main P) (<[i := q']> (threads P) ++ spawned q ev) h' false.
Proof.
  unfold pstep. destruct (exited P); [discriminate|]. intros H.
  destruct (threads P !! i) as [q|] eqn:Hq; [|discriminate].
  cbn [mbind option_bind] in H.
  destruct (step q ev) as [q'|] eqn:Hs; [|discriminate].
  cbn [mbind option_bind] in H.
  destruct (heap_step (heap P) q ev) as [h'|] eqn:Hh; [|discriminate].
  injection H as <-. by exists q, q', h'.
Qed.

(* What a daemon thread has become is a matter of its own events only:
   what it read is part of its events. *)
Lemma prun_worker sched P P' (i : nat) (q : prog unit) :
  prun P sched = Some P' →
  threads P !! i = Some q →
  ∃ q', threads P' !! i = Some q' ∧ run q (events_of (Worker i) sched) = Some q'.
Proof.
  revert P q. induction sched as [|[who ev] sched IH]; intros P q Hrun Hq.
  - injection Hrun as <-. by exists q.
  - cbn [prun] in Hrun.
    destruct (pstep P who ev) as [P1|] eqn:Hstep; [|discriminate].
    destruct who as [|k].
    + rewrite events_of_cons_other by discriminate.
      apply (IH P1); [done|].
      destruct (decide (ev = EvExit)) as [->|Hev].
      * apply pstep_exit in Hstep as [_ ->]. done.
      * apply pstep_main in Hstep as (p' & h' & _ & _ & ->); [|done].
        by apply lookup_app_l_Some.
    + apply pstep_worker in Hstep as (qk & qk' & h' & Hk & Hsk & _ & ->).
      destruct (decide (k = i)) as [->|Hne].
      * rewrite events_of_cons_same. cbn [run].
        rewrite Hq in Hk. injection Hk as <-. rewrite Hsk.
        eapply (IH _ qk'); [exact Hrun|]. cbn [threads].
        apply lookup_app_l_Some, list_lookup_insert_eq.
        by eapply lookup_lt_Some.
      * rewrite events_of_cons_other by congruence.
        eapply (IH _ q); [exact Hrun|]. cbn [threads].
        apply lookup_app_l_Some. by rewrite list_lookup_insert_ne.
Qed.

(* Likewise for the main thread. *)
Lemma prun_main sched P P' :
  prun P sched = Some P' →
  run (main P) (filter (fun ev => ev ≠ EvExit) (events_of Main sched)) = Some (main P').
Proof.
  revert P. induction sched as [|[who ev] sched IH]; intros P Hrun.
  - by injection Hrun as <-.
  - cbn [prun] in Hrun.
    destruct (pstep P who ev) as [P1|] eqn:Hstep; [|discriminate].
    destruct who as [|k].
    + rewrite events_of_cons_same.
      destruct (decide (ev = EvExit)) as [->|Hev].
      * apply pstep_exit in Hstep as [_ ->].
        rewrite filter_cons_False by naive_solver. exact (IH _ Hrun).
      * apply pstep_main in Hstep as (p' & h' & Hs & _ & ->); [|done].
        rewrite filter_cons_True by done. cbn [run]. rewrite Hs.
        exact (IH _ Hrun).
    + rewrite events_of_cons_other by discriminate.
      apply pstep_worker in Hstep as (qk & qk' & h' & _ & _ & _ & ->).
      exact (IH _ Hrun).
Qed.

(* A step that does not write to the object d leaves it as it is. *)
Lemma heap_step_kept {B : Type} (h h' : gmap pyref dict) (p : prog B) (ev : event)
    (d : pyref) (content : dict) :
  heap_step h p ev = Some h' →
  h !! d = Some content →
  writes_to d ev = false →
  h' !! d = Some content.
Proof.
  intros Hstep Hd Hw. destruct ev; cbn [heap_step] in Hstep; try by simplify_eq.
  - case_decide as Hnew; [|discriminate]. injection Hstep as <-.
    rewrite lookup_insert_ne; [done|]. intros ->. congruence.
  - case_decide; [|discriminate]. by simplify_eq.
  - cbn [writes_to] in Hw. apply bool_decide_eq_false in Hw.
    destruct (h !! d0) as [c|]; [|discriminate]. injection Hstep as <-.
    by rewrite lookup_insert_ne.
  - destruct p; try by simplify_eq.
    destruct (h !! d0) as [c|]; [|discriminate]. cbn [mbind option_bind] in Hstep.
    case_decide; [|discriminate]. by simplify_eq.
Qed.

(* What a read gives is what the object holds. *)
Lemma heap_step_read {B : Type} (h h' : gmap pyref dict) (p : prog B)
    (d : pyref) (key : string) (v : json) :
  heap_step h p (EvGetItem d key v) = Some h' → h !! d ≫= (.!! key) = Some v.
Proof. cbn [heap_step]. by case_decide. Qed.

(* An object that no step of a schedule writes to holds at the end what
   it held at the start, and every read of it in between gave that. *)
Lemma prun_heap_kept sched P P' (d : pyref) (content : dict) :
  prun P sched = Some P' →
  heap P !! d = Some content →
  Forall (fun x => writes_to d x.2 = false) sched →
  heap P' !! d = Some content ∧
  ∀ who key v, (who, EvGetItem d key v) ∈ sched → content !! key = Some v.
Proof.
  revert P. induction sched as [|[who ev] sched IH]; intros P Hrun Hd Hw.
  - injection Hrun as <-. split; [done|]. intros who key v Hin.
    by apply elem_of_nil in Hin.
  - cbn [prun] in Hrun.
    destruct (pstep P who ev) as [P1|] eqn:Hstep; [|discriminate].
    apply Forall_cons in Hw as [Hw1 Hw]. cbn [snd] in Hw1.
    assert (heap P1 !! d = Some content ∧
            ∀ key v, ev = EvGetItem d key v → content !! key = Some v) as [Hd1 Hread].
    { destruct who as [|k].
      - destruct (decide (ev = EvExit)) as [->|Hev].
        + apply pstep_exit in Hstep as [_ ->]. done.
        + apply pstep_main in Hstep as (p' & h' & _ & Hh & ->); [|done].
          split; [by eapply heap_step_kept|].
          intros key v ->. apply heap_step_read in Hh. rewrite Hd in Hh. exact Hh.
      - apply pstep_worker in Hstep as (qk & qk' & h' & _ & _ & Hh & ->).
        split; [by eapply heap_step_kept|].
        intros key v ->. apply heap_step_read in Hh. rewrite Hd in Hh. exact Hh. }
    destruct (IH _ Hrun Hd1 Hw) as [Hend Hreads]. split; [done|].
    intros who' key v Hin. apply elem_of_cons in Hin as [[= -> <-]|Hin].
    + by apply Hread.
    + by eapply Hreads.
Qed.

End Threads.
(* --------------------------------------------------------------------- *)
(* platforms.py                                                          *)
(* --------------------------------------------------------------------- *)

Lemma lookup3 (a b c x y z k : string) :
  ({[ a := x; b := y; c := z ]} : gmap string string) !! k =
  if decide (a = k) then Some x
  else if decide (b = k) then Some y
  else if decide (c = k) then Some z
  else None.
Proof. rewrite !lookup_insert. rewrite lookup_singleton. reflexivity. Qed.

(** C10: the platform tables agree with each other.  On each of "Windows",
    "Darwin" and "Linux", SYSTEM_TO_UNITY has a value and it is the one
    reached through SYSTEM_TO_S3 and then S3_TO_UNITY (on any other key
    both sides are missing).  UNITY_TO_SYSTEM is the exact inverse of
    SYSTEM_TO_UNITY: k maps to v in one exactly when v maps to k in the
    other, so going through both tables gives back each of the three
    system names and each of the three Unity build targets. *)
Theorem platform_tables_coherent :
  Forall (fun k =>
            is_Some (Platforms.SYSTEM_TO_UNITY !! k) ∧
            Platforms.SYSTEM_TO_UNITY !! k =
            Platforms.SYSTEM_TO_S3 !! k ≫= (Platforms.S3_TO_UNITY !!.))
         Platforms.systems ∧
  (∀ k : string,
     Platforms.SYSTEM_TO_UNITY !! k =
     Platforms.SYSTEM_TO_S3 !! k ≫= (Platforms.S3_TO_UNITY !!.)) ∧
  (∀ k v : string,
     Platforms.SYSTEM_TO_UNITY !! k = Some v ↔ Platforms.UNITY_TO_SYSTEM !! v = Some k) ∧
  Forall (fun k =>
            Platforms.SYSTEM_TO_UNITY !! k ≫= (Platforms.UNITY_TO_SYSTEM !!.) = Some k)
         Platforms.systems ∧
  Forall (fun v =>
            Platforms.UNITY_TO_SYSTEM !! v ≫= (Platforms.SYSTEM_TO_UNITY !!.) = Some v)
         Platforms.unity_targets.
Proof.
  split; [|split; [|split; [|split]]].
  - repeat constructor; by eexists.
  - intros k. unfold Platforms.SYSTEM_TO_UNITY, Platforms.SYSTEM_TO_S3.
    rewrite !lookup3. repeat case_decide; reflexivity.
  - intros k v. unfold Platforms.SYSTEM_TO_UNITY, Platforms.UNITY_TO_SYSTEM.
    rewrite !lookup3.
    split; intros H; repeat case_decide; simplify_eq; try reflexivity; done.
  - repeat constructor.
  - repeat constructor.
Qed.

(* --------------------------------------------------------------------- *)
(* Steps of a process                                                    *)
(* --------------------------------------------------------------------- *)

Section ProcessSteps.

Context {A : Type}.
Implicit Types (P : process A) (h : gmap pyref dict).

Lemma pstep_main_ok P (ev : event) (p' : prog A) h' :
  exited P = false → ev ≠ EvExit →
  step (main P) ev = Some p' →
  heap_step (heap P) (main P) ev = Some h' →
  pstep P Main ev = Some (Process p' (threads P ++ spawned (main P) ev) h' false).
Proof.
  intros Hex Hev Hs Hh. unfold pstep. rewrite Hex, decide_False by done.
  by rewrite Hs, Hh.
Qed.

Lemma pstep_worker_ok P (i : nat) (ev : event) (q q' : prog unit) h' :
  exited P = false →
  threads P !! i = Some q →
  step q ev = Some q' →
  heap_step (heap P) q ev = Some h' →
  pstep P (Worker i) ev
  = Some (Process (main P) (<[i := q']> (threads P) ++ spawned q ev) h' false).
Proof.
  intros Hex Hq Hs Hh. unfold pstep. rewrite Hex, Hq. cbn [mbind option_bind].
  by rewrite Hs, Hh.
Qed.

End ProcessSteps.

Section HeapSteps.

Context {A : Type}.
Implicit Types (h : gmap pyref dict) (p : prog A).

Lemma heap_step_getitem h p (d : pyref) (key : string) (v : json) (content : dict) :
  h !! d = Some content → content !! key = Some v →
  heap_step h p (EvGetItem d key v) = Some h.
Proof. intros Hd Hv. cbn [heap_step]. rewrite decide_True; [done|]. by rewrite Hd. Qed.

Lemma heap_step_recv h p (s : zmq_socket) (d : pyref) (reply : dict) :
  h !! d = None → heap_step h p (EvRecv s d reply) = Some (<[d := reply]> h).
Proof. intros Hd. cbn [heap_step]. by rewrite decide_True. Qed.

Lemma heap_step_setitem h p (d : pyref) (key : string) (v : json) (content : dict) :
  h !! d = Some content →
  heap_step h p (EvSetItem d key v) = Some (<[d := <[key := v]> content]> h).
Proof. intros Hd. cbn [heap_step]. by rewrite Hd. Qed.

Lemma heap_step_key_error h (d : pyref) (key : string) (k : json → prog A)
    (e : exn) (content : dict) :
  h !! d = Some content → content !! key = None →
  heap_step h (GetItem d key k) (EvRaise e) = Some h.
Proof.
  intros Hd Hv. cbn [heap_step]. rewrite Hd. cbn [mbind option_bind].
  by rewrite decide_True.
Qed.

End HeapSteps.

(* One step of the main thread, or of a daemon thread, along a given
   schedule; the side conditions on the dict objects are left to tac. *)
Ltac thread_step :=
  first [ apply step_socket | apply step_connect | apply step_send | apply step_recv
        | apply step_getitem | apply step_setitem | apply step_sleep
        | apply step_thread_start | apply step_loop | reflexivity ].

Ltac heap_ok tac :=
  cbn [heap main threads exited];
  first [ reflexivity
        | eapply heap_step_getitem; tac
        | eapply heap_step_recv; tac
        | eapply heap_step_setitem; tac
        | eapply heap_step_key_error; tac ].

Ltac main_step tac :=
  cbn [prun fmap list_fmap];
  erewrite pstep_main_ok; [|reflexivity|discriminate|thread_step|heap_ok tac];
  cbn [main threads heap exited spawned app]; rewrite ?app_nil_r.

Ltac worker_step tac :=
  cbn [prun fmap list_fmap];
  erewrite pstep_worker_ok; [|reflexivity|reflexivity|thread_step|heap_ok tac];
  cbn [main threads heap exited spawned app list_insert insert]; rewrite ?app_nil_r.

(* --------------------------------------------------------------------- *)
(* _send_kill_build                                                      *)
(* --------------------------------------------------------------------- *)

(* The only way for _send_kill_build to return. *)
Lemma send_kill_build_returns (s : zmq_socket) (build_info : pyref)
    (t : list event) (kill_status : pyref) :
  run (_send_kill_build s build_info) t = Some (Ret kill_status) →
  ∃ (port : json) (ack : dict), t = kill_trace s build_info port kill_status ack.
Proof.
  rewrite send_kill_build_unfold. intros H.
  run_head H; [discriminate H| |run_head H; discriminate H].
  run_head H; [discriminate H| |run_head H; discriminate H].
  run_head H; [discriminate H| |run_head H; discriminate H].
  run_head H; [|discriminate H..].
  simplify_eq. by eexists _, _.
Qed.

(** C8: stop (_send_kill_build) reads build_port from the descriptor,
    sends exactly {type: "kill_build", build_port: the port it read} on
    the socket, then waits in recv_json, and returns the one reply it
    receives.  On a descriptor that holds a build_port: with any
    acknowledgment the call sends the request with that port and returns
    the acknowledgment; after the send the call is blocked in recv_json;
    and in every schedule in which no thread writes to the descriptor and
    the call returns, what the calling thread did is the read of that
    port, the send of the request with it and the receipt of the value
    returned.  Whatever the descriptor holds, every run in which the call
    returns is one read, one send of the port read and one receipt. *)
Theorem kill_build_exchange (s : zmq_socket) (build_info : pyref)
    (content : dict) (port : json)
    (others : list (prog unit)) (h : gmap pyref dict) :
  h !! build_info = Some content →
  content !! "build_port" = Some port →
  (∀ (kill_status : pyref) (ack : dict),
     h !! kill_status = None →
     prun (Process (_send_kill_build s build_info) others h false)
       ((Main,.) <$> kill_trace s build_info port kill_status ack)
     = Some (Process (Ret kill_status) others (<[kill_status := ack]> h) false)) ∧
  prun (Process (_send_kill_build s build_info) others h false)
    [(Main, EvGetItem build_info "build_port" port);
     (Main, EvSend s (kill_build_request port))]
  = Some (Process (recv_json s) others h false) ∧
  (∀ (sched : list (tid * event)) (P : process pyref) (kill_status : pyref),
     prun (Process (_send_kill_build s build_info) others h false) sched = Some P →
     Forall (fun x => writes_to build_info x.2 = false) sched →
     main P = Ret kill_status →
     ∃ ack : dict,
       filter (fun ev => ev ≠ EvExit) (events_of Main sched)
       = kill_trace s build_info port kill_status ack) ∧
  (∀ (t : list event) (kill_status : pyref),
     run (_send_kill_build s build_info) t = Some (Ret kill_status) →
     ∃ (port' : json) (ack : dict), t = kill_trace s build_info port' kill_status ack).
Proof.
  intros Hh Hport. split; [|split; [|split]].
  - intros kill_status ack Hnew. rewrite send_kill_build_unfold. unfold kill_trace.
    main_step ltac:(eassumption). main_step idtac. main_step ltac:(eassumption).
    reflexivity.
  - rewrite send_kill_build_unfold.
    main_step ltac:(eassumption). main_step idtac. reflexivity.
  - intros sched P kill_status Hrun Hw Hret.
    pose proof (prun_main _ _ _ Hrun) as Hmain. cbn [main] in Hmain.
    rewrite Hret in Hmain.
    apply send_kill_build_returns in Hmain as (port' & ack & Ht).
    destruct (prun_heap_kept _ _ _ _ _ Hrun Hh Hw) as [_ Hreads].
    assert (content !! "build_port" = Some port') as Hport'.
    { apply (Hreads Main). apply events_of_elem.
      assert (EvGetItem build_info "build_port" port'
              ∈ filter (fun ev => ev ≠ EvExit) (events_of Main sched)) as Hin
        by (rewrite Ht; apply list_elem_of_here).
      by apply list_elem_of_filter in Hin as [_ Hin]. }
    exists ack. rewrite Ht. congruence.
  - apply send_kill_build_returns.
Qed.

Lemma kill_build_exchange_witness :
  prun (Process (_send_kill_build 1%nat 0%nat) []
          {[ 0%nat := {[ "build_port" := JInt 5557 ]} ]} false)
    ((Main,.) <$> kill_trace 1%nat 0%nat (JInt 5557) 1%nat ∅)
  = Some (Process (Ret 1%nat) []
            (<[1%nat := ∅]> {[ 0%nat := {[ "build_port" := JInt 5557 ]} ]}) false).
Proof.
  apply (kill_build_exchange 1%nat 0%nat {[ "build_port" := JInt 5557 ]} (JInt 5557)
           [] {[ 0%nat := {[ "build_port" := JInt 5557 ]} ]});
    reflexivity.
Defined.

(* The only way for two stops in a row to return. *)
Lemma kill_build_twice_returns (s : zmq_socket) (build_info : pyref)
    (t : list event) (status2 : pyref) :
  run (kill_build_twice s build_info) t = Some (Ret status2) →
  ∃ (port1 port2 : json) (status1 : pyref) (ack1 ack2 : dict),
    t = kill_trace s build_info port1 status1 ack1 ++
        kill_trace s build_info port2 status2 ack2.
Proof.
  rewrite kill_build_twice_unfold. intros H.
  do 6 (run_head H; [discriminate H| |run_head H; discriminate H]).
  run_head H; [|discriminate H..].
  simplify_eq. by eexists _, _, _, _, _.
Qed.

(** C4, as the code has it: stop is not idempotent.  Each call of
    _send_kill_build reads the descriptor's build_port, sends one
    kill_build request with it and returns the daemon's reply to it, so
    two calls in a row on the same descriptor send two kill_build
    requests and the second returns the reply to the second request: on a
    descriptor that holds a build_port the two calls go through with any
    two acknowledgments, and in every schedule in which no thread writes
    to the descriptor and both calls return, the calling thread has read
    that port, sent the request and received a reply, two times over. *)
Theorem kill_build_twice_sends_twice (s : zmq_socket) (build_info : pyref)
    (content : dict) (port : json)
    (others : list (prog unit)) (h : gmap pyref dict) :
  h !! build_info = Some content →
  content !! "build_port" = Some port →
  (∀ (status1 status2 : pyref) (ack1 ack2 : dict),
     h !! status1 = None → h !! status2 = None → status1 ≠ status2 →
     prun (Process (kill_build_twice s build_info) others h false)
       ((Main,.) <$> (kill_trace s build_info port status1 ack1 ++
                      kill_trace s build_info port status2 ack2))
     = Some (Process (Ret status2) others
               (<[status2 := ack2]> (<[status1 := ack1]> h)) false)) ∧
  (∀ (sched : list (tid * event)) (P : process pyref) (status2 : pyref),
     prun (Process (kill_build_twice s build_info) others h false) sched = Some P →
     Forall (fun x => writes_to build_info x.2 = false) sched →
     main P = Ret status2 →
     ∃ (status1 : pyref) (ack1 ack2 : dict),
       filter (fun ev => ev ≠ EvExit) (events_of Main sched)
       = kill_trace s build_info port status1 ack1 ++
         kill_trace s build_info port status2 ack2) ∧
  (∀ (t : list event) (status2 : pyref),
     run (kill_build_twice s build_info) t = Some (Ret status2) →
     ∃ (port1 port2 : json) (status1 : pyref) (ack1 ack2 : dict),
       t = kill_trace s build_info port1 status1 ack1 ++
           kill_trace s build_info port2 status2 ack2 ∧
       sent t = [(s, kill_build_request port1); (s, kill_build_request port2)]).
Proof.
  intros Hh Hport. split; [|split].
  - intros status1 status2 ack1 ack2 Hnew1 Hnew2 Hne.
    rewrite kill_build_twice_unfold. unfold kill_trace. cbn [app].
    main_step ltac:(eassumption). main_step idtac. main_step ltac:(eassumption).
    main_step ltac:(first [eassumption
                          |rewrite lookup_insert_ne by congruence; eassumption]).
    main_step idtac.
    main_step ltac:(rewrite lookup_insert_ne by congruence; eassumption).
    reflexivity.
  - intros sched P status2 Hrun Hw Hret.
    pose proof (prun_main _ _ _ Hrun) as Hmain. cbn [main] in Hmain.
    rewrite Hret in Hmain.
    apply kill_build_twice_returns in Hmain as (port1 & port2 & status1 & ack1 & ack2 & Ht).
    destruct (prun_heap_kept _ _ _ _ _ Hrun Hh Hw) as [_ Hreads].
    assert (∀ p, EvGetItem build_info "build_port" p
                 ∈ filter (fun ev => ev ≠ EvExit) (events_of Main sched) →
                 p = port) as Hread.
    { intros p Hin. apply list_elem_of_filter in Hin as [_ Hin].
      apply events_of_elem in Hin. apply Hreads in Hin. congruence. }
    rewrite Ht in Hread.
    assert (port1 = port) as -> by (apply Hread; unfold kill_trace; set_solver).
    assert (port2 = port) as -> by (apply Hread; unfold kill_trace; set_solver).
    by exists status1, ack1, ack2.
  - intros t status2 Hrun.
    apply kill_build_twice_returns in Hrun as (port1 & port2 & status1 & ack1 & ack2 & ->).
    by exists port1, port2, status1, ack1, ack2.
Qed.

Lemma kill_build_twice_sends_twice_witness :
  prun (Process (kill_build_twice 1%nat 0%nat) []
          {[ 0%nat := {[ "build_port" := JInt 5557 ]} ]} false)
    ((Main,.) <$> (kill_trace 1%nat 0%nat (JInt 5557) 1%nat ∅ ++
                   kill_trace 1%nat 0%nat (JInt 5557) 2%nat ∅))
  = Some (Process (Ret 2%nat) []
            (<[2%nat := ∅]> (<[1%nat := ∅]>
               {[ 0%nat := {[ "build_port" := JInt 5557 ]} ]})) false).
Proof.
  apply (kill_build_twice_sends_twice 1%nat 0%nat {[ "build_port" := JInt 5557 ]}
           (JInt 5557) [] {[ 0%nat := {[ "build_port" := JInt 5557 ]} ]});
    (reflexivity || discriminate).
Defined.

(* C4 as stated fails: on the descriptor {build_port: 5557} the second
   stop returns normally and a second kill_build has gone out. *)
Lemma kill_build_twice_not_idempotent :
  prun (Process (kill_build_twice 1%nat 0%nat) []
          {[ 0%nat := {[ "build_port" := JInt 5557 ]} ]} false)
    ((Main,.) <$> (kill_trace 1%nat 0%nat (JInt 5557) 1%nat ∅ ++
                   kill_trace 1%nat 0%nat (JInt 5557) 2%nat ∅))
  = Some (Process (Ret 2%nat) []
            (<[2%nat := ∅]> (<[1%nat := ∅]>
               {[ 0%nat := {[ "build_port" := JInt 5557 ]} ]})) false) ∧
  wire ((Main,.) <$> (kill_trace 1%nat 0%nat (JInt 5557) 1%nat ∅ ++
                      kill_trace 1%nat 0%nat (JInt 5557) 2%nat ∅))
  = [(1%nat, kill_build_request (JInt 5557)); (1%nat, kill_build_request (JInt 5557))].
Proof. split; [|reflexivity]. by vm_compute. Qed.

(* --------------------------------------------------------------------- *)
(* _keep_alive_thread: the shape of its traces                           *)
(* --------------------------------------------------------------------- *)

Section HeartbeatLoop.

Variables (s : zmq_socket) (build_info : pyref).

Lemma ka_run_app (ph : phase) (t1 t2 : list event) :
  ka_run s build_info ph (t1 ++ t2)
  = ka_run s build_info ph t1 ≫= fun ph' => ka_run s build_info ph' t2.
Proof.
  revert ph. induction t1 as [|ev t1 IH]; intros ph; simpl; [done|].
  destruct (ka_next s build_info ph ev); simpl; [apply IH | done].
Qed.

(* Every run of the loop is a run of the machine. *)
Lemma loop_run (t : list event) (q : prog unit) :
  run (_keep_alive_thread s build_info) t = Some q →
  ∃ ph, ka_run s build_info AtLoop t = Some ph ∧ q = ka_state s build_info ph.
Proof.
  change (_keep_alive_thread s build_info) with (ka_state s build_info AtLoop).
  rewrite ka_run_sim. destruct (ka_run s build_info AtLoop t) as [ph|]; simpl.
  - intros [= <-]. by exists ph.
  - discriminate.
Qed.

Lemma ka_run_snoc (ph ph' : phase) (t : list event) (ev : event) :
  ka_run s build_info ph (t ++ [ev]) = Some ph' →
  ∃ ph0, ka_run s build_info ph t = Some ph0 ∧ ka_next s build_info ph0 ev = Some ph'.
Proof.
  rewrite ka_run_app. destruct (ka_run s build_info ph t) as [ph0|]; simpl; [|discriminate].
  destruct (ka_next s build_info ph0 ev) as [ph1|] eqn:Hn; [|discriminate].
  intros [= <-]. by exists ph0.
Qed.

Lemma ka_tick (port : json) (heartbeat : pyref) (reply : dict) :
  ka_run s build_info AtLoop (tick s build_info port heartbeat reply) = Some AtLoop.
Proof.
  unfold tick. repeat (cbn [ka_run ka_next]; rewrite ?decide_True by done).
  reflexivity.
Qed.

Lemma ka_ticks (rounds : list (json * pyref * dict)) :
  ka_run s build_info AtLoop (ticks s build_info rounds) = Some AtLoop.
Proof.
  unfold ticks. induction rounds as [|r rounds IH]; [done|].
  cbn [mbind list_bind]. rewrite ka_run_app, ka_tick. exact IH.
Qed.

Lemma ticks_snoc (rounds : list (json * pyref * dict))
    (port : json) (heartbeat : pyref) (reply : dict) :
  ticks s build_info (rounds ++ [(port, heartbeat, reply)])
  = ticks s build_info rounds ++ tick s build_info port heartbeat reply.
Proof. unfold ticks. rewrite bind_app. cbn [mbind list_bind]. by rewrite app_nil_r. Qed.

(* A run of the loop is a number of whole rounds, then the start of one
   more, cut short or ended by an exception: KeyError of the read, or
   what send_json or recv_json raised. *)
Lemma ka_run_shape (t : list event) (ph : phase) :
  ka_run s build_info AtLoop t = Some ph →
  ∃ (rounds : list (json * pyref * dict)) (port : json) (heartbeat : pyref)
    (reply : dict) (n : nat),
    (n ≤ 4)%nat ∧
    ((t = ticks s build_info rounds ++ take n (tick s build_info port heartbeat reply) ∧
      ph = phase_after port n) ∨
     (∃ e, (1 ≤ n ≤ 3)%nat ∧
        t = ticks s build_info rounds ++
            take n (tick s build_info port heartbeat reply) ++ [EvRaise e] ∧
        ph = Dead e ∧
        (n = 1%nat → e = KeyError "build_port"))).
Proof.
  revert ph. induction t as [|ev t IH] using rev_ind; intros ph H.
  - injection H as <-. exists [], JNull, 0%nat, ∅, 0%nat. split; [lia|]. by left.
  - apply ka_run_snoc in H as (ph0 & H0 & Hnext).
    destruct (IH _ H0) as (rs & port & hb & c & n & Hn & [[-> ->]|(e & _ & _ & -> & _)]);
      [|discriminate Hnext].
    destruct n as [|[|[|[|[|n]]]]]; [..|lia]; cbn [phase_after ka_next] in Hnext;
      unfold tick; cbn [take]; rewrite ?app_nil_r, <- ?app_assoc; cbn [app].
    + destruct ev; try discriminate Hnext. injection Hnext as <-.
      exists rs, port, hb, c, 1%nat. split; [lia|]. by left.
    + destruct ev; try discriminate Hnext.
      * case_decide as Hd; [|discriminate Hnext]. destruct Hd as [<- <-].
        injection Hnext as <-.
        exists rs, v, hb, c, 2%nat. split; [lia|]. by left.
      * case_decide as Hd; [|discriminate Hnext]. injection Hnext as <-.
        exists rs, port, hb, c, 1%nat. split; [lia|]. right. exists e.
        split; [lia|]. done.
    + destruct ev; try discriminate Hnext.
      * case_decide as Hd; [|discriminate Hnext]. destruct Hd as [<- <-].
        injection Hnext as <-.
        exists rs, port, hb, c, 3%nat. split; [lia|]. by left.
      * injection Hnext as <-.
        exists rs, port, hb, c, 2%nat. split; [lia|]. right. exists e.
        split; [lia|]. split; [done|]. split; [done|]. discriminate.
    + destruct ev; try discriminate Hnext.
      * case_decide as Hd; [|discriminate Hnext]. subst s0.
        injection Hnext as <-.
        exists rs, port, d, reply, 4%nat. split; [lia|]. by left.
      * injection Hnext as <-.
        exists rs, port, hb, c, 3%nat. split; [lia|]. right. exists e.
        split; [lia|]. split; [done|]. split; [done|]. discriminate.
    + destruct ev; try discriminate Hnext.
      case_decide as Hd; [|discriminate Hnext]. subst secs.
      injection Hnext as <-.
      exists (rs ++ [(port, hb, c)]), port, hb, c, 0%nat. split; [lia|]. left.
      split; [|done]. rewrite ticks_snoc. cbn [take]. by rewrite app_nil_r.
Qed.

(* The loop sends only right after it has read build_port, and what it
   sends is the keep_alive request for what it read. *)
Lemma ka_run_send (t : list event) (ph ph' : phase) (j : nat)
    (s' : zmq_socket) (msg : dict) :
  ka_run s build_info ph t = Some ph' →
  t !! j = Some (EvSend s' msg) →
  ∃ port, s' = s ∧ msg = keep_alive_request port ∧
    match j with
    | O => ph = AtSend port
    | S j' => t !! j' = Some (EvGetItem build_info "build_port" port)
    end.
Proof.
  revert ph j. induction t as [|ev t IH]; intros ph j Hrun Hj; [done|].
  cbn [ka_run] in Hrun.
  destruct (ka_next s build_info ph ev) as [ph1|] eqn:Hnext; [|discriminate].
  destruct j as [|j].
  - injection Hj as ->. destruct ph; try discriminate Hnext.
    cbn [ka_next] in Hnext. case_decide as Hd; [|discriminate]. destruct Hd as [<- <-].
    by exists port.
  - cbn in Hj. destruct (IH _ _ Hrun Hj) as (port & -> & -> & Hprev).
    exists port. split; [done|]. split; [done|].
    destruct j as [|j]; [|exact Hprev]. subst ph1.
    destruct ph, ev; cbn [ka_next] in Hnext;
      repeat case_decide; try discriminate Hnext.
    destruct_and?. by simplify_eq.
Qed.

(* The loop writes to no dict and starts no thread. *)
Lemma ka_run_quiet (t : list event) (ph ph' : phase) :
  ka_run s build_info ph t = Some ph' →
  Forall (fun ev => (∀ d, writes_to d ev = false) ∧ ev ≠ EvThreadStart) t.
Proof.
  revert ph. induction t as [|ev t IH]; intros ph Hrun; [constructor|].
  cbn [ka_run] in Hrun.
  destruct (ka_next s build_info ph ev) as [ph1|] eqn:Hnext; [|discriminate].
  constructor; [|by eapply IH].
  destruct ph, ev; try discriminate Hnext; done.
Qed.

End HeartbeatLoop.

(* --------------------------------------------------------------------- *)
(* A thread that runs alone                                              *)
(* --------------------------------------------------------------------- *)

Section Alone.

Context {A : Type}.
Implicit Types (P : process A).

(* A daemon thread that can go on by itself, with the dict objects as
   they are, can go on in the process, as long as the interpreter has not
   exited. *)
Lemma prun_worker_alone (t : list event) P (i : nat) (q q' : prog unit)
    (h' : gmap pyref dict) :
  exited P = false →
  threads P !! i = Some q →
  run q t = Some q' →
  heap_run (heap P) q t = Some h' →
  EvThreadStart ∉ t →
  prun P ((Worker i,.) <$> t)
  = Some (Process (main P) (<[i := q']> (threads P)) h' false).
Proof.
  revert P q. induction t as [|ev t IH]; intros P q Hex Hq Hrun Hheap Hts.
  - injection Hrun as <-. injection Hheap as <-. cbn.
    rewrite list_insert_id by done. destruct P; simpl in *; by subst.
  - cbn [run] in Hrun. destruct (step q ev) as [q1|] eqn:Hs; [|discriminate].
    cbn [heap_run] in Hheap.
    destruct (heap_step (heap P) q ev) as [h1|] eqn:Hh; [|discriminate].
    cbn [mbind option_bind] in Hheap. rewrite Hs in Hheap.
    cbn [mbind option_bind] in Hheap.
    apply not_elem_of_cons in Hts as [Hev Hts].
    cbn [fmap list_fmap prun].
    rewrite (pstep_worker_ok _ _ _ _ _ _ Hex Hq Hs Hh).
    assert (spawned q ev = []) as ->.
    { destruct q, ev; try reflexivity. done. }
    rewrite app_nil_r.
    rewrite (IH (Process _ _ _ _) q1 eq_refl); cbn [exited threads main heap]; try done.
    + by rewrite list_insert_insert_eq.
    + apply list_lookup_insert_eq. by eapply lookup_lt_Some.
Qed.

End Alone.

(* From anywhere inside a round, the loop finishes the round and does the
   next one, given the replies. *)
Lemma keep_alive_goes_on (s : zmq_socket) (build_info : pyref)
    (rounds : list (json * pyref * dict)) (port port' : json)
    (hb hb' : pyref) (reply reply' : dict) (n : nat) (q : prog unit) :
  (n ≤ 4)%nat →
  (2 ≤ n → port' = port)%nat →
  run (_keep_alive_thread s build_info)
    (ticks s build_info rounds ++ take n (tick s build_info port hb reply)) = Some q →
  run q (drop n (tick s build_info port' hb reply) ++ tick s build_info port' hb' reply')
  = Some (_keep_alive_thread s build_info).
Proof.
  intros Hn4 Hn Hq.
  assert (ka_run s build_info AtLoop
            (ticks s build_info rounds ++ take n (tick s build_info port hb reply))
          = Some (phase_after port n)) as Hph.
  { rewrite ka_run_app, ka_ticks. cbn [mbind option_bind].
    destruct n as [|[|[|[|[|n]]]]]; [..|lia]; unfold tick; cbn [take phase_after];
      repeat (cbn [ka_run ka_next]; rewrite ?decide_True by done); reflexivity. }
  change (_keep_alive_thread s build_info) with (ka_state s build_info AtLoop) in Hq.
  rewrite ka_run_sim, Hph in Hq. injection Hq as <-.
  change (_keep_alive_thread s build_info) with (ka_state s build_info AtLoop).
  rewrite ka_run_sim, ka_run_app.
  assert (ka_run s build_info (phase_after port n)
            (drop n (tick s build_info port' hb reply)) = Some AtLoop) as ->.
  { destruct n as [|[|[|[|[|n]]]]]; [..|lia]; unfold tick; cbn [drop phase_after];
      rewrite ?Hn by lia;
      repeat (cbn [ka_run ka_next]; rewrite ?decide_True by done); reflexivity. }
  cbn [mbind option_bind]. by rewrite ka_tick.
Qed.

Section HeartbeatObjects.

Variables (s : zmq_socket) (build_info : pyref).

(* One step of the loop and the dict objects. *)
Lemma heap_run_ka_cons (h h' : gmap pyref dict) (ph ph' : phase) (ev : event)
    (t : list event) :
  (∀ e, ev ≠ EvRaise e) →
  ka_next s build_info ph ev = Some ph' →
  heap_step h (Ret tt : prog unit) ev = Some h' →
  heap_run h (ka_state s build_info ph) (ev :: t)
  = heap_run h' (ka_state s build_info ph') t.
Proof.
  intros Hev Hnext Hh. cbn [heap_run].
  assert (heap_step h (ka_state s build_info ph) ev = Some h') as ->.
  { rewrite <- Hh. destruct ev; try reflexivity. by destruct (Hev e). }
  cbn [mbind option_bind]. by rewrite ka_step_sim, Hnext.
Qed.

(* One whole round, from the top of the loop, needs build_port in
   build_info and leaves one new dict, the heartbeat. *)
Lemma keep_alive_heap_round (h : gmap pyref dict) (content : dict) (port : json)
    (hb : pyref) (reply : dict) :
  h !! build_info = Some content →
  content !! "build_port" = Some port →
  h !! hb = None →
  heap_run h (ka_state s build_info AtLoop) (tick s build_info port hb reply)
  = Some (<[hb := reply]> h).
Proof.
  intros Hh Hport Hnew. unfold tick.
  repeat (erewrite heap_run_ka_cons;
    [|discriminate
     |cbn [ka_next]; rewrite ?decide_True by done; reflexivity
     |first [reflexivity|by eapply heap_step_getitem|by eapply heap_step_recv]]).
  reflexivity.
Qed.

(* From anywhere inside a round the rest of the round and the next one
   need build_port in build_info and leave the heartbeats as new dicts. *)
Lemma keep_alive_heap_goes_on (h : gmap pyref dict) (content : dict) (port : json)
    (hb hb' : pyref) (reply reply' : dict) (n : nat) :
  h !! build_info = Some content →
  content !! "build_port" = Some port →
  ((n ≤ 3)%nat → h !! hb = None ∧ hb ≠ hb') →
  h !! hb' = None →
  (n ≤ 4)%nat →
  heap_run h (ka_state s build_info (phase_after port n))
    (drop n (tick s build_info port hb reply) ++ tick s build_info port hb' reply')
  = Some (<[hb' := reply']> (if decide (n ≤ 3)%nat then <[hb := reply]> h else h)).
Proof.
  intros Hh Hport Hnew Hnew' Hn.
  destruct (decide (n ≤ 3)%nat) as [Hn3|Hn3].
  - destruct (Hnew Hn3) as [Hhb Hne].
    assert (<[hb := reply]> h !! build_info = Some content) as Hh2
      by (rewrite lookup_insert_ne by congruence; done).
    assert (<[hb := reply]> h !! hb' = None) as Hnew2
      by (rewrite lookup_insert_ne by done; done).
    destruct n as [|[|[|[|n]]]]; [..|lia]; unfold tick at 1; cbn [drop phase_after app].
    all: repeat (erewrite heap_run_ka_cons;
      [|discriminate
       |cbn [ka_next]; rewrite ?decide_True by done; reflexivity
       |first [reflexivity|by eapply heap_step_getitem|by eapply heap_step_recv]]).
    all: by eapply keep_alive_heap_round.
  - assert (n = 4%nat) as -> by lia. unfold tick at 1. cbn [drop phase_after app].
    erewrite heap_run_ka_cons;
      [|discriminate|cbn [ka_next]; by rewrite decide_True|reflexivity].
    by eapply keep_alive_heap_round.
Qed.

End HeartbeatObjects.

(* --------------------------------------------------------------------- *)
(* launch_build                                                          *)
(* --------------------------------------------------------------------- *)

Section Launch.

Variables (listener_port : Z) (build_address controller_address : string).

Let launch := launch_build listener_port build_address controller_address.

(* With any reply at all the launch goes through and returns the dict
   that holds the reply. *)
Lemma launch_build_runs_through (s : zmq_socket) (build_info : pyref) (reply : dict) :
  run launch (launch_trace s listener_port build_address controller_address
                build_info reply)
  = Some (Ret build_info).
Proof. subst launch. rewrite launch_build_unfold. unfold launch_trace. run_ok. Qed.

(* The only way for launch_build to return. *)
Lemma launch_build_returns (t : list event) (build_info : pyref) :
  run launch t = Some (Ret build_info) →
  ∃ s reply,
    t = launch_trace s listener_port build_address controller_address build_info reply.
Proof.
  subst launch. rewrite launch_build_unfold. intros H.
  do 4 (run_head H; [discriminate H| |run_head H; discriminate H]).
  run_head H; [discriminate H|].
  run_head H; [|discriminate H..].
  simplify_eq. by eexists _, _.
Qed.

(* Whatever happens, launch_build sends at most one request. *)
Lemma launch_build_sends_once (t : list event) (q : prog pyref) :
  run launch t = Some q → (length (sent t) ≤ 1)%nat.
Proof.
  subst launch. rewrite launch_build_unfold. intros H.
  do 4 (run_head H; [simpl; lia| |run_head H; [simpl; lia|discriminate H..]]).
  run_head H; [simpl; lia|].
  run_head H; [simpl; lia|discriminate H..].
Qed.

(* When launch_build ends in an exception, it is the one the last zmq
   call raised, and no thread was started. *)
Lemma launch_build_raises (t : list event) (e : exn) :
  run launch t = Some (Raise e) →
  last t = Some (EvRaise e) ∧ EvThreadStart ∉ t.
Proof.
  subst launch. rewrite launch_build_unfold. intros H.
  assert (Hne : ∀ (l : list event), EvThreadStart ∉ l ↔ Forall (fun ev => EvThreadStart ≠ ev) l).
  { intros l. rewrite Forall_forall. unfold not. naive_solver. }
  (* at each call: the trace ends here, or the call returns, or it raises
     and the trace ends with that exception *)
  do 4 (run_head H; [discriminate H| |
          run_head H; [|discriminate H..];
          simplify_eq; split; [done|apply Hne; repeat constructor; done]]).
  run_head H; [discriminate H|].
  run_head H; discriminate H.
Qed.

(* The process after a launch that went well: the main thread holds the
   new dict, the dict holds the reply, and one daemon thread runs the
   heartbeat loop on the same socket and the same dict. *)
Lemma launch_build_process (s : zmq_socket) (build_info : pyref) (reply : dict) :
  prun (start launch)
    ((Main,.) <$> launch_trace s listener_port build_address controller_address
                    build_info reply)
  = Some (Process (Ret build_info) [_keep_alive_thread s build_info]
            (<[build_info := reply]> ∅) false).
Proof.
  subst launch. rewrite launch_build_unfold. unfold launch_trace, start.
  do 3 main_step idtac. main_step ltac:(apply lookup_empty). main_step idtac.
  reflexivity.
Qed.

End Launch.

(** C1: for every start reply with a build_port, launch_build, given that
    reply, sends exactly one request, the payload {type: "start_build",
    controller_address: controller_address}, and returns as the
    descriptor the very dict in which it received the reply, so the
    descriptor's build_port is the reply's.  The launch completes on such
    a reply, leaving one heartbeat thread on the same socket and the same
    dict, and every run in which launch_build returns after receiving
    that reply is this one. *)
Theorem launch_build_session (listener_port : Z) (build_address controller_address : string)
    (s : zmq_socket) (build_info : pyref) (reply : dict) (port : json) :
  reply !! "build_port" = Some port →
  prun (start (launch_build listener_port build_address controller_address))
    ((Main,.) <$> launch_trace s listener_port build_address controller_address
                    build_info reply)
  = Some (Process (Ret build_info) [_keep_alive_thread s build_info]
            (<[build_info := reply]> ∅) false) ∧
  (<[build_info := reply]> (∅ : gmap pyref dict)) !! build_info ≫= (.!! "build_port")
  = Some port ∧
  sent (launch_trace s listener_port build_address controller_address build_info reply)
  = [(s, start_build_request controller_address)] ∧
  (∀ (t : list event) (returned : pyref),
     run (launch_build listener_port build_address controller_address) t
     = Some (Ret returned) →
     EvRecv s build_info reply ∈ t →
     t = launch_trace s listener_port build_address controller_address build_info reply ∧
     returned = build_info).
Proof.
  intros Hport. split; [apply launch_build_process|].
  split; [by rewrite lookup_insert_eq|]. split; [reflexivity|].
  intros t returned Hrun Hin.
  destruct (launch_build_returns _ _ _ _ _ Hrun) as (s' & reply' & ->).
  unfold launch_trace in Hin.
  repeat (apply elem_of_cons in Hin as [Hin|Hin]; [try discriminate Hin|]).
  - by simplify_eq.
  - by apply elem_of_nil in Hin.
Qed.

Lemma launch_build_session_witness :
  prun (start (launch_build 5556 "127.0.0.1" "10.0.0.2"))
    ((Main,.) <$> launch_trace 0%nat 5556 "127.0.0.1" "10.0.0.2"
                    0%nat {[ "build_port" := JInt 5557 ]})
  = Some (Process (Ret 0%nat) [_keep_alive_thread 0%nat 0%nat]
            (<[0%nat := {[ "build_port" := JInt 5557 ]}]> ∅) false) ∧
  (<[0%nat := {[ "build_port" := JInt 5557 ]}]> (∅ : gmap pyref dict)) !! 0%nat
    ≫= (.!! "build_port")
  = Some (JInt 5557) ∧
  sent (launch_trace 0%nat 5556 "127.0.0.1" "10.0.0.2"
          0%nat {[ "build_port" := JInt 5557 ]})
  = [(0%nat, start_build_request "10.0.0.2")] ∧
  (∀ (t : list event) (returned : pyref),
     run (launch_build 5556 "127.0.0.1" "10.0.0.2") t = Some (Ret returned) →
     EvRecv 0%nat 0%nat {[ "build_port" := JInt 5557 ]} ∈ t →
     t = launch_trace 0%nat 5556 "127.0.0.1" "10.0.0.2"
           0%nat {[ "build_port" := JInt 5557 ]} ∧
     returned = 0%nat).
Proof.
  apply (launch_build_session 5556 "127.0.0.1" "10.0.0.2" 0%nat 0%nat
           {[ "build_port" := JInt 5557 ]} (JInt 5557)).
  reflexivity.
Defined.

(* A descriptor without build_port: as long as no thread writes to it,
   the heartbeat thread does no more than enter its loop and die of
   KeyError, and sends nothing. *)
Lemma keep_alive_without_port {A : Type} (P0 P : process A) (i : nat)
    (s : zmq_socket) (build_info : pyref) (content : dict)
    (sched : list (tid * event)) :
  threads P0 !! i = Some (_keep_alive_thread s build_info) →
  heap P0 !! build_info = Some content →
  content !! "build_port" = None →
  prun P0 sched = Some P →
  Forall (fun x => writes_to build_info x.2 = false) sched →
  events_of (Worker i) sched `prefix_of` [EvLoop; EvRaise (KeyError "build_port")].
Proof.
  intros Hi Hh Hnone Hrun Hw.
  destruct (prun_worker _ _ _ _ _ Hrun Hi) as (q & _ & Hq).
  destruct (prun_heap_kept _ _ _ _ _ Hrun Hh Hw) as [_ Hreads].
  assert (∀ v, EvGetItem build_info "build_port" v ∉ events_of (Worker i) sched)
    as Hnoread.
  { intros v Hin. apply events_of_elem in Hin. apply Hreads in Hin. congruence. }
  apply loop_run in Hq as (ph & Hq & _).
  destruct (events_of (Worker i) sched) as [|e0 t]; [apply prefix_nil|].
  cbn [ka_run] in Hq. destruct e0; try discriminate Hq. cbn [ka_next] in Hq.
  destruct t as [|e1 t]; [by exists [EvRaise (KeyError "build_port")]|].
  cbn [ka_run] in Hq. destruct e1; try discriminate Hq; cbn [ka_next] in Hq.
  - case_decide as Hd; [|discriminate Hq]. destruct Hd as [<- <-].
    destruct (Hnoread v). set_solver.
  - case_decide as Hd; [|discriminate Hq]. subst e.
    destruct t as [|e2 t]; [by exists []|]. discriminate Hq.
Qed.

(** C5, as the code has it: launch_build has no error handling of its
    own.  It never retries: no run sends more than one request.  When a
    zmq call (socket, connect, send_json or recv_json) raises, the call
    ends with that very exception, not with a LaunchError; no descriptor
    is returned and no heartbeat thread is started.  A reply without
    build_port is not an error for launch_build: the call returns the
    dict with that reply as the descriptor and starts the heartbeat
    thread, and it is the thread that dies of KeyError("build_port"), in
    its first round, before it sends anything. *)
Theorem launch_build_failure (listener_port : Z) (build_address controller_address : string) :
  (∀ (t : list event) (q : prog pyref),
     run (launch_build listener_port build_address controller_address) t = Some q →
     (length (sent t) ≤ 1)%nat) ∧
  (∀ (s : zmq_socket) (build_info : pyref) (reply : dict) (e : exn) (n : nat),
     (n ≤ 3)%nat →
     run (launch_build listener_port build_address controller_address)
       (take n (launch_trace s listener_port build_address controller_address
                  build_info reply)
        ++ [EvRaise e])
     = Some (Raise e)) ∧
  (∀ (t : list event) (e : exn),
     run (launch_build listener_port build_address controller_address) t = Some (Raise e) →
     last t = Some (EvRaise e) ∧ EvThreadStart ∉ t) ∧
  (∀ (s : zmq_socket) (build_info : pyref) (reply : dict),
     reply !! "build_port" = None →
     prun (start (launch_build listener_port build_address controller_address))
       ((Main,.) <$> launch_trace s listener_port build_address controller_address
                       build_info reply)
     = Some (Process (Ret build_info) [_keep_alive_thread s build_info]
               (<[build_info := reply]> ∅) false) ∧
     prun (Process (Ret build_info) [_keep_alive_thread s build_info]
             (<[build_info := reply]> ∅) false)
       [(Worker 0, EvLoop); (Worker 0, EvRaise (KeyError "build_port"))]
     = Some (Process (Ret build_info) [Raise (KeyError "build_port")]
               (<[build_info := reply]> ∅) false) ∧
     (∀ (sched : list (tid * event)) (P : process pyref),
        prun (Process (Ret build_info) [_keep_alive_thread s build_info]
                (<[build_info := reply]> ∅) false) sched = Some P →
        Forall (fun x => writes_to build_info x.2 = false) sched →
        events_of (Worker 0) sched
          `prefix_of` [EvLoop; EvRaise (KeyError "build_port")] ∧
        sent (events_of (Worker 0) sched) = [])).
Proof.
  split; [|split; [|split]].
  - apply launch_build_sends_once.
  - intros s build_info reply e n Hn. rewrite launch_build_unfold.
    unfold launch_trace.
    destruct n as [|[|[|[|n]]]]; [cbn [take app]; run_ok..|lia].
  - apply launch_build_raises.
  - intros s build_info reply Hport. split; [apply launch_build_process|]. split.
    + change (_keep_alive_thread s build_info) with (ka_state s build_info AtLoop).
      cbn [prun].
      erewrite pstep_worker_ok;
        [|reflexivity|reflexivity|by rewrite ka_step_sim|reflexivity].
      cbn [prun main threads heap exited spawned ka_state app].
      erewrite pstep_worker_ok;
        [|reflexivity|reflexivity|cbn [step]; by rewrite decide_True
         |eapply heap_step_key_error; [apply lookup_insert_eq|done]].
      reflexivity.
    + intros sched P Hrun Hw.
      assert (events_of (Worker 0) sched
                `prefix_of` [EvLoop; EvRaise (KeyError "build_port")]) as Hpre.
      { refine (keep_alive_without_port _ _ 0%nat s build_info reply sched
                  _ _ Hport Hrun Hw); [reflexivity|apply lookup_insert_eq]. }
      split; [done|]. destruct Hpre as [rest Hrest].
      destruct (events_of (Worker 0) sched) as [|e0 [|e1 [|e2 t]]];
        cbn [app] in Hrest; simplify_eq; reflexivity.
Qed.

(* C5 as stated fails: the reply {status: "error"} has no build_port, and
   launch_build returns the dict that holds it as the descriptor. *)
Lemma launch_build_accepts_reply_without_port :
  ({[ "status" := JStr "error" ]} : dict) !! "build_port" = None ∧
  prun (start (launch_build 5556 "127.0.0.1" "10.0.0.2"))
    ((Main,.) <$> launch_trace 0%nat 5556 "127.0.0.1" "10.0.0.2"
                    0%nat {[ "status" := JStr "error" ]})
  = Some (Process (Ret 0%nat) [_keep_alive_thread 0%nat 0%nat]
            (<[0%nat := {[ "status" := JStr "error" ]}]> ∅) false).
Proof. split; [reflexivity|]. apply launch_build_process. Qed.

(* --------------------------------------------------------------------- *)
(* _keep_alive_thread and the descriptor it shares with the caller       *)
(* --------------------------------------------------------------------- *)

(* What the heartbeat thread sends is the keep_alive request for a port
   it has just read from build_info. *)
Lemma keep_alive_sends_what_it_read {A : Type} (P0 P : process A) (i : nat)
    (s : zmq_socket) (build_info : pyref) (sched : list (tid * event))
    (s' : zmq_socket) (msg : dict) :
  threads P0 !! i = Some (_keep_alive_thread s build_info) →
  prun P0 sched = Some P →
  EvSend s' msg ∈ events_of (Worker i) sched →
  ∃ port, s' = s ∧ msg = keep_alive_request port ∧
    (Worker i, EvGetItem build_info "build_port" port) ∈ sched.
Proof.
  intros Hi Hrun Hin.
  destruct (prun_worker _ _ _ _ _ Hrun Hi) as (q & _ & Hq).
  apply loop_run in Hq as (ph & Hq & _).
  apply list_elem_of_lookup in Hin as [j Hj].
  destruct (ka_run_send _ _ _ _ _ _ _ _ Hq Hj) as (port & -> & -> & Hprev).
  destruct j as [|j]; [discriminate Hprev|].
  exists port. split; [done|]. split; [done|].
  apply events_of_elem. by eapply list_elem_of_lookup_2.
Qed.

(* One whole round in a process, from the top of the loop. *)
Lemma keep_alive_round {A : Type} (P : process A) (i : nat)
    (s : zmq_socket) (build_info : pyref) (content : dict) (port : json)
    (hb : pyref) (reply : dict) :
  exited P = false →
  threads P !! i = Some (_keep_alive_thread s build_info) →
  heap P !! build_info = Some content →
  content !! "build_port" = Some port →
  heap P !! hb = None →
  prun P ((Worker i,.) <$> tick s build_info port hb reply)
  = Some (Process (main P) (threads P) (<[hb := reply]> (heap P)) false).
Proof.
  intros Hex Hi Hh Hport Hnew.
  rewrite (prun_worker_alone _ _ _ _ (_keep_alive_thread s build_info)
             (<[hb := reply]> (heap P)) Hex Hi).
  - by rewrite list_insert_id.
  - change (_keep_alive_thread s build_info) with (ka_state s build_info AtLoop).
    by rewrite ka_run_sim, ka_tick.
  - change (_keep_alive_thread s build_info) with (ka_state s build_info AtLoop).
    by eapply keep_alive_heap_round.
  - unfold tick. repeat (apply not_elem_of_cons; split; [discriminate|]).
    apply not_elem_of_nil.
Qed.

(** C2, as the code has it: the heartbeat loop of a session works in
    rounds.  The loop launch_build starts on a start reply runs on the
    dict that holds the reply, the same dict that launch_build returns to
    the caller.  Every round reads build_port from that dict, sends
    exactly {type: "keep_alive", build_port: the port just read},
    receives one reply and sleeps 60 seconds before the next round; every
    run of the loop is made of such whole rounds, followed by the first
    n <= 4 steps of one more round, or by the first one to three steps of
    a round and the exception that the read (KeyError), send_json or
    recv_json raised.  As long as no thread writes to the dict, the port
    of every keep_alive is the build_port of the start reply, and with
    replies the loop goes on round after round. *)
Theorem keep_alive_thread_rounds (listener_port : Z)
    (build_address controller_address : string)
    (s : zmq_socket) (build_info : pyref) (reply : dict) (port : json) :
  reply !! "build_port" = Some port →
  prun (start (launch_build listener_port build_address controller_address))
    ((Main,.) <$> launch_trace s listener_port build_address controller_address
                    build_info reply)
  = Some (Process (Ret build_info) [_keep_alive_thread s build_info]
            (<[build_info := reply]> ∅) false) ∧
  (∀ (t : list event) (q : prog unit),
     run (_keep_alive_thread s build_info) t = Some q →
     ∃ (rounds : list (json * pyref * dict)) (port' : json) (hb : pyref)
       (heartbeat : dict) (n : nat),
       (n ≤ 4)%nat ∧
       (t = ticks s build_info rounds ++ take n (tick s build_info port' hb heartbeat) ∨
        ∃ e, (1 ≤ n ≤ 3)%nat ∧
          t = ticks s build_info rounds ++
              take n (tick s build_info port' hb heartbeat) ++ [EvRaise e] ∧
          (n = 1%nat → e = KeyError "build_port"))) ∧
  (∀ (A : Type) (P0 P : process A) (i : nat) (sched : list (tid * event))
     (s' : zmq_socket) (msg : dict),
     threads P0 !! i = Some (_keep_alive_thread s build_info) →
     heap P0 !! build_info = Some reply →
     prun P0 sched = Some P →
     Forall (fun x => writes_to build_info x.2 = false) sched →
     EvSend s' msg ∈ events_of (Worker i) sched →
     s' = s ∧ msg = keep_alive_request port) ∧
  (∀ (A : Type) (P : process A) (i : nat) (hb : pyref) (heartbeat : dict),
     exited P = false →
     threads P !! i = Some (_keep_alive_thread s build_info) →
     heap P !! build_info = Some reply →
     heap P !! hb = None →
     prun P ((Worker i,.) <$> tick s build_info port hb heartbeat)
     = Some (Process (main P) (threads P) (<[hb := heartbeat]> (heap P)) false)).
Proof.
  intros Hport. split; [apply launch_build_process|]. split; [|split].
  - intros t q Hrun. apply loop_run in Hrun as (ph & Hrun & _).
    destruct (ka_run_shape _ _ _ _ Hrun) as (rs & p & hb & c & n & Hn & Hshape).
    exists rs, p, hb, c, n. split; [done|].
    destruct Hshape as [[-> _]|(e & Hn' & -> & _ & He)]; [by left|right; by exists e].
  - intros A P0 P i sched s' msg Hi Hh Hrun Hw Hin.
    destruct (keep_alive_sends_what_it_read _ _ _ _ _ _ _ _ Hi Hrun Hin)
      as (p & -> & -> & Hread).
    destruct (prun_heap_kept _ _ _ _ _ Hrun Hh Hw) as [_ Hreads].
    apply Hreads in Hread. split; [done|]. congruence.
  - intros A P i hb heartbeat Hex Hi Hh Hnew. by eapply keep_alive_round.
Qed.

Lemma keep_alive_thread_rounds_witness :
  prun (Process (Ret 0%nat) [_keep_alive_thread 0%nat 0%nat]
          (<[0%nat := {[ "build_port" := JInt 5557 ]}]> ∅) false)
    ((Worker 0,.) <$> tick 0%nat 0%nat (JInt 5557) 1%nat ∅)
  = Some (Process (Ret 0%nat) [_keep_alive_thread 0%nat 0%nat]
            (<[1%nat := ∅]> (<[0%nat := {[ "build_port" := JInt 5557 ]}]> ∅)) false).
Proof.
  refine (proj2 (proj2 (proj2
            (keep_alive_thread_rounds 5556 "127.0.0.1" "10.0.0.2" 0%nat 0%nat
               {[ "build_port" := JInt 5557 ]} (JInt 5557) _)))
            pyref
            (Process (Ret 0%nat) [_keep_alive_thread 0%nat 0%nat]
               (<[0%nat := {[ "build_port" := JInt 5557 ]}]> ∅) false)
            0%nat 1%nat ∅ _ _ _ _);
    reflexivity.
Defined.

(* C2 as stated fails: the port of a keep_alive need not be the one of the
   start reply.  In this run the start reply is {build_port: 5557}, the
   first keep_alive carries 5557, the caller writes 9999 into the
   descriptor it was given, and the next keep_alive carries 9999. *)
Lemma keep_alive_port_follows_descriptor :
  is_Some (prun (start (launch_then_change_port 5556 "127.0.0.1" "10.0.0.2" (JInt 9999)))
             change_port_then_heartbeat) ∧
  wire change_port_then_heartbeat
  = [ (0%nat, start_build_request "10.0.0.2");
      (0%nat, keep_alive_request (JInt 5557));
      (0%nat, keep_alive_request (JInt 9999)) ].
Proof. split; [|reflexivity]. vm_compute. by eexists. Qed.

(** C9: the first keep_alive of a session goes out at once.  When
    launch_build has received a start reply with a build_port, the
    process has one heartbeat thread standing at the top of its loop; the
    first thing that thread does after entering the loop is to read the
    port and send the keep_alive request, and in every run of the thread
    any time.sleep comes after that read and that send: no interval is
    waited before the first heartbeat.  As long as no thread has written
    to the descriptor, the port of that first keep_alive is the one of
    the start reply. *)
Theorem first_keep_alive_at_once (listener_port : Z)
    (build_address controller_address : string)
    (s : zmq_socket) (build_info : pyref) (reply : dict) (port : json) :
  reply !! "build_port" = Some port →
  prun (start (launch_build listener_port build_address controller_address))
    ((Main,.) <$> launch_trace s listener_port build_address controller_address
                    build_info reply)
  = Some (Process (Ret build_info) [_keep_alive_thread s build_info]
            (<[build_info := reply]> ∅) false) ∧
  is_Some (prun (Process (Ret build_info) [_keep_alive_thread s build_info]
                   (<[build_info := reply]> ∅) false)
             [(Worker 0, EvLoop);
              (Worker 0, EvGetItem build_info "build_port" port);
              (Worker 0, EvSend s (keep_alive_request port))]) ∧
  (∀ (A : Type) (P0 P : process A) (i : nat) (sched : list (tid * event))
     (j : nat) (secs : Z),
     threads P0 !! i = Some (_keep_alive_thread s build_info) →
     prun P0 sched = Some P →
     events_of (Worker i) sched !! j = Some (EvSleep secs) →
     (2 < j)%nat ∧
     events_of (Worker i) sched !! 0%nat = Some EvLoop ∧
     ∃ port' : json,
       events_of (Worker i) sched !! 1%nat
       = Some (EvGetItem build_info "build_port" port') ∧
       events_of (Worker i) sched !! 2%nat
       = Some (EvSend s (keep_alive_request port')) ∧
       (heap P0 !! build_info = Some reply →
        Forall (fun x => writes_to build_info x.2 = false) sched →
        port' = port)).
Proof.
  intros Hport. split; [apply launch_build_process|]. split.
  - change (_keep_alive_thread s build_info) with (ka_state s build_info AtLoop).
    cbn [prun].
    erewrite pstep_worker_ok;
      [|reflexivity|reflexivity|by rewrite ka_step_sim|reflexivity].
    cbn [prun main threads heap exited spawned ka_state app].
    erewrite pstep_worker_ok;
      [|reflexivity|reflexivity|apply step_getitem
       |eapply heap_step_getitem; [apply lookup_insert_eq|done]].
    cbn [prun main threads heap exited spawned app].
    erewrite pstep_worker_ok;
      [|reflexivity|reflexivity|apply step_send|reflexivity].
    by eexists.
  - intros A P0 P i sched j secs Hi Hrun Hj.
    destruct (prun_worker _ _ _ _ _ Hrun Hi) as (q & _ & Hq).
    apply loop_run in Hq as (ph & Hq & _).
    assert (∀ p, EvGetItem build_info "build_port" p ∈ events_of (Worker i) sched →
                 heap P0 !! build_info = Some reply →
                 Forall (fun x => writes_to build_info x.2 = false) sched →
                 p = port) as Hread.
    { intros p Hin Hh Hw. apply events_of_elem in Hin.
      destruct (prun_heap_kept _ _ _ _ _ Hrun Hh Hw) as [_ Hreads].
      apply Hreads in Hin. congruence. }
    revert Hj Hq Hread.
    generalize (events_of (Worker i) sched). intros t Hj Hq Hread.
    destruct t as [|e0 t]; [done|].
    cbn [ka_run] in Hq. destruct e0; try discriminate Hq. cbn [ka_next] in Hq.
    destruct t as [|e1 t]; [by destruct j|].
    cbn [ka_run] in Hq. destruct e1; try discriminate Hq; cbn [ka_next] in Hq.
    + case_decide as Hd; [|discriminate Hq]. destruct Hd as [<- <-].
      destruct t as [|e2 t]; [by destruct j as [|[|j]]|].
      cbn [ka_run] in Hq. destruct e2; try discriminate Hq; cbn [ka_next] in Hq.
      * case_decide as Hd; [|discriminate Hq]. destruct Hd as [<- <-].
        destruct j as [|[|[|j]]]; [discriminate Hj..|].
        split; [lia|]. split; [done|]. exists v. split; [done|]. split; [done|].
        apply Hread. set_solver.
      * destruct t as [|e3 t]; [by destruct j as [|[|[|j]]]|]. discriminate Hq.
    + case_decide as Hd; [|discriminate Hq].
      destruct t as [|e2 t]; [by destruct j as [|[|j]]|]. discriminate Hq.
Qed.

Lemma first_keep_alive_at_once_witness :
  is_Some (prun (Process (Ret 0%nat) [_keep_alive_thread 0%nat 0%nat]
                   (<[0%nat := {[ "build_port" := JInt 5557 ]}]> ∅) false)
             [(Worker 0, EvLoop);
              (Worker 0, EvGetItem 0%nat "build_port" (JInt 5557));
              (Worker 0, EvSend 0%nat (keep_alive_request (JInt 5557)))]).
Proof.
  apply (first_keep_alive_at_once 5556 "127.0.0.1" "10.0.0.2" 0%nat 0%nat
           {[ "build_port" := JInt 5557 ]} (JInt 5557)).
  reflexivity.
Defined.

(* --------------------------------------------------------------------- *)
(* _keep_alive_thread on the clock                                       *)
(* --------------------------------------------------------------------- *)

Section HeartbeatClock.

Variables (s : zmq_socket) (build_info : pyref).

(* A step never brings the next send closer. *)
Lemma next_send_after_step (ph ph' : phase) (now : Z) (te : timed) :
  ka_next s build_info ph (what te) = Some ph' →
  now ≤ entered te → 0 ≤ took te → min_duration (what te) ≤ took te →
  next_send_after ph now ≤ next_send_after ph' (entered te + took te).
Proof.
  destruct te as [at_ ev dt]. cbn [what entered took].
  assert (0 < ticks_per_second) by done.
  destruct ph, ev; cbn [ka_next next_send_after min_duration]; try discriminate;
    repeat case_match; try discriminate; intros [= <-];
    cbn [next_send_after]; subst; lia.
Qed.

(* Only a loop about to send can send. *)
Lemma ka_next_send (ph ph' : phase) (ev : event) :
  ka_next s build_info ph ev = Some ph' → is_send ev = true →
  (∃ port, ph = AtSend port) ∧ ph' = AtRecv.
Proof.
  destruct ph, ev; simpl; try discriminate;
    repeat case_match; try discriminate; intros [= <-]; eauto.
Qed.

Lemma ka_send_lower_bound (tt : list timed) (ph ph' : phase) (now : Z) :
  ka_run s build_info ph (what <$> tt) = Some ph' →
  well_timed now tt →
  Forall (fun te => is_send (what te) = true → next_send_after ph now ≤ entered te) tt.
Proof.
  revert ph now. induction tt as [|te tt IH]; intros ph now Hrun Hwt; [constructor|].
  cbn [fmap list_fmap ka_run] in Hrun.
  destruct (ka_next s build_info ph (what te)) as [ph1|] eqn:Hnext; [|discriminate].
  destruct Hwt as (Hnow & Hpos & Hmin & Hwt).
  constructor.
  - intros Hsend. destruct (ka_next_send _ _ _ Hnext Hsend) as [[port ->] _]. exact Hnow.
  - pose proof (next_send_after_step _ _ _ _ Hnext Hnow Hpos Hmin) as Hle.
    eapply Forall_impl; [exact (IH _ _ Hrun Hwt)|].
    intros te' Hte' Hsend. specialize (Hte' Hsend). simpl in Hte'. lia.
Qed.

Lemma ka_sends_spaced (tt : list timed) (ph ph' : phase) (now : Z)
    (i j : nat) (a b : timed) :
  ka_run s build_info ph (what <$> tt) = Some ph' →
  well_timed now tt →
  (i < j)%nat → tt !! i = Some a → tt !! j = Some b →
  is_send (what a) = true → is_send (what b) = true →
  entered a + took a + 60 * ticks_per_second ≤ entered b.
Proof.
  revert ph now i j. induction tt as [|te tt IH]; intros ph now i j Hrun Hwt Hij Ha Hb Sa Sb;
    [done|].
  cbn [fmap list_fmap ka_run] in Hrun.
  destruct (ka_next s build_info ph (what te)) as [ph1|] eqn:Hnext; [|discriminate].
  destruct Hwt as (Hnow & Hpos & Hmin & Hwt).
  destruct j as [|j]; [lia|]. cbn in Hb.
  destruct i as [|i].
  - injection Ha as ->.
    destruct (ka_next_send _ _ _ Hnext Sa) as [_ ->].
    pose proof (ka_send_lower_bound _ _ _ _ Hrun Hwt) as Hall.
    rewrite Forall_forall in Hall.
    apply (Hall b); [|done]. by eapply list_elem_of_lookup_2.
  - cbn in Ha. eapply (IH ph1 _ i j); eauto. lia.
Qed.

End HeartbeatClock.

(** C7: the heartbeat sends of a session are sequential and at least 60
    seconds apart.  In every run of the heartbeat thread, timed by any
    clock on which time.sleep(60) takes at least 60 seconds, a
    keep_alive send is entered only after every earlier one has returned
    and 60 more seconds have passed: no two sends overlap, and the sends
    are an interval or more apart. *)
Theorem keep_alive_sends_spaced (s : zmq_socket) (build_info : pyref)
    (tt : list timed) (q : prog unit) (now : Z) (i j : nat) (a b : timed) :
  run (_keep_alive_thread s build_info) (what <$> tt) = Some q →
  well_timed now tt →
  (i < j)%nat →
  tt !! i = Some a → is_send (what a) = true →
  tt !! j = Some b → is_send (what b) = true →
  entered a + took a ≤ entered b ∧
  entered a + took a + 60 * ticks_per_second ≤ entered b.
Proof.
  intros Hrun Hwt Hij Ha Sa Hb Sb.
  apply loop_run in Hrun as (ph & Hrun & _).
  pose proof (ka_sends_spaced _ _ _ _ _ _ _ _ _ _ Hrun Hwt Hij Ha Hb Sa Sb) as Hgap.
  assert (0 < ticks_per_second) by done. lia.
Qed.

Lemma keep_alive_sends_spaced_witness :
  0 + 1000 ≤ 60005001200 ∧ 0 + 1000 + 60 * ticks_per_second ≤ 60005001200.
Proof.
  apply (keep_alive_sends_spaced 0%nat 0%nat
           two_rounds_on_the_clock
           (ka_state 0%nat 0%nat AtRecv)
           0 2%nat 7%nat
           (Timed 0 (EvSend 0%nat (keep_alive_request (JInt 5557))) 1000)
           (Timed 60005001200 (EvSend 0%nat (keep_alive_request (JInt 5557))) 1000)).
  - vm_compute. reflexivity.
  - vm_compute. repeat split; discriminate.
  - lia.
  - reflexivity.
  - reflexivity.
  - reflexivity.
  - reflexivity.
Defined.

(* --------------------------------------------------------------------- *)
(* A heartbeat that fails                                                *)
(* --------------------------------------------------------------------- *)

(* A dead thread stays dead and silent. *)
Lemma dead_thread_silent {A : Type} (P P' : process A) (i : nat) (e : exn)
    (sched : list (tid * event)) :
  threads P !! i = Some (Raise e) →
  prun P sched = Some P' →
  events_of (Worker i) sched = [] ∧ threads P' !! i = Some (Raise e).
Proof.
  intros Hi Hrun.
  destruct (prun_worker _ _ _ _ _ Hrun Hi) as (q' & Hq' & Hrun').
  apply run_finished in Hrun' as [-> ->]; done.
Qed.

(* What the heartbeat thread has done in a process, and where it stands. *)
Lemma keep_alive_in_process {A : Type} (P0 P : process A) (i : nat)
    (s : zmq_socket) (build_info : pyref) (sched : list (tid * event)) :
  threads P0 !! i = Some (_keep_alive_thread s build_info) →
  prun P0 sched = Some P →
  ∃ ph, ka_run s build_info AtLoop (events_of (Worker i) sched) = Some ph ∧
        threads P !! i = Some (ka_state s build_info ph).
Proof.
  intros Hi Hrun.
  destruct (prun_worker _ _ _ _ _ Hrun Hi) as (q & Hq & Hrunq).
  apply loop_run in Hrunq as (ph & Hph & ->). by exists ph.
Qed.

(** C6, as the code has it: the code has no timeout and keeps no session
    status.  What the heartbeat thread has done is whole rounds and the
    start of one more.  When the heartbeat call raises, which only the
    read of build_port (KeyError), send_json or recv_json can do, the
    exception ends the thread: the loop does not retry, the thread takes
    no further step, so no further heartbeat is sent for the session.  A
    heartbeat whose reply does not come blocks the thread in recv_json:
    until a reply or an exception comes the thread takes no step.  Nothing
    reaches the caller: what the main thread has become is the outcome of
    its own steps alone.  Nothing is marked Faulted: the heartbeat thread
    writes to no dict, so a dict that no other thread writes to holds
    what it held. *)
Theorem keep_alive_failure_ends_loop {A : Type} (P0 P : process A) (i : nat)
    (s : zmq_socket) (build_info : pyref) (sched : list (tid * event)) :
  threads P0 !! i = Some (_keep_alive_thread s build_info) →
  prun P0 sched = Some P →
  (∃ (rounds : list (json * pyref * dict)) (port : json) (hb : pyref)
     (heartbeat : dict) (n : nat),
     (n ≤ 4)%nat ∧
     ((events_of (Worker i) sched
       = ticks s build_info rounds ++ take n (tick s build_info port hb heartbeat) ∧
       threads P !! i = Some (ka_state s build_info (phase_after port n))) ∨
      (∃ e, (1 ≤ n ≤ 3)%nat ∧
         events_of (Worker i) sched
         = ticks s build_info rounds ++
           take n (tick s build_info port hb heartbeat) ++ [EvRaise e] ∧
         (n = 1%nat → e = KeyError "build_port") ∧
         threads P !! i = Some (Raise e)))) ∧
  (∀ e, threads P !! i = Some (Raise e) →
     ∀ (sched' : list (tid * event)) (P' : process A),
       prun P sched' = Some P' →
       events_of (Worker i) sched' = [] ∧ threads P' !! i = Some (Raise e)) ∧
  (threads P !! i = Some (ka_state s build_info AtRecv) →
   ∀ (ev : event) (P' : process A),
     pstep P (Worker i) ev = Some P' →
     (∃ hb heartbeat, ev = EvRecv s hb heartbeat) ∨ (∃ e, ev = EvRaise e)) ∧
  run (main P0) (filter (fun ev => ev ≠ EvExit) (events_of Main sched)) = Some (main P) ∧
  Forall (fun ev => ∀ d, writes_to d ev = false) (events_of (Worker i) sched) ∧
  (∀ (d : pyref) (content : dict),
     heap P0 !! d = Some content →
     Forall (fun x => x.1 ≠ Worker i → writes_to d x.2 = false) sched →
     heap P !! d = Some content).
Proof.
  intros Hi Hrun.
  destruct (keep_alive_in_process _ _ _ _ _ _ Hi Hrun) as (ph & Hph & Hq).
  assert (Forall (fun ev => ∀ d, writes_to d ev = false) (events_of (Worker i) sched))
    as Hquiet.
  { eapply Forall_impl; [exact (ka_run_quiet _ _ _ _ _ Hph)|]. by intros ev [? _]. }
  split; [|split; [|split; [|split; [|split]]]].
  - destruct (ka_run_shape _ _ _ _ Hph) as (rs & port & hb & c & n & Hn & Hshape).
    exists rs, port, hb, c, n. split; [done|].
    destruct Hshape as [[Ht ->]|(e & Hn' & Ht & -> & He)]; [by left|].
    right. by exists e.
  - intros e He sched' P' Hrun'. by eapply dead_thread_silent.
  - intros Hrecv ev P' Hstep.
    apply pstep_worker in Hstep as (q & q' & h' & Hq' & Hs & _).
    rewrite Hrecv in Hq'. injection Hq' as <-.
    destruct ev; try discriminate Hs; cbn [ka_state step] in Hs.
    + case_decide as Hd; [|discriminate Hs]. subst s0. left. by eexists _, _.
    + right. by eexists.
  - by apply prun_main.
  - exact Hquiet.
  - intros d content Hd Hothers.
    apply (prun_heap_kept _ _ _ _ _ Hrun Hd).
    rewrite Forall_forall in Hothers. rewrite Forall_forall in Hquiet.
    apply Forall_forall.
    intros [who ev] Hin. cbn [snd].
    destruct (decide (who = Worker i)) as [->|Hne].
    + apply Hquiet. by apply events_of_elem.
    + by apply (Hothers (who, ev)).
Qed.

Lemma keep_alive_failure_ends_loop_witness :
  ∃ (rounds : list (json * pyref * dict)) (port : json) (hb : pyref)
    (heartbeat : dict) (n : nat),
    (n ≤ 4)%nat ∧
    ((events_of (Worker 0) [(Worker 0, EvLoop);
                            (Worker 0, EvRaise (KeyError "build_port"))]
      = ticks 0%nat 0%nat rounds ++ take n (tick 0%nat 0%nat port hb heartbeat) ∧
      threads (Process (Ret 0%nat) [Raise (KeyError "build_port")]
                 (<[0%nat := {[ "status" := JStr "error" ]}]> ∅) false) !! 0%nat
      = Some (ka_state 0%nat 0%nat (phase_after port n))) ∨
     (∃ e, (1 ≤ n ≤ 3)%nat ∧
        events_of (Worker 0) [(Worker 0, EvLoop);
                              (Worker 0, EvRaise (KeyError "build_port"))]
        = ticks 0%nat 0%nat rounds ++
          take n (tick 0%nat 0%nat port hb heartbeat) ++ [EvRaise e] ∧
        (n = 1%nat → e = KeyError "build_port") ∧
        threads (Process (Ret 0%nat) [Raise (KeyError "build_port")]
                   (<[0%nat := {[ "status" := JStr "error" ]}]> ∅) false) !! 0%nat
        = Some (Raise e))).
Proof.
  refine (proj1 (keep_alive_failure_ends_loop
            (Process (Ret 0%nat) [_keep_alive_thread 0%nat 0%nat]
               (<[0%nat := {[ "status" := JStr "error" ]}]> ∅) false)
            (Process (Ret 0%nat) [Raise (KeyError "build_port")]
               (<[0%nat := {[ "status" := JStr "error" ]}]> ∅) false)
            0%nat 0%nat 0%nat
            [(Worker 0, EvLoop); (Worker 0, EvRaise (KeyError "build_port"))] _ _)).
  - reflexivity.
  - vm_compute. reflexivity.
Defined.

(* C6 as stated fails: nothing classifies the session.  In the first run
   the launch gets the reply {build_port: 5557} and the first heartbeat
   gets no reply: the heartbeat thread waits in recv_json.  In the second
   the launch gets the reply {status: "error"} and the first heartbeat
   dies of KeyError.  Both leave the main thread holding the descriptor
   and the descriptor holding the start reply, as a launch does. *)
Lemma keep_alive_failure_marks_nothing :
  prun (start (launch_build 5556 "127.0.0.1" "10.0.0.2"))
    (((Main,.) <$> launch_trace 0%nat 5556 "127.0.0.1" "10.0.0.2"
                     0%nat {[ "build_port" := JInt 5557 ]}) ++
     ((Worker 0,.) <$> take 3 (tick 0%nat 0%nat (JInt 5557) 1%nat ∅)))
  = Some (Process (Ret 0%nat) [ka_state 0%nat 0%nat AtRecv]
            (<[0%nat := {[ "build_port" := JInt 5557 ]}]> ∅) false) ∧
  prun (start (launch_build 5556 "127.0.0.1" "10.0.0.2"))
    (((Main,.) <$> launch_trace 0%nat 5556 "127.0.0.1" "10.0.0.2"
                     0%nat {[ "status" := JStr "error" ]}) ++
     [(Worker 0, EvLoop); (Worker 0, EvRaise (KeyError "build_port"))])
  = Some (Process (Ret 0%nat) [Raise (KeyError "build_port")]
            (<[0%nat := {[ "status" := JStr "error" ]}]> ∅) false).
Proof. split; vm_compute; reflexivity. Qed.

(* --------------------------------------------------------------------- *)
(* The heartbeat after stop                                              *)
(* --------------------------------------------------------------------- *)

(** C3, as the code has it: the heartbeat loop has no cancellation.  Once
    the heartbeat thread has died of an exception it takes no further
    step, so no keep_alive is sent for the session any more, and once the
    interpreter has exited nothing is sent at all.  But stop does not end
    the loop: when the main thread has sent kill_build for the build_port
    the descriptor holds, on whatever socket, the heartbeat thread,
    wherever it stands in its round, finishes that round and, given
    replies, does the next one, sending keep_alive for the very same
    build_port. *)
Theorem keep_alive_after_stop {A : Type} (P0 P : process A) (i : nat)
    (s : zmq_socket) (build_info : pyref) (content : dict) (port : json)
    (sched : list (tid * event)) :
  threads P0 !! i = Some (_keep_alive_thread s build_info) →
  prun P0 sched = Some P →
  heap P !! build_info = Some content →
  content !! "build_port" = Some port →
  (∀ (pre : list event) (e : exn),
     events_of (Worker i) sched = pre ++ [EvRaise e] →
     ∀ (sched' : list (tid * event)) (P' : process A),
       prun P sched' = Some P' → events_of (Worker i) sched' = []) ∧
  (exited P = true →
   ∀ (sched' : list (tid * event)) (P' : process A),
     prun P sched' = Some P' → sched' = []) ∧
  (∀ (s2 : zmq_socket) (rounds : list (json * pyref * dict))
     (hb hb' : pyref) (heartbeat heartbeat' : dict) (n : nat),
     exited P = false →
     EvSend s2 (kill_build_request port) ∈ events_of Main sched →
     (n ≤ 4)%nat →
     events_of (Worker i) sched
     = ticks s build_info rounds ++ take n (tick s build_info port hb heartbeat) →
     ((n ≤ 3)%nat → heap P !! hb = None ∧ hb ≠ hb') →
     heap P !! hb' = None →
     ∃ P' : process A,
       prun P ((Worker i,.) <$> (drop n (tick s build_info port hb heartbeat) ++
                                 tick s build_info port hb' heartbeat')) = Some P' ∧
       threads P' !! i = Some (_keep_alive_thread s build_info) ∧
       (s, keep_alive_request port)
         ∈ wire ((Worker i,.) <$> (drop n (tick s build_info port hb heartbeat) ++
                                   tick s build_info port hb' heartbeat'))).
Proof.
  intros Hi Hrun Hh Hport.
  destruct (prun_worker _ _ _ _ _ Hrun Hi) as (q & Hq & Hrunq).
  split; [|split].
  - intros pre e Hev sched' P' Hrun'.
    rewrite Hev in Hrunq. apply run_raise_last in Hrunq as ->.
    by destruct (dead_thread_silent _ _ _ _ _ Hq Hrun').
  - intros Hex sched' P' Hrun'. by eapply prun_exited.
  - intros s2 rounds hb hb' heartbeat heartbeat' n Hex _ Hn Hev Hnew Hnew'.
    rewrite Hev in Hrunq.
    pose proof (keep_alive_goes_on _ _ _ _ port hb hb' heartbeat heartbeat' _ _
                  Hn (fun _ => eq_refl) Hrunq) as Hgo.
    assert (q = ka_state s build_info (phase_after port n)) as Hqn.
    { apply loop_run in Hrunq as (ph & Hph & ->). f_equal.
      rewrite ka_run_app, ka_ticks in Hph. cbn [mbind option_bind] in Hph.
      destruct n as [|[|[|[|[|n]]]]]; [..|lia]; unfold tick in Hph;
        cbn [take phase_after] in *;
        repeat (cbn [ka_run ka_next] in Hph; rewrite ?decide_True in Hph by done);
        by injection Hph as <-. }
    pose proof (keep_alive_heap_goes_on s build_info _ _ _ hb hb' heartbeat heartbeat' n
                  Hh Hport Hnew Hnew' Hn) as Hheap.
    rewrite <- Hqn in Hheap.
    eexists. split; [|split].
    + apply (prun_worker_alone _ _ _ _ _ _ Hex Hq Hgo Hheap).
      destruct n as [|[|[|[|[|n]]]]]; [..|lia]; unfold tick; cbn [drop app];
        repeat (apply not_elem_of_cons; split; [discriminate|]); apply not_elem_of_nil.
    + cbn [threads]. apply list_lookup_insert_eq. by eapply lookup_lt_Some.
    + rewrite wire_alone. unfold sent. apply list_elem_of_omap.
      exists (EvSend s (keep_alive_request port)). split; [|done].
      apply elem_of_app. right. unfold tick.
      do 2 apply list_elem_of_further. apply list_elem_of_here.
Qed.

Lemma keep_alive_after_stop_witness :
  ∃ P' : process unit,
    prun (Process (Sleep 120 (Ret tt)) [ka_state 0%nat 0%nat AtSleep]
            (<[2%nat := ∅]> (<[1%nat := ∅]>
               (<[0%nat := {[ "build_port" := JInt 5557 ]}]> ∅))) false)
      ((Worker 0,.) <$> (drop 4 (tick 0%nat 0%nat (JInt 5557) 1%nat ∅) ++
                         tick 0%nat 0%nat (JInt 5557) 3%nat ∅))
    = Some P' ∧
    threads P' !! 0%nat = Some (_keep_alive_thread 0%nat 0%nat) ∧
    (0%nat, keep_alive_request (JInt 5557))
      ∈ wire ((Worker 0,.) <$> (drop 4 (tick 0%nat 0%nat (JInt 5557) 1%nat ∅) ++
                                tick 0%nat 0%nat (JInt 5557) 3%nat ∅)).
Proof.
  apply (keep_alive_after_stop
           (Process (_send_kill_build 1%nat 0%nat ;; time_sleep 120)
              [_keep_alive_thread 0%nat 0%nat]
              (<[0%nat := {[ "build_port" := JInt 5557 ]}]> ∅) false)
           (Process (Sleep 120 (Ret tt)) [ka_state 0%nat 0%nat AtSleep]
              (<[2%nat := ∅]> (<[1%nat := ∅]>
                 (<[0%nat := {[ "build_port" := JInt 5557 ]}]> ∅))) false)
           0%nat 0%nat 0%nat {[ "build_port" := JInt 5557 ]} (JInt 5557)
           (((Worker 0,.) <$> take 4 (tick 0%nat 0%nat (JInt 5557) 1%nat ∅)) ++
            ((Main,.) <$> kill_trace 1%nat 0%nat (JInt 5557) 2%nat ∅)))
    with (s2 := 1%nat) (rounds := []).
  - reflexivity.
  - vm_compute. reflexivity.
  - reflexivity.
  - reflexivity.
  - reflexivity.
  - apply (bool_decide_unpack _). vm_compute. exact I.
  - lia.
  - vm_compute. reflexivity.
  - lia.
  - reflexivity.
Defined.

(* C3 as stated fails: in this run the kill_build for port 5557 goes out
   and is acknowledged, and the next message on the wire is a keep_alive
   for port 5557. *)
Lemma keep_alive_sent_after_stop :
  is_Some (prun (start (launch_then_kill 5556 "127.0.0.1" "10.0.0.2")) stop_then_heartbeat) ∧
  wire stop_then_heartbeat
  = [ (0%nat, start_build_request "10.0.0.2");
      (0%nat, keep_alive_request (JInt 5557));
      (1%nat, kill_build_request (JInt 5557));
      (0%nat, keep_alive_request (JInt 5557)) ].
Proof. split; [|reflexivity]. vm_compute. by eexists. Qed.

(* ===================================================================== *)
(* The utility functions of TDWUtils                                     *)
(* ===================================================================== *)

(* --------------------------------------------------------------------- *)
(* get_box and create_empty_room                                         *)
(* --------------------------------------------------------------------- *)

(* A loop that only appends builds the concatenation of what each round
   appends. *)
Lemma foldl_extend {A B : Type} (g : list B → A → list B) (f : A → list B)
    (l : list A) (acc : list B) :
  (∀ acc x, g acc x = acc ++ f x) →
  foldl g acc l = acc ++ (l ≫= f).
Proof.
  intros Hg. revert acc. induction l as [|x l IH]; intros acc; simpl.
  - by rewrite app_nil_r.
  - rewrite IH, Hg. by rewrite <- app_assoc.
Qed.

(* An entry of `[q] if P else []`. *)
Lemma elem_of_if_singleton {A : Type} (P : Prop) `{!Decision P} (p q : A) :
  p ∈ (if decide P then [q] else []) ↔ P ∧ p = q.
Proof.
  case_decide as HP.
  - rewrite list_elem_of_singleton. split; [by intros ->|by intros [_ ->]].
  - rewrite elem_of_nil. split; [done|by intros [? _]].
Qed.

(* The cells of row x that get_box keeps. *)
Lemma get_box_rows (width length : Z) :
  get_box width length =
  x ← range width ;
  y ← range length ;
  if decide (x = 0 ∨ x = width - 1 ∨ y = 0 ∨ y = length - 1)
  then [JObject [("x", JInt x); ("y", JInt y)]] else [].
Proof.
  unfold get_box. rewrite (foldl_extend _ (fun x =>
    y ← range length ;
    if decide (x = 0 ∨ x = width - 1 ∨ y = 0 ∨ y = length - 1)
    then [JObject [("x", JInt x); ("y", JInt y)]] else [])); [done|].
  intros acc x. apply foldl_extend. intros acc' y.
  case_decide; [done|by rewrite app_nil_r].
Qed.

(* A border cell of the grid is kept. *)
Lemma get_box_has (width length x y : Z) :
  0 ≤ x < width → 0 ≤ y < length →
  x = 0 ∨ x = width - 1 ∨ y = 0 ∨ y = length - 1 →
  JObject [("x", JInt x); ("y", JInt y)] ∈ get_box width length.
Proof.
  intros Hx Hy Hb. rewrite get_box_rows. unfold range.
  apply list_elem_of_bind. exists x. split; [|apply elem_of_seqZ; lia].
  apply list_elem_of_bind. exists y. split; [|apply elem_of_seqZ; lia].
  by apply elem_of_if_singleton.
Qed.

(** X1: get_box(width, length) lists exactly the border cells of the grid
    of width columns and length rows: {"x": x, "y": y} is in the list if
    and only if 0 <= x < width, 0 <= y < length and the cell lies in the
    first or last column or in the first or last row. *)
Theorem get_box_border (width length : Z) (p : json) :
  p ∈ get_box width length ↔
  ∃ x y : Z,
    p = JObject [("x", JInt x); ("y", JInt y)] ∧
    0 ≤ x < width ∧ 0 ≤ y < length ∧
    (x = 0 ∨ x = width - 1 ∨ y = 0 ∨ y = length - 1).
Proof.
  split.
  - rewrite get_box_rows. unfold range. rewrite list_elem_of_bind.
    intros (x & Hp & Hx). apply list_elem_of_bind in Hp as (y & Hp & Hy).
    apply elem_of_seqZ in Hx, Hy.
    apply elem_of_if_singleton in Hp as [Hb ->].
    exists x, y. repeat split; (done || lia).
  - intros (x & y & -> & Hx & Hy & Hb). by apply get_box_has.
Qed.

Section ListLemmas.

Context {A B : Type}.

Lemma length_bind_const (f : A → list B) (l : list A) (n : nat) :
  (∀ x, x ∈ l → length (f x) = n) →
  length (l ≫= f) = (length l * n)%nat.
Proof.
  induction l as [|x l IH]; intros Hf; [done|].
  cbn [mbind list_bind]. rewrite length_app. cbn [length].
  rewrite Hf by left. rewrite IH; [lia|]. intros y Hy. apply Hf. by right.
Qed.

Lemma StronglySorted_bind (R : relation B) (R' : relation A) (f : A → list B)
    (l : list A) :
  StronglySorted R' l →
  (∀ x, x ∈ l → StronglySorted R (f x)) →
  (∀ x x' a b, R' x x' → a ∈ f x → b ∈ f x' → R a b) →
  StronglySorted R (l ≫= f).
Proof.
  intros Hl Hin Hacross. induction Hl as [|x l Hl IH Hx]; [constructor|].
  cbn [mbind list_bind]. apply StronglySorted_app. split; [|split].
  - intros a b Ha Hb. apply list_elem_of_bind in Hb as (x' & Hb & Hx').
    apply (Hacross x x'); [|done..].
    rewrite Forall_forall in Hx. by apply Hx.
  - apply Hin. by left.
  - apply IH. intros y Hy. apply Hin. by right.
Qed.

Lemma StronglySorted_lookup (R : relation A) (l : list A) (i j : nat) (a b : A) :
  StronglySorted R l → (i < j)%nat → l !! i = Some a → l !! j = Some b → R a b.
Proof.
  intros Hl. revert i j. induction Hl as [|x l Hl IH Hx]; intros i j Hij Ha Hb; [done|].
  destruct j as [|j]; [lia|]. cbn in Hb. destruct i as [|i].
  - injection Ha as ->. rewrite Forall_forall in Hx.
    apply Hx. by eapply list_elem_of_lookup_2.
  - cbn in Ha. apply (IH i j); [lia|done..].
Qed.

End ListLemmas.

Lemma seqZ_sorted (m n : Z) : StronglySorted Z.lt (seqZ m n).
Proof.
  destruct (decide (n ≤ 0)) as [Hn|Hn]; [rewrite seqZ_nil by done; constructor|].
  rewrite <- (Z2Nat.id n) by lia. generalize (Z.to_nat n). clear n Hn. intros n.
  revert m. induction n as [|n IH]; intros m.
  - simpl. rewrite seqZ_nil by done. constructor.
  - rewrite seqZ_cons by lia. constructor.
    + replace (Z.pred (Z.of_nat (S n))) with (Z.of_nat n) by lia. apply IH.
    + apply Forall_seqZ. lia.
Qed.

Lemma seqZ_one (m : Z) : seqZ m 1 = [m].
Proof. rewrite seqZ_cons by done. by rewrite seqZ_nil. Qed.

(* First, middle, last. *)
Lemma seqZ_ends (n : Z) : 2 ≤ n → seqZ 0 n = 0 :: seqZ 1 (n - 2) ++ [n - 1].
Proof.
  intros Hn. rewrite seqZ_cons by lia. f_equal.
  replace (Z.pred n) with ((n - 2) + 1) by lia.
  rewrite seqZ_app, seqZ_one by lia. do 3 f_equal. lia.
Qed.

(** X2: get_box lists the border cells row by row, in increasing x and,
    within a row, in increasing y: of two entries of the list, the later
    one has the greater x, or the same x and a greater y. *)
Theorem get_box_sorted (width length : Z) (i j : nat) (x1 y1 x2 y2 : Z) :
  (i < j)%nat →
  get_box width length !! i = Some (JObject [("x", JInt x1); ("y", JInt y1)]) →
  get_box width length !! j = Some (JObject [("x", JInt x2); ("y", JInt y2)]) →
  x1 < x2 ∨ (x1 = x2 ∧ y1 < y2).
Proof.
  intros Hij Hi Hj.
  pose (R := fun p q : json =>
    ∀ a b c d, p = JObject [("x", JInt a); ("y", JInt b)] →
               q = JObject [("x", JInt c); ("y", JInt d)] →
               a < c ∨ (a = c ∧ b < d)).
  cut (StronglySorted R (get_box width length)).
  { intros Hs. by apply (StronglySorted_lookup R _ i j _ _ Hs Hij Hi Hj). }
  rewrite get_box_rows.
  apply (StronglySorted_bind R Z.lt); [apply seqZ_sorted| |].
  - intros x _.
    apply (StronglySorted_bind R Z.lt); [apply seqZ_sorted| |].
    + intros y _. case_decide; repeat constructor.
    + intros y y' p q Hy Hp Hq a b c d -> ->.
      apply elem_of_if_singleton in Hp as [_ Hp].
      apply elem_of_if_singleton in Hq as [_ Hq]. simplify_eq. lia.
  - intros x x' p q Hx Hp Hq a b c d -> ->.
    apply list_elem_of_bind in Hp as (y & Hp & _).
    apply list_elem_of_bind in Hq as (y' & Hq & _).
    apply elem_of_if_singleton in Hp as [_ Hp].
    apply elem_of_if_singleton in Hq as [_ Hq]. simplify_eq. lia.
Qed.

Lemma get_box_sorted_witness : 0 < 1 ∨ (0 = 1 ∧ 2 < 0).
Proof.
  apply (get_box_sorted 3 3 2%nat 3%nat 0 2 1 0); [lia|reflexivity..].
Defined.

(** X3: get_box never lists a cell twice: a corner belongs to two sides of
    the box and still appears once. *)
Theorem get_box_no_duplicates (width length : Z) : NoDup (get_box width length).
Proof.
  rewrite get_box_rows. apply NoDup_bind.
  - intros x x' p _ _ Hp Hp'.
    apply list_elem_of_bind in Hp as (y & Hp & _).
    apply list_elem_of_bind in Hp' as (y' & Hp' & _).
    apply elem_of_if_singleton in Hp as [_ Hp].
    apply elem_of_if_singleton in Hp' as [_ Hp']. by simplify_eq.
  - intros x _. apply NoDup_bind.
    + intros y y' p _ _ Hp Hp'.
      apply elem_of_if_singleton in Hp as [_ Hp].
      apply elem_of_if_singleton in Hp' as [_ Hp']. by simplify_eq.
    + intros y _. case_decide; [apply NoDup_singleton|apply NoDup_nil_2].
    + apply NoDup_seqZ.
  - apply NoDup_seqZ.
Qed.

Lemma bind_nil_all {A B : Type} (f : A → list B) (l : list A) :
  (∀ x, x ∈ l → f x = []) → l ≫= f = [].
Proof.
  induction l as [|x l IH]; intros Hf; [done|].
  cbn [mbind list_bind]. rewrite Hf by left. apply IH. intros y Hy. apply Hf. by right.
Qed.

(* A first or last column is kept whole. *)
Lemma get_box_row_edge (width length x : Z) :
  x = 0 ∨ x = width - 1 →
  Z.of_nat (List.length
    (y ← range length ;
     if decide (x = 0 ∨ x = width - 1 ∨ y = 0 ∨ y = length - 1)
     then [JObject [("x", JInt x); ("y", JInt y)]] else []))
  = Z.max 0 length.
Proof.
  intros Hx. rewrite (length_bind_const _ _ 1).
  - unfold range. rewrite length_seqZ. lia.
  - intros y _. rewrite decide_True by lia. done.
Qed.

(* Of any other column the two ends are kept. *)
Lemma get_box_row_middle (width length x : Z) :
  ¬ (x = 0 ∨ x = width - 1) →
  Z.of_nat (List.length
    (y ← range length ;
     if decide (x = 0 ∨ x = width - 1 ∨ y = 0 ∨ y = length - 1)
     then [JObject [("x", JInt x); ("y", JInt y)]] else []))
  = Z.max 0 length - Z.max 0 (length - 2).
Proof.
  intros Hx. unfold range.
  destruct (decide (length ≤ 0)) as [Hl|Hl]; [rewrite seqZ_nil by done; simpl; lia|].
  destruct (decide (length = 1)) as [->|Hl1].
  { rewrite seqZ_one. cbn [mbind list_bind]. rewrite decide_True by lia. simpl. lia. }
  rewrite seqZ_ends by lia.
  change (0 :: seqZ 1 (length - 2) ++ [length - 1])
    with ([0] ++ seqZ 1 (length - 2) ++ [length - 1]).
  rewrite !bind_app, !length_app.
  rewrite (bind_nil_all _ (seqZ 1 (length - 2))).
  - cbn [mbind list_bind]. rewrite !decide_True by lia. simpl. lia.
  - intros y Hy. apply elem_of_seqZ in Hy. rewrite decide_False; [done|lia].
Qed.

(* How many cells get_box keeps. *)
Lemma get_box_count (width length : Z) :
  Z.of_nat (List.length (get_box width length))
  = Z.max 0 width * Z.max 0 length - Z.max 0 (width - 2) * Z.max 0 (length - 2).
Proof.
  rewrite get_box_rows. change (range width) with (seqZ 0 width).
  destruct (decide (width ≤ 0)) as [Hw|Hw];
    [rewrite (seqZ_nil 0 width) by done; simpl; lia|].
  destruct (decide (width = 1)) as [->|Hw1].
  { rewrite seqZ_one. cbn [mbind list_bind]. rewrite app_nil_r.
    rewrite (get_box_row_edge 1 length 0) by lia. lia. }
  rewrite (seqZ_ends width) by lia.
  change (0 :: seqZ 1 (width - 2) ++ [width - 1])
    with ([0] ++ seqZ 1 (width - 2) ++ [width - 1]).
  rewrite !bind_app, !length_app.
  rewrite (length_bind_const _ (seqZ 1 (width - 2))
             (Z.to_nat (Z.max 0 length - Z.max 0 (length - 2)))).
  - cbn [mbind list_bind]. rewrite !app_nil_r.
    rewrite !Nat2Z.inj_add, Nat2Z.inj_mul.
    rewrite (get_box_row_edge width length 0) by lia.
    rewrite (get_box_row_edge width length (width - 1)) by lia.
    rewrite length_seqZ. nia.
  - intros x Hx. apply elem_of_seqZ in Hx.
    apply Nat2Z.inj. rewrite (get_box_row_middle width length x) by lia. lia.
Qed.

(** X4: the number of cells get_box(width, length) lists.  A box with a
    width or a length of zero or less has no cells; otherwise the count
    is width * length less the (width - 2) * (length - 2) cells inside,
    which for a width and a length of 2 or more is the perimeter
    2 * (width + length) - 4. *)
Theorem get_box_length (width length : Z) :
  Z.of_nat (List.length (get_box width length))
  = Z.max 0 width * Z.max 0 length - Z.max 0 (width - 2) * Z.max 0 (length - 2) ∧
  (width ≤ 0 ∨ length ≤ 0 → get_box width length = []) ∧
  (2 ≤ width → 2 ≤ length →
   Z.of_nat (List.length (get_box width length)) = 2 * (width + length) - 4).
Proof.
  pose proof (get_box_count width length) as Hlen.
  split; [exact Hlen|]. split.
  - intros Hd. apply length_zero_iff_nil. nia.
  - intros Hw Hl. rewrite Hlen. nia.
Qed.

(** X5: create_empty_room never fails: it returns a create_exterior_walls
    command whose walls are the cells of get_box, so a room of
    width or length zero or less is a command with no walls at all, and
    any other room has walls. *)
Theorem create_empty_room_walls (width length : Z) :
  create_empty_room width length
  = JObject [("$type", JStr "create_exterior_walls");
             ("walls", JList (get_box width length))] ∧
  (get_box width length = [] ↔ width ≤ 0 ∨ length ≤ 0) ∧
  (0 < width → 0 < length →
   JObject [("x", JInt 0); ("y", JInt 0)] ∈ get_box width length ∧
   JObject [("x", JInt (width - 1)); ("y", JInt (length - 1))] ∈ get_box width length).
Proof.
  split; [reflexivity|]. split; [split|].
  - intros Hnil. destruct (decide (width ≤ 0 ∨ length ≤ 0)) as [|Hpos]; [done|].
    assert (JObject [("x", JInt 0); ("y", JInt 0)] ∈ get_box width length) as Hin
      by (apply get_box_has; lia).
    rewrite Hnil in Hin. by apply elem_of_nil in Hin.
  - intros Hd. apply length_zero_iff_nil.
    pose proof (get_box_count width length). nia.
  - intros Hw Hl. split; apply get_box_has; lia.
Qed.

(* --------------------------------------------------------------------- *)
(* zero_padding                                                          *)
(* --------------------------------------------------------------------- *)

Lemma append_cons (c : ascii) (s t : string) :
  String c s +:+ t = String c (s +:+ t).
Proof. reflexivity. Qed.

Lemma append_nil_l (t : string) : "" +:+ t = t.
Proof. reflexivity. Qed.

Lemma length_append (s t : string) :
  String.length (s +:+ t) = (String.length s + String.length t)%nat.
Proof.
  induction s as [|c s IH]; [done|].
  rewrite append_cons. cbn [String.length]. by rewrite IH.
Qed.

Lemma length_zeros (k : nat) : String.length (zeros k) = k.
Proof. induction k as [|k IH]; [done|]. cbn [zeros String.length]. by rewrite IH. Qed.

Lemma length_zfill (s : string) (width : Z) :
  String.length (zfill s width) = (String.length s `max` Z.to_nat width)%nat.
Proof.
  unfold zfill. destruct s as [|c rest].
  - rewrite length_zeros. cbn [String.length]. lia.
  - case_decide; cbn [String.length];
      rewrite length_append, length_zeros; cbn [String.length]; lia.
Qed.

Lemma zfill_long_enough (s : string) (width : Z) :
  width ≤ Z.of_nat (String.length s) → zfill s width = s.
Proof.
  intros Hw. unfold zfill.
  replace (Z.to_nat width - String.length s)%nat with 0%nat by lia.
  destruct s as [|c rest]; [done|]. by case_decide.
Qed.

(* The decimal digits of a positive number start with a digit from 1 to 9. *)
Lemma pretty_N_go_head (x : N) (s : string) :
  (0 < x)%N →
  ∃ c r, pretty_N_go x s = String c r ∧
         c ≠ "0"%char ∧ c ≠ "-"%char ∧ c ≠ "+"%char.
Proof.
  revert s. induction (N.lt_wf_0 x) as [x _ IH]; intros s Hx.
  rewrite pretty_N_go_step by done.
  destruct (decide (x < 10)%N) as [Hlt|Hge].
  - rewrite N.div_small, N.mod_small by done. rewrite pretty_N_go_0.
    eexists _, _. split; [done|].
    assert (x = 1 ∨ x = 2 ∨ x = 3 ∨ x = 4 ∨ x = 5 ∨ x = 6
            ∨ x = 7 ∨ x = 8 ∨ x = 9)%N as Hd by lia.
    destruct Hd as [->|[->|[->|[->|[->|[->|[->|[->| ->]]]]]]]]; done.
  - apply IH.
    + apply N.div_lt; lia.
    + apply N.div_str_pos. lia.
Qed.

(* str(n) of an int that is not negative is "0" or starts with a digit
   from 1 to 9. *)
Lemma str_int_nonneg (n : Z) :
  0 ≤ n →
  str_int n = "0" ∨
  ∃ c r, str_int n = String c r ∧ c ≠ "0"%char ∧ c ≠ "-"%char ∧ c ≠ "+"%char.
Proof.
  intros Hn. destruct n as [|p|p]; [by left| |lia].
  right. unfold str_int, pretty, pretty_Z, pretty, pretty_positive, pretty, pretty_N.
  rewrite decide_False by done. by apply pretty_N_go_head.
Qed.

Lemma str_int_neg (n : Z) : n < 0 → str_int n = "-" +:+ str_int (- n).
Proof. intros Hn. destruct n as [|p|p]; [lia..|]. reflexivity. Qed.

(* zfill on the digits of a number that is not negative only adds zeros. *)
Lemma zfill_digits (s : string) (width : Z) :
  (s = "0" ∨ ∃ c r, s = String c r ∧ c ≠ "0"%char ∧ c ≠ "-"%char ∧ c ≠ "+"%char) →
  zfill s width = zeros (Z.to_nat width - String.length s) +:+ s.
Proof.
  intros [->|(c & r & -> & _ & Hm & Hp)]; unfold zfill.
  - rewrite decide_False; [done|]. intros [?|?]; discriminate.
  - rewrite decide_False; [done|]. intros [?|?]; congruence.
Qed.

(* Where the zeros go: before the digits, after the sign. *)
Lemma zero_padding_sign_aux (integer width : Z) :
  (0 ≤ integer →
   zero_padding integer width
   = zeros (Z.to_nat width - String.length (str_int integer)) +:+ str_int integer) ∧
  (integer < 0 →
   zero_padding integer width
   = "-" +:+ zeros (Z.to_nat width - String.length (str_int integer))
         +:+ str_int (- integer)).
Proof.
  split.
  - intros Hn. apply zfill_digits. by apply str_int_nonneg.
  - intros Hn. unfold zero_padding. rewrite (str_int_neg _ Hn).
    unfold zfill. rewrite append_cons, append_nil_l.
    rewrite decide_True by (by right). reflexivity.
Qed.

(** X6: zero_padding(integer, width) is str(integer) made at least width
    characters long: its length is the greater of width and the length of
    str(integer), and an integer that already takes width characters or
    more comes back as str(integer), never cut. *)
Theorem zero_padding_length (integer width : Z) :
  String.length (zero_padding integer width)
  = (String.length (str_int integer) `max` Z.to_nat width)%nat ∧
  (width ≤ Z.of_nat (String.length (str_int integer)) →
   zero_padding integer width = str_int integer).
Proof.
  split; [apply length_zfill|apply zfill_long_enough].
Qed.

(** X7: where zero_padding puts the zeros.  For an integer that is not
    negative they come before its digits; for a negative integer they
    come between the minus sign and the digits, and the sign counts in
    the width: zero_padding(-3, 4) is "-003", three digits, not four. *)
Theorem zero_padding_sign (integer width : Z) :
  (0 ≤ integer →
   zero_padding integer width
   = zeros (Z.to_nat width - String.length (str_int integer)) +:+ str_int integer) ∧
  (integer < 0 →
   zero_padding integer width
   = "-" +:+ zeros (Z.to_nat width - String.length (str_int integer))
         +:+ str_int (- integer)) ∧
  zero_padding (-3) 4 = "-003".
Proof.
  destruct (zero_padding_sign_aux integer width) as [Hpos Hneg].
  split; [exact Hpos|]. split; [exact Hneg|reflexivity].
Qed.

(* Zeros put before the digits of two numbers do not make them equal. *)
Lemma zeros_digits_inj (k1 k2 : nat) (s1 s2 : string) :
  (s1 = "0" ∨ ∃ c r, s1 = String c r ∧ c ≠ "0"%char ∧ c ≠ "-"%char ∧ c ≠ "+"%char) →
  (s2 = "0" ∨ ∃ c r, s2 = String c r ∧ c ≠ "0"%char ∧ c ≠ "-"%char ∧ c ≠ "+"%char) →
  zeros k1 +:+ s1 = zeros k2 +:+ s2 → s1 = s2.
Proof.
  assert (∀ k s t,
    (s = "0" ∨ ∃ c r, s = String c r ∧ c ≠ "0"%char ∧ c ≠ "-"%char ∧ c ≠ "+"%char) →
    (t = "0" ∨ ∃ c r, t = String c r ∧ c ≠ "0"%char ∧ c ≠ "-"%char ∧ c ≠ "+"%char) →
    s = zeros (S k) +:+ t → False) as Hshort.
  { intros k s t Hs Ht Heq. cbn [zeros] in Heq. rewrite append_cons in Heq.
    destruct Hs as [->|(c & r & -> & Hc & _)]; [|congruence].
    injection Heq as Heq.
    assert (String.length (zeros k +:+ t) = 0%nat) as Hlen by by rewrite <- Heq.
    rewrite length_append in Hlen.
    destruct Ht as [->|(c & r & -> & _)]; cbn [String.length] in Hlen; lia. }
  revert k2. induction k1 as [|k1 IH]; intros [|k2] Hs1 Hs2 Heq.
  - exact Heq.
  - exfalso. by eapply (Hshort k2 s1 s2).
  - exfalso. by eapply (Hshort k1 s2 s1).
  - cbn [zeros] in Heq. rewrite !append_cons in Heq. injection Heq as Heq.
    by apply (IH k2).
Qed.

(** X8: for a given width, zero_padding gives different integers
    different strings: file names made from different frame numbers
    never collide. *)
Theorem zero_padding_inj (a b width : Z) :
  a ≠ b → zero_padding a width ≠ zero_padding b width.
Proof.
  intros Hab Hsame. apply Hab. revert Hsame.
  assert (∀ n, 0 ≤ n → ∀ k t, zeros k +:+ str_int n ≠ String "-"%char t) as Hnominus.
  { intros n Hn [|k] t Heq.
    - rewrite append_nil_l in Heq.
      destruct (str_int_nonneg n Hn) as [H0|(c & r & Hc & _ & Hm & _)];
        rewrite ?H0, ?Hc in Heq; [discriminate|congruence].
    - cbn [zeros] in Heq. rewrite append_cons in Heq. discriminate. }
  intros Heq.
  destruct (decide (0 ≤ a)) as [Ha|Ha], (decide (0 ≤ b)) as [Hb|Hb].
  - rewrite (proj1 (zero_padding_sign_aux a width)) in Heq by done.
    rewrite (proj1 (zero_padding_sign_aux b width)) in Heq by done.
    apply zeros_digits_inj in Heq; [|by apply str_int_nonneg..].
    by apply (inj pretty).
  - exfalso.
    rewrite (proj1 (zero_padding_sign_aux a width)) in Heq by done.
    rewrite (proj2 (zero_padding_sign_aux b width)) in Heq by lia.
    by eapply Hnominus.
  - exfalso.
    rewrite (proj2 (zero_padding_sign_aux a width)) in Heq by lia.
    rewrite (proj1 (zero_padding_sign_aux b width)) in Heq by done.
    symmetry in Heq. by eapply Hnominus.
  - rewrite (proj2 (zero_padding_sign_aux a width)) in Heq by lia.
    rewrite (proj2 (zero_padding_sign_aux b width)) in Heq by lia.
    rewrite !append_cons, !append_nil_l in Heq. injection Heq as Heq.
    apply zeros_digits_inj in Heq; [|apply str_int_nonneg; lia..].
    apply (inj pretty) in Heq. lia.
Qed.

Lemma zero_padding_inj_witness : zero_padding 7 4 ≠ zero_padding (-7) 4.
Proof. apply (zero_padding_inj 7 (-7) 4). lia. Defined.

(* --------------------------------------------------------------------- *)
(* Vectors, colors and arrays                                            *)
(* --------------------------------------------------------------------- *)

Section Vectors.

Context {V : Type}.

Lemma lookup_literal3 (a b c k : string) (x y z : V) :
  ({[ a := x; b := y; c := z ]} : gmap string V) !! k =
  if decide (a = k) then Some x
  else if decide (b = k) then Some y
  else if decide (c = k) then Some z
  else None.
Proof. rewrite !lookup_insert. rewrite lookup_singleton. reflexivity. Qed.

Lemma lookup_literal4 (a b c d k : string) (x y z w : V) :
  ({[ a := x; b := y; c := z; d := w ]} : gmap string V) !! k =
  if decide (a = k) then Some x
  else if decide (b = k) then Some y
  else if decide (c = k) then Some z
  else if decide (d = k) then Some w
  else None.
Proof. rewrite !lookup_insert. rewrite lookup_singleton. reflexivity. Qed.

Lemma item_Some (d : gmap string V) (key : string) (v : V) :
  d !! key = Some v → item d key = Ok v.
Proof. intros H. unfold item. by rewrite H. Qed.

Lemma item_None (d : gmap string V) (key : string) :
  d !! key = None → item d key = Err (PyKeyError key).
Proof. intros H. unfold item. by rewrite H. Qed.

End Vectors.

(** X9: what vector3_to_array and vector4_to_array read, whatever kind of
    values the dict holds.  A dict that has "x", "y" and "z" gives
    np.array called on the list of these three items, in this order;
    other keys are not looked at, so two dicts that agree on the three
    keys give the same.  A dict that lacks one of them raises KeyError
    for the first one missing, in the order x, y, z, whatever np.array
    does.  vector4_to_array does the same with "x", "y", "z", "w". *)
Theorem vector_to_array_reads_in_order {V : Type}
    (np_array : list V → outcome (list V)) (vector3 vector4 : gmap string V) :
  (∀ x y z : V,
     vector3 !! "x" = Some x → vector3 !! "y" = Some y → vector3 !! "z" = Some z →
     vector3_to_array np_array vector3 = np_array [x; y; z] ∧
     ∀ other : gmap string V,
       other !! "x" = Some x → other !! "y" = Some y → other !! "z" = Some z →
       vector3_to_array np_array other = vector3_to_array np_array vector3) ∧
  (vector3 !! "x" = None → vector3_to_array np_array vector3 = Err (PyKeyError "x")) ∧
  (is_Some (vector3 !! "x") → vector3 !! "y" = None →
   vector3_to_array np_array vector3 = Err (PyKeyError "y")) ∧
  (is_Some (vector3 !! "x") → is_Some (vector3 !! "y") → vector3 !! "z" = None →
   vector3_to_array np_array vector3 = Err (PyKeyError "z")) ∧
  (∀ x y z w : V,
     vector4 !! "x" = Some x → vector4 !! "y" = Some y →
     vector4 !! "z" = Some z → vector4 !! "w" = Some w →
     vector4_to_array np_array vector4 = np_array [x; y; z; w]) ∧
  (vector4 !! "x" = None → vector4_to_array np_array vector4 = Err (PyKeyError "x")) ∧
  (is_Some (vector4 !! "x") → vector4 !! "y" = None →
   vector4_to_array np_array vector4 = Err (PyKeyError "y")) ∧
  (is_Some (vector4 !! "x") → is_Some (vector4 !! "y") → vector4 !! "z" = None →
   vector4_to_array np_array vector4 = Err (PyKeyError "z")) ∧
  (is_Some (vector4 !! "x") → is_Some (vector4 !! "y") → is_Some (vector4 !! "z") →
   vector4 !! "w" = None →
   vector4_to_array np_array vector4 = Err (PyKeyError "w")).
Proof.
  unfold vector3_to_array, vector4_to_array.
  split; [|split; [|split; [|split; [|split; [|split; [|split; [|split]]]]]]].
  - intros x y z Hx Hy Hz.
    rewrite (item_Some _ _ _ Hx), (item_Some _ _ _ Hy), (item_Some _ _ _ Hz).
    split; [done|]. intros other Hx' Hy' Hz'.
    by rewrite (item_Some _ _ _ Hx'), (item_Some _ _ _ Hy'), (item_Some _ _ _ Hz').
  - intros Hx. by rewrite (item_None _ _ Hx).
  - intros [x Hx] Hy. by rewrite (item_Some _ _ _ Hx), (item_None _ _ Hy).
  - intros [x Hx] [y Hy] Hz.
    by rewrite (item_Some _ _ _ Hx), (item_Some _ _ _ Hy), (item_None _ _ Hz).
  - intros x y z w Hx Hy Hz Hw.
    by rewrite (item_Some _ _ _ Hx), (item_Some _ _ _ Hy),
               (item_Some _ _ _ Hz), (item_Some _ _ _ Hw).
  - intros Hx. by rewrite (item_None _ _ Hx).
  - intros [x Hx] Hy. by rewrite (item_Some _ _ _ Hx), (item_None _ _ Hy).
  - intros [x Hx] [y Hy] Hz.
    by rewrite (item_Some _ _ _ Hx), (item_Some _ _ _ Hy), (item_None _ _ Hz).
  - intros [x Hx] [y Hy] [z Hz] Hw.
    by rewrite (item_Some _ _ _ Hx), (item_Some _ _ _ Hy),
               (item_Some _ _ _ Hz), (item_None _ _ Hw).
Qed.

(** X10: array_to_vector3 converts the first three elements with float(),
    one after the other.  When arr has three elements or more and float()
    accepts the first three, the result is the dict of the three floats
    under "x", "y", "z" (later elements are ignored), and
    vector3_to_array of it is np.array of these three floats.  The first
    element in the order 0, 1, 2 that is missing or that float() refuses
    decides the exception: IndexError for a missing one, the exception of
    float() otherwise, so that a short array whose elements float()
    accepts raises IndexError.  Coming from a dict, the trip
    array_to_vector3(vector3_to_array(v)) gives v back when v has no
    other key than x, y, z, np.array keeps the three items and float()
    leaves each of them as it is. *)
Theorem array_to_vector3_converts_in_order {V : Type}
    (float : V → outcome V) (np_array : list V → outcome (list V)) (arr : list V) :
  (∀ (a0 a1 a2 : V) (rest : list V) (x y z : V),
     arr = a0 :: a1 :: a2 :: rest →
     float a0 = Ok x → float a1 = Ok y → float a2 = Ok z →
     array_to_vector3 float arr = Ok {[ "x" := x; "y" := y; "z" := z ]} ∧
     array_to_vector3 float arr ≫= vector3_to_array np_array = np_array [x; y; z]) ∧
  (∀ (i : nat) (a : V) (e : pyerror),
     (i < 3)%nat → arr !! i = Some a → float a = Err e →
     (∀ j : nat, (j < i)%nat → ∃ b x : V, arr !! j = Some b ∧ float b = Ok x) →
     array_to_vector3 float arr = Err e) ∧
  ((length arr < 3)%nat →
   (∀ a : V, a ∈ arr → ∃ x : V, float a = Ok x) →
   array_to_vector3 float arr = Err PyIndexError) ∧
  (∀ (vector3 : gmap string V) (x y z : V) (a : list V),
     vector3 !! "x" = Some x → vector3 !! "y" = Some y → vector3 !! "z" = Some z →
     np_array [x; y; z] = Ok a →
     vector3_to_array np_array vector3 ≫= array_to_vector3 float
     = array_to_vector3 float a ∧
     (a = [x; y; z] → float x = Ok x → float y = Ok y → float z = Ok z →
      (∀ k, k ≠ "x" → k ≠ "y" → k ≠ "z" → vector3 !! k = None) →
      vector3_to_array np_array vector3 ≫= array_to_vector3 float = Ok vector3)).
Proof.
  split; [|split; [|split]].
  - intros a0 a1 a2 rest x y z -> H0 H1 H2.
    assert (array_to_vector3 float (a0 :: a1 :: a2 :: rest)
            = Ok {[ "x" := x; "y" := y; "z" := z ]}) as Hv.
    { unfold array_to_vector3. cbn. rewrite H0. cbn. rewrite H1. cbn. by rewrite H2. }
    rewrite Hv. split; [done|]. cbn. unfold vector3_to_array.
    rewrite (item_Some _ "x" x), (item_Some _ "y" y), (item_Some _ "z" z);
      [done|by rewrite lookup_literal3..].
  - intros i a e Hi Ha He Hbefore. unfold array_to_vector3.
    destruct i as [|[|[|i]]]; [| | |lia].
    + unfold index. rewrite Ha. cbn. by rewrite He.
    + destruct (Hbefore 0%nat) as (b0 & x0 & Hb0 & Hx0); [lia|].
      unfold index. rewrite Hb0. cbn. rewrite Hx0. cbn. rewrite Ha. cbn. by rewrite He.
    + destruct (Hbefore 0%nat) as (b0 & x0 & Hb0 & Hx0); [lia|].
      destruct (Hbefore 1%nat) as (b1 & x1 & Hb1 & Hx1); [lia|].
      unfold index. rewrite Hb0. cbn. rewrite Hx0. cbn. rewrite Hb1. cbn. rewrite Hx1.
      cbn. rewrite Ha. cbn. by rewrite He.
  - intros Hlen Hfloat. unfold array_to_vector3.
    destruct arr as [|a0 [|a1 [|a2 rest]]]; cbn in Hlen; [| | |lia].
    + reflexivity.
    + destruct (Hfloat a0) as [x0 Hx0]; [by left|]. cbn. by rewrite Hx0.
    + destruct (Hfloat a0) as [x0 Hx0]; [by left|].
      destruct (Hfloat a1) as [x1 Hx1]; [by right; left|].
      cbn. rewrite Hx0. cbn. by rewrite Hx1.
  - intros vector3 x y z a Hx Hy Hz Ha.
    assert (vector3_to_array np_array vector3 = Ok a) as Harr.
    { unfold vector3_to_array.
      by rewrite (item_Some _ _ _ Hx), (item_Some _ _ _ Hy), (item_Some _ _ _ Hz). }
    rewrite Harr. split; [done|].
    intros -> Hfx Hfy Hfz Hother. cbn. unfold array_to_vector3. cbn.
    rewrite Hfx. cbn. rewrite Hfy. cbn. rewrite Hfz. cbn.
    f_equal. apply map_eq. intros k.
    rewrite lookup_literal3. repeat case_decide; subst; try done.
    symmetry. by apply Hother.
Qed.

(** X11: array_to_vector4 takes the first four elements as they are.  For
    an array of four elements or more the result is the dict of the first
    four under "x", "y", "z", "w" (no float() is applied, later elements
    are ignored), and vector4_to_array of it is np.array of these four;
    an array of fewer than four elements raises IndexError.  Coming from
    a dict with the four keys, array_to_vector4(vector4_to_array(v))
    holds the first four elements of the array np.array made, raises
    IndexError when that array has fewer than four, and is v itself when
    v has no other key and the array holds the four items unchanged. *)
Theorem array_to_vector4_takes_first_four {V : Type}
    (np_array : list V → outcome (list V)) (arr : list V) (vector4 : gmap string V) :
  (∀ (a0 a1 a2 a3 : V) (rest : list V),
     arr = a0 :: a1 :: a2 :: a3 :: rest →
     array_to_vector4 arr = Ok {[ "x" := a0; "y" := a1; "z" := a2; "w" := a3 ]} ∧
     array_to_vector4 arr ≫= vector4_to_array np_array = np_array [a0; a1; a2; a3]) ∧
  ((length arr < 4)%nat → array_to_vector4 arr = Err PyIndexError) ∧
  (∀ (x y z w : V) (a : list V),
     vector4 !! "x" = Some x → vector4 !! "y" = Some y →
     vector4 !! "z" = Some z → vector4 !! "w" = Some w →
     np_array [x; y; z; w] = Ok a →
     vector4_to_array np_array vector4 ≫= array_to_vector4 = array_to_vector4 a ∧
     (a = [x; y; z; w] →
      (∀ k, k ≠ "x" → k ≠ "y" → k ≠ "z" → k ≠ "w" → vector4 !! k = None) →
      vector4_to_array np_array vector4 ≫= array_to_vector4 = Ok vector4)) ∧
  (∀ (x y z w : V) (e : pyerror),
     vector4 !! "x" = Some x → vector4 !! "y" = Some y →
     vector4 !! "z" = Some z → vector4 !! "w" = Some w →
     np_array [x; y; z; w] = Err e →
     vector4_to_array np_array vector4 ≫= array_to_vector4 = Err e).
Proof.
  split; [|split; [|split]].
  - intros a0 a1 a2 a3 rest ->. split; [reflexivity|].
    cbn. unfold vector4_to_array.
    rewrite (item_Some _ "x" a0), (item_Some _ "y" a1), (item_Some _ "z" a2),
            (item_Some _ "w" a3); [done|by rewrite lookup_literal4..].
  - intros Hlen.
    destruct arr as [|a0 [|a1 [|a2 [|a3 rest]]]]; cbn in Hlen; [done..|lia].
  - intros x y z w a Hx Hy Hz Hw Ha.
    assert (vector4_to_array np_array vector4 = Ok a) as Harr.
    { unfold vector4_to_array.
      by rewrite (item_Some _ _ _ Hx), (item_Some _ _ _ Hy),
                 (item_Some _ _ _ Hz), (item_Some _ _ _ Hw). }
    rewrite Harr. split; [done|].
    intros -> Hother. cbn. f_equal. apply map_eq. intros k.
    rewrite lookup_literal4. repeat case_decide; subst; try done.
    symmetry. by apply Hother.
  - intros x y z w e Hx Hy Hz Hw He. unfold vector4_to_array.
    rewrite (item_Some _ _ _ Hx), (item_Some _ _ _ Hy),
            (item_Some _ _ _ Hz), (item_Some _ _ _ Hw). cbn. by rewrite He.
Qed.

(** X12: the alpha of array_to_color.  An array of exactly three elements
    gets the alpha 1; of an array of four or more the fourth element is
    the alpha and the rest is ignored; an array of fewer than three makes
    the call raise IndexError. *)
Theorem array_to_color_alpha (arr : list spec_float) :
  (∀ r g b : spec_float,
     arr = [r; g; b] →
     array_to_color arr
     = Ok {[ "r" := JFloat r; "g" := JFloat g; "b" := JFloat b; "a" := JInt 1 ]}) ∧
  (∀ (r g b a : spec_float) (rest : list spec_float),
     arr = r :: g :: b :: a :: rest →
     array_to_color arr
     = Ok {[ "r" := JFloat r; "g" := JFloat g; "b" := JFloat b; "a" := JFloat a ]}) ∧
  ((List.length arr < 3)%nat → array_to_color arr = Err PyIndexError).
Proof.
  split; [|split].
  - intros r g b ->. reflexivity.
  - intros r g b a rest ->. reflexivity.
  - intros Hlen. destruct arr as [|a0 [|a1 [|a2 rest]]]; simpl in Hlen; [done..|lia].
Qed.

(* --------------------------------------------------------------------- *)
(* create_avatar                                                         *)
(* --------------------------------------------------------------------- *)

(** X13: the commands of create_avatar.  The list is exactly the
    create_avatar command for the given type and id, then the
    teleport_avatar_to command for that avatar and position if position
    is true as a condition, then the look_at_position command for that
    avatar and look_at if look_at is true as a condition, and nothing
    else.  None is left out, and so is an empty dict, while any dict with
    items is kept; so the default call gives the create_avatar command
    alone. *)
Theorem create_avatar_commands (avatar_type avatar_id : string) (position look_at : json) :
  create_avatar avatar_type avatar_id position look_at
  = [JObject [("$type", JStr "create_avatar");
              ("type", JStr avatar_type);
              ("id", JStr avatar_id)]] ++
    (if truthy position
     then [JObject [("$type", JStr "teleport_avatar_to");
                    ("avatar_id", JStr avatar_id);
                    ("position", position)]]
     else []) ++
    (if truthy look_at
     then [JObject [("$type", JStr "look_at_position");
                    ("avatar_id", JStr avatar_id);
                    ("position", look_at)]]
     else []) ∧
  create_avatar avatar_type avatar_id JNull JNull
  = [JObject [("$type", JStr "create_avatar");
              ("type", JStr avatar_type);
              ("id", JStr avatar_id)]] ∧
  truthy JNull = false ∧ truthy (JObject []) = false ∧
  (∀ (item : string * json) (items : list (string * json)),
     truthy (JObject (item :: items)) = true).
Proof.
  split; [|split; [reflexivity|done]].
  unfold create_avatar. destruct (truthy position), (truthy look_at); reflexivity.
Qed.

(* --------------------------------------------------------------------- *)
(* More on the launcher                                                  *)
(* --------------------------------------------------------------------- *)

(** X14: the heartbeat thread sends nothing but heartbeats.  Every message
    it ever puts on the wire goes out on the socket it was given, right
    after a read of build_port from its build_info, and is the keep_alive
    request for the port just read: it never sends start_build or
    kill_build, and a thread whose reads of build_port all fail sends
    nothing at all. *)
Theorem keep_alive_thread_sends_only_keep_alive (s : zmq_socket) (build_info : pyref)
    (t : list event) (q : prog unit) :
  run (_keep_alive_thread s build_info) t = Some q →
  (∀ (j : nat) (s' : zmq_socket) (msg : dict),
     t !! j = Some (EvSend s' msg) →
     ∃ (j' : nat) (port : json),
       j = S j' ∧
       t !! j' = Some (EvGetItem build_info "build_port" port) ∧
       s' = s ∧ msg = keep_alive_request port) ∧
  (∀ m, m ∈ sent t →
     ∃ port, m = (s, keep_alive_request port) ∧
             EvGetItem build_info "build_port" port ∈ t) ∧
  ((∀ port, EvGetItem build_info "build_port" port ∉ t) → sent t = []).
Proof.
  intros Hrun. apply loop_run in Hrun as (ph & Hrun & _).
  assert (∀ (j : nat) (s' : zmq_socket) (msg : dict),
     t !! j = Some (EvSend s' msg) →
     ∃ (j' : nat) (port : json),
       j = S j' ∧
       t !! j' = Some (EvGetItem build_info "build_port" port) ∧
       s' = s ∧ msg = keep_alive_request port) as Hsend.
  { intros j s' msg Hj.
    destruct (ka_run_send _ _ _ _ _ _ _ _ Hrun Hj) as (port & -> & -> & Hprev).
    destruct j as [|j]; [discriminate Hprev|]. by exists j, port. }
  assert (∀ m, m ∈ sent t →
     ∃ port, m = (s, keep_alive_request port) ∧
             EvGetItem build_info "build_port" port ∈ t) as Hsent.
  { intros m Hm. unfold sent in Hm. apply list_elem_of_omap in Hm as (ev & Hev & Hm).
    destruct ev; try discriminate Hm. injection Hm as <-.
    apply list_elem_of_lookup in Hev as [j Hj].
    destruct (Hsend _ _ _ Hj) as (j' & port & _ & Hread & -> & ->).
    exists port. split; [done|]. by eapply list_elem_of_lookup_2. }
  split; [exact Hsend|]. split; [exact Hsent|].
  intros Hnone. destruct (sent t) as [|m ms]; [done|].
  destruct (Hsent m) as (port & _ & Hin); [by left|]. by destruct (Hnone port).
Qed.

Lemma keep_alive_thread_sends_only_keep_alive_witness :
  (∀ (j : nat) (s' : zmq_socket) (msg : dict),
     tick 0%nat 0%nat (JInt 5557) 1%nat ∅ !! j = Some (EvSend s' msg) →
     ∃ (j' : nat) (port : json),
       j = S j' ∧
       tick 0%nat 0%nat (JInt 5557) 1%nat ∅ !! j'
       = Some (EvGetItem 0%nat "build_port" port) ∧
       s' = 0%nat ∧ msg = keep_alive_request port) ∧
  (∀ m, m ∈ sent (tick 0%nat 0%nat (JInt 5557) 1%nat ∅) →
     ∃ port, m = (0%nat, keep_alive_request port) ∧
             EvGetItem 0%nat "build_port" port ∈ tick 0%nat 0%nat (JInt 5557) 1%nat ∅) ∧
  ((∀ port, EvGetItem 0%nat "build_port" port ∉ tick 0%nat 0%nat (JInt 5557) 1%nat ∅) →
   sent (tick 0%nat 0%nat (JInt 5557) 1%nat ∅) = []).
Proof.
  apply (keep_alive_thread_sends_only_keep_alive 0%nat 0%nat
           (tick 0%nat 0%nat (JInt 5557) 1%nat ∅) (_keep_alive_thread 0%nat 0%nat)).
  vm_compute. reflexivity.
Defined.

(* Two launches in a row, each with its socket, its reply and its dict. *)
Lemma launch_twice_process (listener_port : Z) (build_address controller_address : string)
    (s1 s2 : zmq_socket) (info1 info2 : pyref) (reply1 reply2 : dict) :
  info1 ≠ info2 →
  prun (start (launch_twice listener_port build_address controller_address))
    ((Main,.) <$>
       (launch_trace s1 listener_port build_address controller_address info1 reply1 ++
        launch_trace s2 listener_port build_address controller_address info2 reply2))
  = Some (Process (Ret (info1, info2))
            [_keep_alive_thread s1 info1; _keep_alive_thread s2 info2]
            (<[info2 := reply2]> (<[info1 := reply1]> ∅)) false).
Proof.
  intros Hne. unfold launch_twice, launch_trace, start. cbn [app].
  cbn [mbind prog_bind bind launch_build _send_start_build
       zmq_req_socket connect send_json recv_json thread_start mret prog_ret].
  do 3 main_step idtac. main_step ltac:(apply lookup_empty). main_step idtac.
  do 3 main_step idtac.
  main_step ltac:(rewrite lookup_insert_ne by done; apply lookup_empty).
  main_step idtac.
  reflexivity.
Qed.

(** X15: two launches give two independent sessions.  Calling
    launch_build twice starts two heartbeat threads, each on the socket
    and the dict of its own launch.  What one of them does is a matter
    of its own steps and its own dict: when the first has died of an
    exception, be it KeyError on a reply without build_port or an
    exception of a zmq call, the second, wherever it stands in its round,
    still finishes the round and does the next one, as long as its dict
    holds a build_port. *)
Theorem launch_twice_independent (listener_port : Z)
    (build_address controller_address : string)
    (s1 s2 : zmq_socket) (info1 info2 : pyref) (reply1 reply2 : dict)
    (P : process (pyref * pyref)) (sched : list (tid * event)) :
  info1 ≠ info2 →
  prun (Process (Ret (info1, info2))
          [_keep_alive_thread s1 info1; _keep_alive_thread s2 info2]
          (<[info2 := reply2]> (<[info1 := reply1]> ∅)) false) sched
  = Some P →
  exited P = false →
  prun (start (launch_twice listener_port build_address controller_address))
    ((Main,.) <$>
       (launch_trace s1 listener_port build_address controller_address info1 reply1 ++
        launch_trace s2 listener_port build_address controller_address info2 reply2))
  = Some (Process (Ret (info1, info2))
            [_keep_alive_thread s1 info1; _keep_alive_thread s2 info2]
            (<[info2 := reply2]> (<[info1 := reply1]> ∅)) false) ∧
  (∀ (e : exn) (content : dict) (port : json) (rounds : list (json * pyref * dict))
     (hb hb' : pyref) (heartbeat heartbeat' : dict) (n : nat),
     threads P !! 0%nat = Some (Raise e) →
     heap P !! info2 = Some content →
     content !! "build_port" = Some port →
     (n ≤ 4)%nat →
     events_of (Worker 1) sched
     = ticks s2 info2 rounds ++ take n (tick s2 info2 port hb heartbeat) →
     ((n ≤ 3)%nat → heap P !! hb = None ∧ hb ≠ hb') →
     heap P !! hb' = None →
     ∃ P' : process (pyref * pyref),
       prun P ((Worker 1,.) <$> (drop n (tick s2 info2 port hb heartbeat) ++
                                 tick s2 info2 port hb' heartbeat')) = Some P' ∧
       threads P' !! 0%nat = Some (Raise e) ∧
       threads P' !! 1%nat = Some (_keep_alive_thread s2 info2)).
Proof.
  intros Hne Hrun Hex. split; [by apply launch_twice_process|].
  intros e content port rounds hb hb' heartbeat heartbeat' n Hdead Hh Hport Hn Hev
    Hnew Hnew'.
  destruct (prun_worker _ _ _ 1%nat _ Hrun eq_refl) as (q1 & Hq1 & Hrun1).
  rewrite Hev in Hrun1.
  pose proof (keep_alive_goes_on _ _ _ _ port hb hb' heartbeat heartbeat' _ _
                Hn (fun _ => eq_refl) Hrun1) as Hgo.
  assert (q1 = ka_state s2 info2 (phase_after port n)) as Hqn.
  { apply loop_run in Hrun1 as (ph & Hph & ->). f_equal.
    rewrite ka_run_app, ka_ticks in Hph. cbn [mbind option_bind] in Hph.
    destruct n as [|[|[|[|[|n]]]]]; [..|lia]; unfold tick in Hph;
      cbn [take phase_after] in *;
      repeat (cbn [ka_run ka_next] in Hph; rewrite ?decide_True in Hph by done);
      by injection Hph as <-. }
  pose proof (keep_alive_heap_goes_on s2 info2 _ _ _ hb hb' heartbeat heartbeat' n
                Hh Hport Hnew Hnew' Hn) as Hheap.
  rewrite <- Hqn in Hheap.
  eexists. split; [|split].
  - apply (prun_worker_alone _ _ _ _ _ _ Hex Hq1 Hgo Hheap).
    destruct n as [|[|[|[|[|n]]]]]; [..|lia]; unfold tick; cbn [drop app];
      repeat (apply not_elem_of_cons; split; [discriminate|]); apply not_elem_of_nil.
  - cbn [threads]. by rewrite list_lookup_insert_ne.
  - cbn [threads]. apply list_lookup_insert_eq. by eapply lookup_lt_Some.
Qed.

Lemma launch_twice_independent_witness :
  prun (start (launch_twice 5556 "127.0.0.1" "10.0.0.2"))
    ((Main,.) <$>
       (launch_trace 0%nat 5556 "127.0.0.1" "10.0.0.2" 0%nat {[ "status" := JStr "error" ]} ++
        launch_trace 1%nat 5556 "127.0.0.1" "10.0.0.2" 1%nat {[ "build_port" := JInt 5558 ]}))
  = Some (Process (Ret (0%nat, 1%nat))
            [_keep_alive_thread 0%nat 0%nat; _keep_alive_thread 1%nat 1%nat]
            (<[1%nat := {[ "build_port" := JInt 5558 ]}]>
               (<[0%nat := {[ "status" := JStr "error" ]}]> ∅)) false) ∧
  (∀ (e : exn) (content : dict) (port : json) (rounds : list (json * pyref * dict))
     (hb hb' : pyref) (heartbeat heartbeat' : dict) (n : nat),
     threads (Process (Ret (0%nat, 1%nat))
                [Raise (KeyError "build_port"); ka_state 1%nat 1%nat (AtSend (JInt 5558))]
                (<[1%nat := {[ "build_port" := JInt 5558 ]}]>
                   (<[0%nat := {[ "status" := JStr "error" ]}]> ∅)) false) !! 0%nat
     = Some (Raise e) →
     heap (Process (Ret (0%nat, 1%nat))
             [Raise (KeyError "build_port"); ka_state 1%nat 1%nat (AtSend (JInt 5558))]
             (<[1%nat := {[ "build_port" := JInt 5558 ]}]>
                (<[0%nat := {[ "status" := JStr "error" ]}]> ∅)) false) !! 1%nat
     = Some content →
     content !! "build_port" = Some port →
     (n ≤ 4)%nat →
     events_of (Worker 1)
       [(Worker 0, EvLoop); (Worker 0, EvRaise (KeyError "build_port"));
        (Worker 1, EvLoop); (Worker 1, EvGetItem 1%nat "build_port" (JInt 5558))]
     = ticks 1%nat 1%nat rounds ++ take n (tick 1%nat 1%nat port hb heartbeat) →
     ((n ≤ 3)%nat →
      heap (Process (Ret (0%nat, 1%nat))
              [Raise (KeyError "build_port"); ka_state 1%nat 1%nat (AtSend (JInt 5558))]
              (<[1%nat := {[ "build_port" := JInt 5558 ]}]>
                 (<[0%nat := {[ "status" := JStr "error" ]}]> ∅)) false) !! hb = None ∧
      hb ≠ hb') →
     heap (Process (Ret (0%nat, 1%nat))
             [Raise (KeyError "build_port"); ka_state 1%nat 1%nat (AtSend (JInt 5558))]
             (<[1%nat := {[ "build_port" := JInt 5558 ]}]>
                (<[0%nat := {[ "status" := JStr "error" ]}]> ∅)) false) !! hb' = None →
     ∃ P' : process (pyref * pyref),
       prun (Process (Ret (0%nat, 1%nat))
               [Raise (KeyError "build_port"); ka_state 1%nat 1%nat (AtSend (JInt 5558))]
               (<[1%nat := {[ "build_port" := JInt 5558 ]}]>
                  (<[0%nat := {[ "status" := JStr "error" ]}]> ∅)) false)
         ((Worker 1,.) <$> (drop n (tick 1%nat 1%nat port hb heartbeat) ++
                            tick 1%nat 1%nat port hb' heartbeat')) = Some P' ∧
       threads P' !! 0%nat = Some (Raise e) ∧
       threads P' !! 1%nat = Some (_keep_alive_thread 1%nat 1%nat)).
Proof.
  apply (launch_twice_independent 5556 "127.0.0.1" "10.0.0.2" 0%nat 1%nat 0%nat 1%nat
           {[ "status" := JStr "error" ]} {[ "build_port" := JInt 5558 ]}
           (Process (Ret (0%nat, 1%nat))
              [Raise (KeyError "build_port"); ka_state 1%nat 1%nat (AtSend (JInt 5558))]
              (<[1%nat := {[ "build_port" := JInt 5558 ]}]>
                 (<[0%nat := {[ "status" := JStr "error" ]}]> ∅)) false)
           [(Worker 0, EvLoop); (Worker 0, EvRaise (KeyError "build_port"));
            (Worker 1, EvLoop); (Worker 1, EvGetItem 1%nat "build_port" (JInt 5558))]).
  - discriminate.
  - vm_compute. reflexivity.
  - reflexivity.
Defined.

(* ===================================================================== *)
(* AudioUtils                                                            *)
(* ===================================================================== *)

(* Unfolds the code of AudioUtils down to its system calls. *)
Ltac audio_compute H :=
  cbv [AudioUtils.stop AudioUtils.is_recording AudioUtils.start
       AudioUtils.get_system_audio_device
       mbind mret audio_bind audio_ret audio_raise audio_eval
       get_RECORDER_PID set_RECORDER_PID get_DEVICE set_DEVICE
       check_output path_resolve parent_exists parent_mkdir popen_pid
       subprocess_call pid_exists script_bind script_step
       RECORDER_PID DEVICE] in H.

(* Splits a run of a script on its first system call. *)
Ltac script_head H :=
  match type of H with
  | script_run _ ?t = Some _ =>
      let ev := fresh "ev" in
      destruct t as [|ev t]; cbn [script_run] in H; audio_compute H;
      [ apply (inj Some) in H
      | destruct ev; audio_compute H; try discriminate H;
        repeat (case_decide; [|discriminate H]); subst ]
  end.

Lemma script_run_done {A : Type} (a : A) (t : list os_event) (q : script A) :
  script_run (Done a) t = Some q → t = [] ∧ q = Done a.
Proof. destruct t as [|ev t]; cbn; [by intros [= <-]|discriminate]. Qed.

(* stop and is_recording as trees of system calls. *)

Lemma audio_stop_unfold (st : audio_utils) :
  AudioUtils.stop st =
  match RECORDER_PID st with
  | Some _ =>
      Call ["fmedia"; "--globcmd=quit"] (fun r =>
        match r with
        | Ok _ => Done (Ok tt, AudioState None (DEVICE st))
        | Err e => Done (Err e, st)
        end)
  | None => Done (Ok tt, st)
  end.
Proof. destruct st as [[pid|] dev]; reflexivity. Qed.

Lemma audio_is_recording_unfold (st : audio_utils) :
  AudioUtils.is_recording st =
  match RECORDER_PID st with
  | Some pid => PidExists pid (fun r => Done (r, st))
  | None => Done (Ok false, st)
  end.
Proof. destruct st as [[pid|] dev]; reflexivity. Qed.

(** X16: AudioUtils.stop is safe to call at any time and twice.  When no
    recorder is registered it makes no system call and changes nothing.
    When one is, it runs `fmedia --globcmd=quit` once and, whatever that
    command returns, clears RECORDER_PID and keeps DEVICE; if the call
    itself raises, the exception goes up and RECORDER_PID is kept.  So of
    two stops in a row that both return, the second makes no call. *)
Theorem audio_stop_idempotent (st : audio_utils) :
  (RECORDER_PID st = None → AudioUtils.stop st = Done (Ok tt, st)) ∧
  (∀ (pid : Z) (t : list os_event) (r : outcome unit) (st' : audio_utils),
     RECORDER_PID st = Some pid →
     script_run (AudioUtils.stop st) t = Some (Done (r, st')) →
     (∃ rc, t = [OsCall ["fmedia"; "--globcmd=quit"] (Ok rc)] ∧
            r = Ok tt ∧ st' = AudioState None (DEVICE st)) ∨
     (∃ e, t = [OsCall ["fmedia"; "--globcmd=quit"] (Err e)] ∧
           r = Err e ∧ st' = st)) ∧
  (∀ (t : list os_event) (st' : audio_utils),
     script_run ((AudioUtils.stop ;; AudioUtils.stop) st) t = Some (Done (Ok tt, st')) →
     RECORDER_PID st' = None ∧ DEVICE st' = DEVICE st ∧
     (t = [] ∨ ∃ rc, t = [OsCall ["fmedia"; "--globcmd=quit"] (Ok rc)])).
Proof.
  split; [|split].
  - intros Hpid. rewrite audio_stop_unfold. by rewrite Hpid.
  - intros pid t r st' Hpid H. rewrite audio_stop_unfold, Hpid in H.
    script_head H; [discriminate H|].
    destruct r0 as [rc|e]; apply script_run_done in H as [-> H];
      simplify_eq; [left; by exists rc|right; by exists e].
  - intros t st' H. destruct st as [[pid|] dev]; audio_compute H.
    + script_head H; [discriminate H|].
      destruct r as [rc|e]; apply script_run_done in H as [-> H];
        [|discriminate H].
      simplify_eq. cbn. split; [done|]. split; [done|]. right. by exists rc.
    + apply script_run_done in H as [-> H]. simplify_eq.
      split; [done|]. split; [done|]. by left.
Qed.

(** X17: AudioUtils.is_recording never changes the class attributes and
    asks the system only about a registered recorder: with RECORDER_PID
    None it answers False at once, otherwise it answers what
    pid_exists(RECORDER_PID) says.  After a stop that returned it
    therefore answers False without any system call. *)
Theorem audio_is_recording (st : audio_utils) :
  (RECORDER_PID st = None → AudioUtils.is_recording st = Done (Ok false, st)) ∧
  (∀ (pid : Z) (t : list os_event) (r : outcome bool) (st' : audio_utils),
     RECORDER_PID st = Some pid →
     script_run (AudioUtils.is_recording st) t = Some (Done (r, st')) →
     t = [OsPidExists pid r] ∧ st' = st) ∧
  (∀ (t : list os_event) (st' : audio_utils),
     script_run (AudioUtils.stop st) t = Some (Done (Ok tt, st')) →
     AudioUtils.is_recording st' = Done (Ok false, st')).
Proof.
  split; [|split].
  - intros Hpid. rewrite audio_is_recording_unfold. by rewrite Hpid.
  - intros pid t r st' Hpid H. rewrite audio_is_recording_unfold, Hpid in H.
    script_head H; [discriminate H|].
    apply script_run_done in H as [-> H]. by simplify_eq.
  - intros t st' H. rewrite audio_stop_unfold in H.
    rewrite audio_is_recording_unfold.
    destruct (RECORDER_PID st) as [pid|] eqn:Hpid.
    + script_head H; [discriminate H|].
      destruct r as [rc|e]; apply script_run_done in H as [-> H]; [|discriminate H].
      by simplify_eq.
    + apply script_run_done in H as [-> H]. simplify_eq. by rewrite Hpid.
Qed.

(* Takes the outcomes of the calls made so far apart. *)
Ltac script_outcomes H :=
  repeat first
    [ progress (match type of H with
                | context [match ?r with Ok _ => _ | Err _ => _ end] =>
                    first [is_var r; destruct r | destruct r eqn:?]
                end; audio_compute H)
    | progress (match type of H with
                | context [match re_search_group ?a ?b ?c with _ => _ end] =>
                    destruct (re_search_group a b c) eqn:?
                end; audio_compute H)
    | progress (match type of H with
                | context [if ?b then _ else _] => is_var b; destruct b
                end; audio_compute H) ].

(* Follows a run of a script call by call, to its end. *)
Ltac script_all H :=
  script_outcomes H;
  lazymatch type of H with
  | script_run (Done _) _ = Some _ => apply script_run_done in H as [-> H]
  | script_run _ _ = Some _ => script_head H; [discriminate H | script_all H]
  end.

(** X18: AudioUtils.start looks the capture device up once.  With DEVICE
    already set, no run of start lists the devices, and DEVICE is left
    as it is.  With DEVICE None, a start that returns has run
    `fmedia --list-dev` and has set DEVICE to what get_system_audio_device
    finds in the listing: the group of the first match of
    "device #...: Stereo Mix" in the text between the first and the
    second "Capture:". *)
Theorem audio_start_device (output_path : path_arg) (until : option (Z * Z))
    (st st' : audio_utils) (t : list os_event) (r : outcome unit) :
  script_run (AudioUtils.start output_path until st) t = Some (Done (r, st')) →
  (∀ d, DEVICE st = Some d →
     DEVICE st' = Some d ∧
     Forall (fun ev => ∀ args o, ev ≠ OsCheckOutput args o) t) ∧
  (DEVICE st = None → r = Ok tt →
   ∃ listing devices found,
     OsCheckOutput ["fmedia"; "--list-dev"] (Ok listing) ∈ t ∧
     split_second "Capture:" listing = Ok devices ∧
     re_search_group "device #" ": Stereo Mix" devices = Some found ∧
     DEVICE st' = Some found).
Proof.
  intros H. destruct st as [pid [d|]], output_path as [s|p]; audio_compute H.
  - split; [|discriminate]. intros d' [= <-].
    script_all H; simplify_eq; (split; [done|]); repeat constructor; discriminate.
  - split; [|discriminate]. intros d' [= <-].
    script_all H; simplify_eq; (split; [done|]); repeat constructor; discriminate.
  - split; [discriminate|]. intros _ ->.
    script_all H; simplify_eq; eexists _, _, _;
      (split; [repeat first [apply list_elem_of_here | apply list_elem_of_further]|]);
      (split; [eassumption|]); (split; [eassumption|done]).
  - split; [discriminate|]. intros _ ->.
    script_all H; simplify_eq; eexists _, _, _;
      (split; [repeat first [apply list_elem_of_here | apply list_elem_of_further]|]);
      (split; [eassumption|]); (split; [eassumption|done]).
Qed.

Lemma audio_start_device_witness :
  (∀ d, DEVICE (AudioState None None) = Some d →
     DEVICE (AudioState (Some 4242) (Some "2")) = Some d ∧
     Forall (fun ev => ∀ args o, ev ≠ OsCheckOutput args o)
       [OsParentExists "out/a.wav" (Ok true);
        OsCheckOutput ["fmedia"; "--list-dev"]
          (Ok "Playback: device #1: Speakers Capture: device #2: Stereo Mix (Realtek)");
        OsPathResolve "out/a.wav" (Ok "/home/tdw/out/a.wav");
        OsPopen ["fmedia"; "--record"; "--dev-capture=2";
                 "--out=/home/tdw/out/a.wav"; "--globcmd=listen"] (Ok 4242)]) ∧
  (DEVICE (AudioState None None) = None → Ok tt = Ok tt →
   ∃ listing devices found,
     OsCheckOutput ["fmedia"; "--list-dev"] (Ok listing)
     ∈ [OsParentExists "out/a.wav" (Ok true);
        OsCheckOutput ["fmedia"; "--list-dev"]
          (Ok "Playback: device #1: Speakers Capture: device #2: Stereo Mix (Realtek)");
        OsPathResolve "out/a.wav" (Ok "/home/tdw/out/a.wav");
        OsPopen ["fmedia"; "--record"; "--dev-capture=2";
                 "--out=/home/tdw/out/a.wav"; "--globcmd=listen"] (Ok 4242)] ∧
     split_second "Capture:" listing = Ok devices ∧
     re_search_group "device #" ": Stereo Mix" devices = Some found ∧
     DEVICE (AudioState (Some 4242) (Some "2")) = Some found).
Proof.
  apply (audio_start_device (PathObj "out/a.wav") None (AudioState None None)).
  vm_compute. reflexivity.
Defined.

(* --------------------------------------------------------------------- *)
(* Searching the device listing                                          *)
(* --------------------------------------------------------------------- *)

Lemma string_append_assoc (s t u : string) : (s +:+ t) +:+ u = s +:+ t +:+ u.
Proof. induction s as [|c s IH]; [done|]. rewrite !append_cons. by rewrite IH. Qed.

Lemma string_append_nil_r (s : string) : s +:+ "" = s.
Proof. induction s as [|c s IH]; [done|]. rewrite append_cons. by rewrite IH. Qed.

Lemma string_drop_app (a rest : string) : string_drop (String.length a) (a +:+ rest) = rest.
Proof. induction a as [|c a IH]; [done|]. exact IH. Qed.

Lemma string_prefix_app (a rest : string) : String.prefix a (a +:+ rest) = true.
Proof.
  induction a as [|c a IH]; [by destruct rest|].
  rewrite append_cons. cbn [String.prefix]. by destruct (ascii_dec c c).
Qed.

Lemma string_prefix_true (a s : string) :
  String.prefix a s = true → s = a +:+ string_drop (String.length a) s.
Proof.
  revert s. induction a as [|c a IH]; intros s Hp; [done|].
  destruct s as [|c' s]; [discriminate Hp|]. cbn [String.prefix] in Hp.
  destruct (ascii_dec c c') as [<-|]; [|discriminate Hp].
  rewrite append_cons. cbn [String.length string_drop]. f_equal. by apply IH.
Qed.

(* partition finds an occurrence of sep, and finds one when there is one. *)
Lemma partition_Some (sep s before after : string) :
  partition sep s = Some (before, after) → s = before +:+ sep +:+ after.
Proof.
  revert before. induction s as [|c s IH]; intros before Hp; cbn [partition] in Hp.
  - destruct (String.prefix sep "") eqn:Hpre; [|discriminate Hp].
    injection Hp as <- <-. by apply string_prefix_true.
  - destruct (String.prefix sep (String c s)) eqn:Hpre.
    + injection Hp as <- <-. by apply string_prefix_true.
    + destruct (partition sep s) as [[b a]|]; [|discriminate Hp].
      injection Hp as <- <-. rewrite append_cons. f_equal. by apply IH.
Qed.

Lemma partition_None (sep s pre post : string) :
  partition sep s = None → s ≠ pre +:+ sep +:+ post.
Proof.
  revert pre. induction s as [|c s IH]; intros pre Hp Hs; cbn [partition] in Hp.
  - destruct (String.prefix sep "") eqn:Hpre; [discriminate Hp|].
    destruct pre; [|discriminate Hs]. rewrite append_nil_l in Hs.
    rewrite Hs, string_prefix_app in Hpre. discriminate Hpre.
  - destruct (String.prefix sep (String c s)) eqn:Hpre; [discriminate Hp|].
    destruct pre as [|c' pre].
    + rewrite append_nil_l in Hs. rewrite Hs, string_prefix_app in Hpre. discriminate Hpre.
    + rewrite append_cons in Hs. injection Hs as <- Hs.
      destruct (partition sep s) as [[b a]|] eqn:Hs'; [discriminate Hp|].
      by apply (IH pre).
Qed.

Lemma split_second_Ok (sep s devices : string) :
  split_second sep s = Ok devices →
  ∃ before after, s = before +:+ sep +:+ devices +:+ after.
Proof.
  unfold split_second. intros Hs.
  destruct (partition sep s) as [[before rest]|] eqn:H1; [|discriminate Hs].
  apply partition_Some in H1 as ->.
  destruct (partition sep rest) as [[between after]|] eqn:H2.
  - injection Hs as <-. apply partition_Some in H2 as ->.
    by exists before, (sep +:+ after).
  - injection Hs as <-. exists before, "".
    by rewrite string_append_nil_r.
Qed.

Lemma split_second_Err (sep s : string) (e : pyerror) :
  split_second sep s = Err e ↔ e = PyIndexError ∧ ∀ pre post, s ≠ pre +:+ sep +:+ post.
Proof.
  unfold split_second. split.
  - intros Hs. destruct (partition sep s) as [[before rest]|] eqn:H1.
    + destruct (partition sep rest) as [[between after]|]; discriminate Hs.
    + injection Hs as <-. split; [done|]. intros pre post. by apply partition_None.
  - intros [-> Hno]. destruct (partition sep s) as [[before rest]|] eqn:H1; [|done].
    apply partition_Some in H1. by apply Hno in H1.
Qed.

(* A line has no newline in it. *)
Lemma line_of_app (s : string) : ∃ rest, s = line_of s +:+ rest.
Proof.
  induction s as [|c s [rest IH]]; [by exists ""|]. cbn [line_of].
  case_decide.
  - by exists (String c s).
  - exists rest. rewrite append_cons. by f_equal.
Qed.

Lemma line_of_no_newline (s pre post : string) :
  line_of s ≠ pre +:+ String newline post.
Proof.
  revert pre. induction s as [|c s IH]; intros pre; cbn [line_of].
  - by destruct pre.
  - case_decide as Hc; [by destruct pre|].
    destruct pre as [|c' pre].
    + rewrite append_nil_l. congruence.
    + rewrite append_cons. intros [= <- Hs]. by apply (IH pre).
Qed.

Lemma line_of_append (a s : string) :
  (∀ pre post, a ≠ pre +:+ String newline post) →
  line_of (a +:+ s) = a +:+ line_of s.
Proof.
  induction a as [|c a IH]; intros Ha; [done|].
  rewrite !append_cons. cbn [line_of]. case_decide as Hc.
  - subst c. exfalso. by apply (Ha "" a).
  - f_equal. apply IH. intros pre post ->. by apply (Ha (String c pre) post).
Qed.

Lemma before_last_Some (sep s group : string) :
  before_last sep s = Some group → ∃ post, s = group +:+ sep +:+ post.
Proof.
  revert group. induction s as [|c s IH]; intros group Hb; cbn [before_last] in Hb.
  - destruct (String.prefix sep "") eqn:Hpre; [|discriminate Hb].
    injection Hb as <-. eexists. by apply string_prefix_true.
  - destruct (before_last sep s) as [before|].
    + injection Hb as <-. destruct (IH before eq_refl) as [post ->]. by exists post.
    + destruct (String.prefix sep (String c s)) eqn:Hpre; [|discriminate Hb].
      injection Hb as <-. eexists. by apply string_prefix_true.
Qed.

Lemma before_last_is_Some (sep group post : string) :
  is_Some (before_last sep (group +:+ sep +:+ post)).
Proof.
  assert (∀ s, String.prefix sep s = true → is_Some (before_last sep s)) as Hhere.
  { intros [|c s] Hp; cbn [before_last]; rewrite Hp; [done|].
    by destruct (before_last sep s). }
  induction group as [|c group [b IH]];
    [rewrite append_nil_l; apply Hhere, string_prefix_app|].
  rewrite append_cons. cbn [before_last]. by rewrite IH.
Qed.

(* What re_search_group finds is there, on one line; and it finds
   something when there is something to find. *)
Lemma re_search_group_Some (left right s group : string) :
  re_search_group left right s = Some group →
  (∃ pre post, s = pre +:+ left +:+ group +:+ right +:+ post) ∧
  (∀ pre post, group ≠ pre +:+ String newline post).
Proof.
  assert (∀ s,
    (if String.prefix left s
     then before_last right (line_of (string_drop (String.length left) s))
     else None) = Some group →
    (∃ post, s = left +:+ group +:+ right +:+ post) ∧
    (∀ pre post, group ≠ pre +:+ String newline post)) as Hhere.
  { intros s' Hs. destruct (String.prefix left s') eqn:Hp; [|discriminate Hs].
    apply string_prefix_true in Hp. apply before_last_Some in Hs as [post Hline].
    destruct (line_of_app (string_drop (String.length left) s')) as [rest Hrest].
    split.
    - exists (post +:+ rest). rewrite Hp at 1. f_equal. rewrite Hrest at 1.
      rewrite Hline. by rewrite !string_append_assoc.
    - intros pre post' ->.
      apply (line_of_no_newline (string_drop (String.length left) s') pre
               (post' +:+ right +:+ post)).
      rewrite Hline. by rewrite !string_append_assoc. }
  induction s as [|c s IH]; cbn [re_search_group]; intros Hs.
  - destruct (if String.prefix left "" then _ else _) as [g|] eqn:Hh; [|discriminate Hs].
    injection Hs as ->. destruct (Hhere _ Hh) as [[post Hpost] Hnl].
    split; [by exists "", post|done].
  - destruct (if String.prefix left (String c s) then _ else _) as [g|] eqn:Hh.
    + injection Hs as ->. destruct (Hhere _ Hh) as [[post Hpost] Hnl].
      split; [by exists "", post|done].
    + destruct (IH Hs) as [(pre & post & ->) Hnl].
      split; [by exists (String c pre), post|done].
Qed.

Lemma re_search_group_is_Some (left right pre group post : string) :
  (∀ p q, group ≠ p +:+ String newline q) →
  (∀ p q, right ≠ p +:+ String newline q) →
  is_Some (re_search_group left right (pre +:+ left +:+ group +:+ right +:+ post)).
Proof.
  intros Hg Hr. induction pre as [|c pre IH].
  - rewrite append_nil_l.
    assert (is_Some (before_last right (line_of (string_drop (String.length left)
              (left +:+ group +:+ right +:+ post))))) as [g Hhere].
    { rewrite string_drop_app, (line_of_append group) by done.
      rewrite (line_of_append right) by done. apply before_last_is_Some. }
    pose proof (string_prefix_app left (group +:+ right +:+ post)) as Hp.
    destruct (left +:+ group +:+ right +:+ post); cbn [re_search_group];
      by rewrite Hp, Hhere.
  - rewrite append_cons. cbn [re_search_group].
    by destruct (if String.prefix left _ then _ else _).
Qed.

(** X19: what get_system_audio_device finds.  It makes one call,
    `fmedia --list-dev`, and leaves the class attributes alone; an
    exception of the call goes up as it is.  A listing without "Capture:"
    raises IndexError.  A device that is returned has no newline in it and
    stands in the listing after a "Capture:", between "device #" and
    ": Stereo Mix".  AssertionError, with the text searched in its message,
    is raised only when that text has no "device #", then no newline,
    then ": Stereo Mix" anywhere. *)
Theorem audio_device_search (st st' : audio_utils) (t : list os_event) (r : outcome string) :
  script_run (AudioUtils.get_system_audio_device st) t = Some (Done (r, st')) →
  st' = st ∧
  ∃ o, t = [OsCheckOutput ["fmedia"; "--list-dev"] o] ∧
    (∀ e, o = Err e → r = Err e) ∧
    (∀ listing, o = Ok listing →
       ((∀ pre post, listing ≠ pre +:+ "Capture:" +:+ post) → r = Err PyIndexError) ∧
       (∀ found, r = Ok found →
          (∃ before pre post after,
             listing = before +:+ "Capture:" +:+
                       (pre +:+ "device #" +:+ found +:+ ": Stereo Mix" +:+ post) +:+ after) ∧
          (∀ p q, found ≠ p +:+ String newline q)) ∧
       (∀ msg, r = Err (PyAssertionError msg) →
          ∃ devices,
            split_second "Capture:" listing = Ok devices ∧
            msg = "No suitable audio capture device found:" +:+ String newline devices ∧
            ∀ pre found post,
              (∀ p q, found ≠ p +:+ String newline q) →
              devices ≠ pre +:+ "device #" +:+ found +:+ ": Stereo Mix" +:+ post)).
Proof.
  intros H. audio_compute H. script_head H; [discriminate H|].
  destruct r0 as [listing|e]; audio_compute H.
  - destruct (split_second "Capture:" listing) as [devices|e] eqn:Hsplit; audio_compute H.
    + destruct (re_search_group "device #" ": Stereo Mix" devices) as [group1|] eqn:Hsearch;
        audio_compute H; apply script_run_done in H as [-> H]; simplify_eq;
        (split; [done|]); eexists; (split; [done|]); (split; [discriminate|]);
        intros ? [= <-]; destruct (split_second_Ok _ _ _ Hsplit) as (before & after & Hl).
      * split; [|split].
        -- intros Hno. by destruct (Hno before (devices +:+ after)).
        -- intros found [= <-].
           apply re_search_group_Some in Hsearch as [(pre & post & Hd) Hnl].
           split; [|done]. exists before, pre, post, after. by rewrite <- Hd.
        -- discriminate.
      * split; [|split].
        -- intros Hno. by destruct (Hno before (devices +:+ after)).
        -- discriminate.
        -- intros msg [= <-].
           exists devices. split; [done|]. split; [done|].
           intros pre found post Hnl ->.
           destruct (re_search_group_is_Some "device #" ": Stereo Mix" pre found post Hnl)
             as [g Hg]; [|congruence].
           intros p q. apply (line_of_no_newline ": Stereo Mix").
    + apply script_run_done in H as [-> H]. simplify_eq.
      apply split_second_Err in Hsplit as [-> Hno].
      split; [done|]. eexists. split; [done|]. split; [discriminate|].
      intros ? [= <-]. split; [done|]. split; discriminate.
  - apply script_run_done in H as [-> H]. simplify_eq.
    split; [done|]. eexists. split; [done|]. split; [by intros ? [= <-]|discriminate].
Qed.

Lemma audio_device_search_witness :
  AudioState None None = AudioState None None ∧
  ∃ o, [OsCheckOutput ["fmedia"; "--list-dev"]
          (Ok "Playback: device #1: Speakers Capture: device #2: Stereo Mix (Realtek)")]
       = [OsCheckOutput ["fmedia"; "--list-dev"] o] ∧
    (∀ e, o = Err e → Ok "2" = Err e) ∧
    (∀ listing, o = Ok listing →
       ((∀ pre post, listing ≠ pre +:+ "Capture:" +:+ post) → Ok "2" = Err PyIndexError) ∧
       (∀ found, Ok "2" = Ok found →
          (∃ before pre post after,
             listing = before +:+ "Capture:" +:+
                       (pre +:+ "device #" +:+ found +:+ ": Stereo Mix" +:+ post) +:+ after) ∧
          (∀ p q, found ≠ p +:+ String newline q)) ∧
       (∀ msg, Ok "2" = Err (PyAssertionError msg) →
          ∃ devices,
            split_second "Capture:" listing = Ok devices ∧
            msg = "No suitable audio capture device found:" +:+ String newline devices ∧
            ∀ pre found post,
              (∀ p q, found ≠ p +:+ String newline q) →
              devices ≠ pre +:+ "device #" +:+ found +:+ ": Stereo Mix" +:+ post)).
Proof.
  apply (audio_device_search (AudioState None None) (AudioState None None)).
  vm_compute. reflexivity.
Defined.

(** X20: AudioUtils.start starts one process and stops none.  No run of
    start calls `fmedia --globcmd=quit` or any other command to the end: a
    recorder already noted in RECORDER_PID is left running.  A start that
    raises leaves RECORDER_PID as it was.  A start that returns has made
    these calls and no other, in this order: for a str, the resolution of
    output_path, which gives the path p (a Path is taken as p itself);
    the test whether the parent of p exists, and its creation if it does
    not; the listing of the devices if DEVICE was None; the resolution of
    p, which gives out; and Popen of fmedia --record with the device now
    in DEVICE, --out=out, --globcmd=listen and, with until, the time as
    zero_padding of its two numbers.  RECORDER_PID is then the pid of
    that process. *)
Theorem audio_start_recorder (output_path : path_arg) (until : option (Z * Z))
    (st st' : audio_utils) (t : list os_event) (r : outcome unit) :
  script_run (AudioUtils.start output_path until st) t = Some (Done (r, st')) →
  Forall (fun ev => ∀ args o, ev ≠ OsCall args o) t ∧
  (∀ e, r = Err e → RECORDER_PID st' = RECORDER_PID st) ∧
  (r = Ok tt →
   ∃ (p out dev listing : string) (there : bool) (pid : Z),
     t = match output_path with
         | PathStr s => [OsPathResolve s (Ok p)]
         | PathObj _ => []
         end ++
         [OsParentExists p (Ok there)] ++
         (if there then [] else [OsParentMkdir p (Ok tt)]) ++
         match DEVICE st with
         | Some _ => []
         | None => [OsCheckOutput ["fmedia"; "--list-dev"] (Ok listing)]
         end ++
         [OsPathResolve p (Ok out);
          OsPopen
            (["fmedia"; "--record"; "--dev-capture=" +:+ dev; "--out=" +:+ out;
              "--globcmd=listen"] ++
             match until with
             | Some (minutes, seconds) =>
                 ["--until=" +:+ zero_padding minutes 2 +:+ ":"
                             +:+ zero_padding seconds 2]
             | None => []
             end) (Ok pid)] ∧
     match output_path with
     | PathStr _ => True
     | PathObj p0 => p = p0
     end ∧
     DEVICE st' = Some dev ∧ RECORDER_PID st' = Some pid).
Proof.
  intros H.
  destruct st as [pid0 [d|]], output_path as [s|p], until as [[minutes seconds]|];
    audio_compute H; script_all H; simplify_eq;
    (split; [repeat constructor; discriminate|]);
    (split; [by intros ? [= <-] || done|]);
    first [discriminate | intros _].
  all: repeat match goal with u : unit |- _ => destruct u end; cbn [DEVICE];
    lazymatch goal with
    | |- context [OsParentExists ?p (Ok ?b) :: _] => eexists p, _, _, _, b, _
    end;
    (split; [reflexivity|done]).
  Unshelve. all: exact "".
Qed.

Lemma audio_start_recorder_witness :
  Forall (fun ev => ∀ args o, ev ≠ OsCall args o) start_until_ten_seconds ∧
  (∀ e, Ok tt = Err e →
     RECORDER_PID (AudioState (Some 4242) (Some "2"))
     = RECORDER_PID (AudioState (Some 17) None)) ∧
  (Ok tt = Ok tt →
   ∃ (p out dev listing : string) (there : bool) (pid : Z),
     start_until_ten_seconds
     = [] ++
       [OsParentExists p (Ok there)] ++
       (if there then [] else [OsParentMkdir p (Ok tt)]) ++
       [OsCheckOutput ["fmedia"; "--list-dev"] (Ok listing)] ++
       [OsPathResolve p (Ok out);
        OsPopen
          (["fmedia"; "--record"; "--dev-capture=" +:+ dev; "--out=" +:+ out;
            "--globcmd=listen"] ++
           ["--until=" +:+ zero_padding 0 2 +:+ ":" +:+ zero_padding 10 2]) (Ok pid)] ∧
     p = "out/a.wav" ∧
     DEVICE (AudioState (Some 4242) (Some "2")) = Some dev ∧
     RECORDER_PID (AudioState (Some 4242) (Some "2")) = Some pid).
Proof.
  apply (audio_start_recorder (PathObj "out/a.wav") (Some (0, 10))
           (AudioState (Some 17) None)).
  vm_compute. reflexivity.
Defined.

(* --------------------------------------------------------------------- *)
(* Calls of AudioUtils one after the other                               *)
(* --------------------------------------------------------------------- *)

(* A run of two pieces of code in a row is a run of the first followed by
   a run of the second. *)
Lemma script_run_bind {A B : Type} (m : script A) (f : A → script B)
    (t : list os_event) (b : B) :
  script_run (script_bind m f) t = Some (Done b) →
  ∃ t1 t2 a, t = t1 ++ t2 ∧
    script_run m t1 = Some (Done a) ∧ script_run (f a) t2 = Some (Done b).
Proof.
  revert t.
  induction m as [a|args k IH|path k IH|path k IH|path k IH|args k IH|args k IH|pid k IH];
    intros t H; [by exists [], t, a|..].
  all: destruct t as [|ev t]; [discriminate H|]; cbn [script_run script_bind] in H;
    destruct ev; try discriminate H; cbn [script_step] in H;
    case_decide as Heq; [|discriminate H]; subst;
    destruct (IH _ _ H) as (t1 & t2 & a & -> & H1 & H2);
    eexists (_ :: t1), t2, a; (split; [done|]); (split; [|done]);
    cbn [script_run script_step]; by rewrite decide_True.
Qed.

(* The second statement runs when the first has returned. *)
Lemma audio_run_seq {A B : Type} (m : audio A) (n : audio B) (st st' : audio_utils)
    (t : list os_event) (b : B) :
  script_run ((m ;; n) st) t = Some (Done (Ok b, st')) →
  ∃ t1 t2 a st1, t = t1 ++ t2 ∧
    script_run (m st) t1 = Some (Done (Ok a, st1)) ∧
    script_run (n st1) t2 = Some (Done (Ok b, st')).
Proof.
  intros H. apply script_run_bind in H as (t1 & t2 & [[a|e] st1] & -> & H1 & H2).
  - by exists t1, t2, a, st1.
  - apply script_run_done in H2 as [_ [=]].
Qed.

(* What the next call can count on after a start that returned. *)
Lemma audio_start_returned (output_path : path_arg) (until : option (Z * Z))
    (st st' : audio_utils) (t : list os_event) :
  script_run (AudioUtils.start output_path until st) t = Some (Done (Ok tt, st')) →
  Forall (fun ev => ∀ args o, ev ≠ OsCall args o) t ∧
  (∀ d, DEVICE st = Some d →
     DEVICE st' = Some d ∧ Forall (fun ev => ∀ args o, ev ≠ OsCheckOutput args o) t) ∧
  ∃ dev pid args,
    DEVICE st' = Some dev ∧ RECORDER_PID st' = Some pid ∧
    last t = Some (OsPopen args (Ok pid)) ∧ "--dev-capture=" +:+ dev ∈ args.
Proof.
  intros H.
  destruct st as [pid0 [d|]], output_path as [s|p], until as [[minutes seconds]|];
    audio_compute H; script_all H; simplify_eq;
    (split; [repeat constructor; discriminate|]);
    (split; [first [discriminate
                   |intros ? [= <-]; split; [done|repeat constructor; discriminate]]|]);
    eexists _, _, _; cbn [last app];
    (split; [reflexivity|]); (split; [reflexivity|]); (split; [reflexivity|]);
    repeat first [apply list_elem_of_here | apply list_elem_of_further].
Qed.

(** X21: recording twice.  In a run of start, stop, start that returns,
    `fmedia --globcmd=quit` is called once, after the first recorder was
    started and before the second; the devices are not listed again for
    the second start, which records from the device of the first; and
    RECORDER_PID ends as the pid of the second recorder. *)
Theorem audio_start_stop_start (path1 path2 : path_arg) (until1 until2 : option (Z * Z))
    (st st' : audio_utils) (t : list os_event) :
  script_run ((AudioUtils.start path1 until1 ;; AudioUtils.stop ;;
               AudioUtils.start path2 until2) st) t
  = Some (Done (Ok tt, st')) →
  ∃ (t1 t2 : list os_event) (rc pid1 pid2 : Z) (args1 args2 : list string) (dev : string),
    t = t1 ++ [OsCall ["fmedia"; "--globcmd=quit"] (Ok rc)] ++ t2 ∧
    Forall (fun ev => ∀ args o, ev ≠ OsCall args o) (t1 ++ t2) ∧
    Forall (fun ev => ∀ args o, ev ≠ OsCheckOutput args o) t2 ∧
    last t1 = Some (OsPopen args1 (Ok pid1)) ∧
    last t2 = Some (OsPopen args2 (Ok pid2)) ∧
    "--dev-capture=" +:+ dev ∈ args1 ∧ "--dev-capture=" +:+ dev ∈ args2 ∧
    DEVICE st' = Some dev ∧ RECORDER_PID st' = Some pid2.
Proof.
  intros H.
  apply audio_run_seq in H as (t1 & t' & [] & st1 & -> & H1 & H).
  apply audio_run_seq in H as (ts & t2 & [] & st2 & -> & Hs & H2).
  apply audio_start_returned in H1
    as (Hcall1 & _ & dev & pid1 & args1 & Hdev1 & Hpid1 & Hlast1 & Hargs1).
  rewrite audio_stop_unfold, Hpid1 in Hs. script_head Hs; [discriminate Hs|].
  destruct r as [rc|e]; apply script_run_done in Hs as [-> Hs]; [|discriminate Hs].
  injection Hs as Hst. subst st2.
  apply audio_start_returned in H2
    as (Hcall2 & Hkept & dev2 & pid2 & args2 & Hdev2 & Hpid2 & Hlast2 & Hargs2).
  destruct (Hkept dev Hdev1) as [Hdev' Hlist].
  assert (dev2 = dev) as -> by congruence.
  exists t1, t2, rc, pid1, pid2, args1, args2, dev.
  split; [done|]. split; [by apply Forall_app|]. done.
Qed.

Lemma audio_start_stop_start_witness :
  ∃ (t1 t2 : list os_event) (rc pid1 pid2 : Z) (args1 args2 : list string) (dev : string),
    start_stop_start_run = t1 ++ [OsCall ["fmedia"; "--globcmd=quit"] (Ok rc)] ++ t2 ∧
    Forall (fun ev => ∀ args o, ev ≠ OsCall args o) (t1 ++ t2) ∧
    Forall (fun ev => ∀ args o, ev ≠ OsCheckOutput args o) t2 ∧
    last t1 = Some (OsPopen args1 (Ok pid1)) ∧
    last t2 = Some (OsPopen args2 (Ok pid2)) ∧
    "--dev-capture=" +:+ dev ∈ args1 ∧ "--dev-capture=" +:+ dev ∈ args2 ∧
    DEVICE (AudioState (Some 4243) (Some "2")) = Some dev ∧
    RECORDER_PID (AudioState (Some 4243) (Some "2")) = Some pid2.
Proof.
  apply (audio_start_stop_start (PathObj "out/a.wav") (PathObj "out/b.wav")
           (Some (0, 10)) None (AudioState None None)).
  vm_compute. reflexivity.
Defined.
